(** * Peddler: watch execution, change detection and notification fan-out

    A shallow embedding of the TypeScript services of the repository
    (ScraperService, DatabaseService, ConfigService, NotificationService,
    FacebookMarketplaceScraper and the scheduler handler) and the properties
    the specification states about them, followed by properties of the code
    the specification does not state (among them the notifier and request
    handlers and the retry helper).

    Conventions of the embedding.
    - An [async] method is a computation [M A]: it takes the state of the
      world and gives back either a value or a thrown exception, with the
      world it leaves behind.  [await] is sequencing; [try], [catch] and
      [finally] are combinators with the meaning they have in JavaScript.
    - Promises started together and awaited with [Promise.allSettled] are
      run one after the other, in the order in which they are started;
      other interleavings are not modelled.  What is stated of the console
      lines of such promises is therefore stated up to their order.
    - Everything outside the process (SSM, Secrets Manager, DynamoDB, the
      browser, the HTTP endpoints of the channels) is the [World].  Each
      awaited call to an outside party consumes one [Tick] of the world's
      [script]: the tick says how much time the call took, whether it
      rejected, and whether DynamoDB's TTL sweeper ran before it.  A theorem
      quantified over the world therefore covers every pattern of failures.
    - The world keeps a chronological [log] of the outside calls made, of
      the [console.error] lines written and of the batches the scheduler
      announces.
    - A JavaScript [number] is an IEEE 754 double, with the operations of
      the Standard Library's [SpecFloat] at the binary64 format.  Prices
      are the integers [parseInt] produces, kept as [Z]; the difference of
      two prices is rounded once on its way into a double, as the
      subtraction of two integers a double holds rounds it.  (A price
      beyond the range of doubles, which [parseInt] reads as Infinity, is
      not modelled.)  The drop threshold is any double.
    - A property read off an object ([secrets[key]]) is looked up in the
      object and then in [Object.prototype].
    - The clock stands still between two awaited calls, so that two
      [new Date()] in a row read one instant.  Strings are sequences of
      bytes and [toLowerCase] lowers the letters of ASCII only: the keyword
      filters are those of the code on ASCII text.
    - The formatting of messages, the construction of URLs and the DOM
      selectors have no part in the properties and are left out. *)

From Stdlib Require Import ZArith Lia List Bool.
From Stdlib Require Import Floats.SpecFloat.
From Stdlib Require Import Strings.String Strings.Ascii.
From stdpp Require Import base option list gmap strings pretty.

Local Open Scope string_scope.
Local Open Scope Z_scope.

(** ** Numbers *)

(** A JavaScript [number] is an IEEE 754 double; the operations on it are
    those of the Standard Library's specification of the binary64 format
    (53 bits of precision, round to nearest even). *)
Definition number : Type := spec_float.

(** The double that holds an integer (exactly, up to 2^53 in magnitude). *)
Definition js_of_Z (z : Z) : number := binary_normalize 53 1024 z 0 false.

(** [a / b] for two integers held in doubles. *)
Definition js_div (a b : Z) : number := SFdiv 53 1024 (js_of_Z a) (js_of_Z b).

(** [x * 100]. *)
Definition js_times100 (x : number) : number := SFmul 53 1024 x (js_of_Z 100).

(** [x >= t]; a comparison with NaN is false. *)
Definition js_ge (x t : number) : bool := SFleb t x.

(** ** Types (src/types/index.ts) *)

Inductive Marketplace : Type := facebook | craigslist | ebay.

Definition marketplace_name (m : Marketplace) : string :=
  match m with
  | facebook => "facebook"
  | craigslist => "craigslist"
  | ebay => "ebay"
  end.

Record SlackConfig : Type := mkSlack
  { slack_enabled : bool; webhook : string }.

Record TelegramConfig : Type := mkTelegram
  { telegram_enabled : bool; botToken : string; chatId : string }.

Record PushoverConfig : Type := mkPushover
  { pushover_enabled : bool; userKey : string; appToken : string }.

Record NotificationConfig : Type := mkNotificationConfig
  { slack : option SlackConfig;
    telegram : option TelegramConfig;
    pushover : option PushoverConfig }.

Record ScraperConfig : Type := mkScraperConfig
  { id : string;
    name : string;
    enabled : bool;
    marketplace : Marketplace;
    query : string;
    location : string;
    radius : Z;
    priceMin : option Z;
    priceMax : option Z;
    includeKeywords : option (list string);
    excludeKeywords : option (list string);
    scrollDepth : nat;
    priceDropThreshold : number;
    notifications : NotificationConfig }.

(** Instants ([firstSeen], [lastSeen]) are kept as the millisecond count the
    ISO string denotes. *)
Record Listing : Type := mkListing
  { scraperId : string;
    listingId : string;
    title : string;
    price : Z;
    previousPrice : option Z;
    l_location : string;
    url : string;
    imageUrl : option string;
    firstSeen : Z;
    lastSeen : Z;
    expiresAt : Z }.

Record ScrapingResult : Type := mkScrapingResult
  { r_scraperId : string;
    success : bool;
    error : option string;
    newListings : list Listing;
    priceDrops : list Listing;
    totalFound : nat;
    executionTime : Z }.

Inductive PayloadType : Type := new_listing | price_drop.

Record NotificationPayload : Type := mkPayload
  { p_type : PayloadType;
    p_listing : Listing;
    p_scraper : ScraperConfig;
    priceDropPercentage : option number }.

Record AppConfig : Type := mkAppConfig
  { scrapers : list ScraperConfig }.

(** ** The world *)

(** What a [catch] clause can receive: an [Error] object with its message,
    or some other thrown value. *)
Inductive exn : Type :=
  | Error (message : string)
  | Thrown.

(** One card of a listing as the page shows it (after cheerio extraction). *)
Record Card : Type := mkCard
  { c_title : string;
    c_price : Z;
    c_listingId : string;
    c_url : string;
    c_imageUrl : option string }.

(** What reading a property of an object parsed from JSON with string
    values can give: a string, or the member of [Object.prototype] of that
    name (a function, or the prototype itself for [__proto__]). *)
Inductive JsValue : Type :=
  | JsString (s : string)
  | Inherited (property : string).

Coercion JsString : string >-> JsValue.

Inductive Channel : Type :=
  | Slack (webhookUrl : JsValue)
  | Telegram (token chat : JsValue)
  | Pushover (token user : JsValue).

(** The awaited calls that leave the process. *)
Inductive Call : Type :=
  | GetParameter
  | GetSecretValue
  | Launch
  | BrowserClose
  | NewPage
  | LoadPage (scraper : string)
  | PageClose
  | DbGet (scraper listing : string)
  | DbPut (scraper listing : string)
  | DbUpdate (scraper listing : string)
  | Post (c : Channel)
  | Sleep (ms : Z).

Inductive Event : Type :=
  | Ev (c : Call) (fulfilled : bool)
  | ConsoleError (line : string)
  | Batch (number : nat) (ids : list string).

(** The [FacebookMarketplaceScraper] object: its one field, [browser], is
    either null or a launched browser. *)
Record FacebookMarketplaceScraper : Type := mkFb
  { browser : bool }.

Record Tick : Type := mkTick
  { t_elapsed : Z;
    t_reject : option exn;
    t_sweep : bool }.

(** The state of one [ConfigService] object. *)
Record ConfigService : Type := mkConfigService
  { configCache : option AppConfig;
    secretsCache : option (gmap string string);
    cacheExpiry : Z }.

(** The world:
    - [table]: the DynamoDB table of listings, keyed by scraper and listing;
    - [now]: the clock, in milliseconds;
    - [script]: what the outside will answer to the calls to come;
    - [log]: what has happened so far;
    - [env]: [process.env];
    - [parameter], [secret]: the configuration in SSM and the bundle in
      Secrets Manager, when there are any;
    - [pages]: the cards the marketplace shows for the search of a watcher
      (by watcher id);
    - [configService]: the [ConfigService] object of the [ScraperService];
    - [scraper]: the local [scraper] of the [executeScraper] call under
      way, null or the object it refers to. *)
Record World : Type := mkWorld
  { table : gmap (string * string) Listing;
    now : Z;
    script : list Tick;
    log : list Event;
    env : gmap string string;
    parameter : option AppConfig;
    secret : option (gmap string string);
    pages : string -> list Card;
    configService : ConfigService;
    scraper : option FacebookMarketplaceScraper }.

(** Field updates. *)
Definition with_table (f : gmap (string * string) Listing -> gmap (string * string) Listing)
    (w : World) : World :=
  mkWorld (f (table w)) (now w) (script w) (log w) (env w) (parameter w)
          (secret w) (pages w) (configService w) (scraper w).

Definition with_now (n : Z) (w : World) : World :=
  mkWorld (table w) n (script w) (log w) (env w) (parameter w)
          (secret w) (pages w) (configService w) (scraper w).

Definition with_script (s : list Tick) (w : World) : World :=
  mkWorld (table w) (now w) s (log w) (env w) (parameter w)
          (secret w) (pages w) (configService w) (scraper w).

Definition with_log (l : list Event) (w : World) : World :=
  mkWorld (table w) (now w) (script w) l (env w) (parameter w)
          (secret w) (pages w) (configService w) (scraper w).

Definition with_configService (c : ConfigService) (w : World) : World :=
  mkWorld (table w) (now w) (script w) (log w) (env w) (parameter w)
          (secret w) (pages w) c (scraper w).

Definition with_scraper (s : option FacebookMarketplaceScraper) (w : World) : World :=
  mkWorld (table w) (now w) (script w) (log w) (env w) (parameter w)
          (secret w) (pages w) (configService w) s.

(** ** Computations *)

Inductive outcome (A : Type) : Type :=
  | Return (a : A)
  | Raise (e : exn).
Arguments Return {A} a.
Arguments Raise {A} e.

Definition M (A : Type) : Type := World -> outcome A * World.

Definition ret {A} (a : A) : M A := fun w => (Return a, w).

Definition throw {A} (e : exn) : M A := fun w => (Raise e, w).

Definition bind {A B} (m : M A) (k : A -> M B) : M B := fun w =>
  match m w with
  | (Return a, w') => k a w'
  | (Raise e, w') => (Raise e, w')
  end.

Declare Scope js_scope.
Delimit Scope js_scope with js.
Notation "'let*' x ':=' m 'in' k" := (bind m (fun x => k))
  (at level 10, x name, m at level 100, k at level 200) : js_scope.
Notation "'let*' ' p ':=' m 'in' k" := (bind m (fun p => k))
  (at level 10, p pattern, m at level 100, k at level 200) : js_scope.
Notation "m ;> k" := (bind m (fun _ => k))
  (at level 100, k at level 200, right associativity) : js_scope.
Local Open Scope js_scope.

(** [try { m } catch (e) { h e }]. *)
Definition try_catch {A} (m : M A) (h : exn -> M A) : M A := fun w =>
  match m w with
  | (Return a, w') => (Return a, w')
  | (Raise e, w') => h e w'
  end.

(** [try { m } finally { f }]: [f] runs on both exits, and an
    exception leaving [f] replaces the outcome of [m]. *)
Definition finally {A} (m : M A) (f : M unit) : M A := fun w =>
  match m w with
  | (r, w') =>
      match f w' with
      | (Return _, w'') => (r, w'')
      | (Raise e, w'') => (Raise e, w'')
      end
  end.

(** What [Promise.allSettled] records for one promise. *)
Definition settle {A} (m : M A) : M (outcome A) := fun w =>
  match m w with
  | (r, w') => (Return r, w')
  end.

(** [Promise.allSettled] over promises started in list order. *)
Fixpoint allSettled {A} (ms : list (M A)) : M (list (outcome A)) :=
  match ms with
  | [] => ret []
  | m :: rest =>
      let* r := settle m in
      let* rs := allSettled rest in
      ret (r :: rs)
  end.

Definition get_world : M World := fun w => (Return w, w).

(** [Date.now()]. *)
Definition date_now : M Z := fun w => (Return (now w), w).

Definition emit (e : Event) : M unit := fun w =>
  (Return tt, with_log (log w ++ [e])%list w).

(** [console.error(line, ...)]. *)
Definition console_error (line : string) : M unit := emit (ConsoleError line).

Definition modify_table
    (f : gmap (string * string) Listing -> gmap (string * string) Listing) : M unit :=
  fun w => (Return tt, with_table f w).

(** The TTL sweeper of the table: it drops the records whose [expiresAt]
    is not in the future. *)
Definition sweep (n : Z) (t : gmap (string * string) Listing)
    : gmap (string * string) Listing :=
  filter (fun kv => n / 1000 < expiresAt kv.2) t.

(** One awaited call to the outside: the next tick of the script decides
    what happens; when the script is exhausted the call is immediate and
    fulfilled. *)
Definition ext (c : Call) : M unit := fun w =>
  match script w with
  | [] => (Return tt, with_log (log w ++ [Ev c true])%list w)
  | t :: rest =>
      let w1 := with_table (if t_sweep t then sweep (now w) else fun m => m) w in
      let w2 := with_now (now w + t_elapsed t) (with_script rest w1) in
      match t_reject t with
      | Some e => (Raise e, with_log (log w ++ [Ev c false])%list w2)
      | None => (Return tt, with_log (log w ++ [Ev c true])%list w2)
      end
  end.

(** [new Promise(resolve => setTimeout(resolve, ms))]: never rejected. *)
Definition sleep (ms : Z) : M unit := fun w =>
  (Return tt, with_now (now w + ms) (with_log (log w ++ [Ev (Sleep ms) true])%list w)).

Definition set_scraper (s : option FacebookMarketplaceScraper) : M unit :=
  fun w => (Return tt, with_scraper s w).

Definition set_configService (c : ConfigService) : M unit :=
  fun w => (Return tt, with_configService c w).

(** ** Strings *)

(** [s.includes(pat)]. *)
Definition includes (pat s : string) : bool :=
  match String.index 0 pat s with
  | Some _ => true
  | None => false
  end.

(** [s.replace(pat, rep)] for a string pattern: the first occurrence only. *)
Definition replace (pat rep s : string) : string :=
  match String.index 0 pat s with
  | Some i =>
      substring 0 i s +:+ rep +:+
      substring (i + String.length pat)
                (String.length s - (i + String.length pat)) s
  | None => s
  end.

Definition lower_ascii (c : ascii) : ascii :=
  let n := nat_of_ascii c in
  if ((65 <=? n) && (n <=? 90))%nat then ascii_of_nat (n + 32) else c.

(** [s.toLowerCase()] on ASCII text: the letters A to Z are lowered and
    every other byte is kept, also those of letters beyond ASCII that
    JavaScript would lower. *)
Fixpoint toLowerCase (s : string) : string :=
  match s with
  | EmptyString => EmptyString
  | String c rest => String (lower_ascii c) (toLowerCase rest)
  end.

(** A value used as a condition: a missing or empty string is falsy. *)
Definition truthy (s : option string) : bool :=
  match s with
  | Some s => negb (String.eqb s "")
  | None => false
  end.

(** ** ConfigService (services/config.ts) *)

Definition CACHE_TTL : Z := 5 * 60 * 1000.

(** [getConfig] past the cache test: the parameter is fetched. *)
Definition fetchConfig (self : ConfigService) : M (AppConfig * ConfigService) :=
  try_catch
    (let* w := get_world in
     if negb (truthy (env w !! "CONFIG_PARAMETER")) then
       throw (Error "CONFIG_PARAMETER environment variable not set")
     else
       ext GetParameter ;>
       let* w := get_world in
       match parameter w with
       | None => throw (Error "Configuration parameter not found or empty")
       | Some c =>
           let* n := date_now in
           ret (c, mkConfigService (Some c) (secretsCache self) (n + CACHE_TTL))
       end)
    (fun e => console_error "Failed to load configuration:" ;> throw e).

(** [getConfig] on the object [self]; the value comes with the object as
    the call leaves it. *)
Definition getConfig_of (self : ConfigService) : M (AppConfig * ConfigService) :=
  let* n := date_now in
  match configCache self with
  | Some c => if n <? cacheExpiry self then ret (c, self) else fetchConfig self
  | None => fetchConfig self
  end.

(** [getSecrets] past the cache test. *)
Definition fetchSecrets (self : ConfigService)
    : M (gmap string string * ConfigService) :=
  try_catch
    (let* w := get_world in
     if negb (truthy (env w !! "SECRETS_NAME")) then
       throw (Error "SECRETS_NAME environment variable not set")
     else
       ext GetSecretValue ;>
       let* w := get_world in
       match secret w with
       | None => throw (Error "Secrets not found or empty")
       | Some s =>
           let* n := date_now in
           ret (s, mkConfigService (configCache self) (Some s) (n + CACHE_TTL))
       end)
    (fun e => console_error "Failed to load secrets:" ;> throw e).

Definition getSecrets_of (self : ConfigService)
    : M (gmap string string * ConfigService) :=
  let* n := date_now in
  match secretsCache self with
  | Some s => if n <? cacheExpiry self then ret (s, self) else fetchSecrets self
  | None => fetchSecrets self
  end.

Definition getEnabledScrapers_of (self : ConfigService)
    : M (list ScraperConfig * ConfigService) :=
  let* '(config, self') := getConfig_of self in
  ret (List.filter (fun scraper => enabled scraper) (scrapers config), self').

(** The methods on the [configService] field of the [ScraperService]. *)
Definition getConfig : M AppConfig :=
  let* w := get_world in
  let* '(c, self') := getConfig_of (configService w) in
  set_configService self' ;> ret c.

Definition getSecrets : M (gmap string string) :=
  let* w := get_world in
  let* '(s, self') := getSecrets_of (configService w) in
  set_configService self' ;> ret s.

(** ** DatabaseService (services/database.ts) *)

Definition LISTING_TTL : Z := 30 * 24 * 60 * 60.

Definition with_expiresAt (e : Z) (l : Listing) : Listing :=
  mkListing (scraperId l) (listingId l) (title l) (price l) (previousPrice l)
            (l_location l) (url l) (imageUrl l) (firstSeen l) (lastSeen l) e.

(** The UpdateExpression of [updateListingPrice] applied to the item under
    the key.  UpdateItem creates the item when the key is free; the
    attributes such an item does not carry read as empty. *)
Definition update_item (sid lid : string) (newPrice prevPrice seen expires : Z)
    (old : option Listing) : Listing :=
  match old with
  | Some l =>
      mkListing (scraperId l) (listingId l) (title l) newPrice (Some prevPrice)
                (l_location l) (url l) (imageUrl l) (firstSeen l) seen expires
  | None =>
      mkListing sid lid "" newPrice (Some prevPrice) "" "" None 0 seen expires
  end.

Definition getListing (sid lid : string) : M (option Listing) :=
  try_catch
    (ext (DbGet sid lid) ;>
     let* w := get_world in
     ret (table w !! (sid, lid)))
    (fun e => console_error ("Failed to get listing " +:+ lid +:+ " for scraper "
                             +:+ sid +:+ ":") ;> throw e).

Definition saveListing (listing : Listing) : M unit :=
  try_catch
    (let* n := date_now in
     let item := with_expiresAt (n / 1000 + LISTING_TTL) listing in
     ext (DbPut (scraperId listing) (listingId listing)) ;>
     modify_table (insert (scraperId listing, listingId listing) item))
    (fun e => console_error ("Failed to save listing " +:+ listingId listing +:+ ":")
              ;> throw e).

Definition updateListingPrice (sid lid : string) (newPrice seen : Z)
    : M (option Listing) :=
  try_catch
    (let* currentListing := getListing sid lid in
     match currentListing with
     | None => ret None
     | Some cur =>
         let* n := date_now in
         ext (DbUpdate sid lid) ;>
         let* w := get_world in
         let item := update_item sid lid newPrice (price cur) seen
                                 (n / 1000 + LISTING_TTL) (table w !! (sid, lid)) in
         modify_table (insert (sid, lid) item) ;>
         ret (Some item)
     end)
    (fun e => console_error ("Failed to update listing price for " +:+ lid +:+ ":")
              ;> throw e).

(** ** FacebookMarketplaceScraper (services/scrapers/facebook.ts) *)

(** [this.browser] of the scraper object in use. *)
Definition this_browser : M bool := fun w =>
  (Return (match scraper w with Some fb => browser fb | None => false end), w).

Definition initialize : M unit :=
  ext Launch ;> set_scraper (Some (mkFb true)).

Definition cleanup : M unit :=
  let* held := this_browser in
  if held then ext BrowserClose ;> set_scraper (Some (mkFb false))
  else ret tt.

Definition passesFilters (title : string) (price : Z) (config : ScraperConfig) : bool :=
  let titleLower := toLowerCase title in
  if match priceMin config with Some m => price <? m | None => false end then false
  else if match priceMax config with Some m => m <? price | None => false end then false
  else if match includeKeywords config with
          | Some (k :: ks) =>
              negb (existsb (fun keyword => includes (toLowerCase keyword) titleLower)
                            (k :: ks))
          | _ => false
          end then false
  else if match excludeKeywords config with
          | Some (k :: ks) =>
              existsb (fun keyword => includes (toLowerCase keyword) titleLower)
                      (k :: ks)
          | _ => false
          end then false
  else true.

(** The listing [scrape] makes of a card; [firstSeen] and [lastSeen] are
    two [new Date()] in a row, read here as the one instant [n]. *)
Definition listing_of_card (config : ScraperConfig) (n : Z) (c : Card) : Listing :=
  mkListing (id config) (c_listingId c) (c_title c) (c_price c) None
            (location config) (c_url c) (c_imageUrl c) n n 0.

(** [scrape]: the navigation, scrolling and extraction on the page are one
    outside call, [LoadPage]; the cards it yields are then filtered. *)
Definition scrape (config : ScraperConfig) (cookies : option string)
    : M (list Listing) :=
  (let* held := this_browser in
   if held then ret tt else initialize) ;>
  ext NewPage ;>
  finally
    (try_catch
       (ext (LoadPage (id config)) ;>
        let* w := get_world in
        let cards := List.filter (fun c => passesFilters (c_title c) (c_price c) config)
                                 (pages w (id config)) in
        ret (map (listing_of_card config (now w)) cards))
       (fun e => console_error ("Error scraping Facebook Marketplace for "
                                +:+ id config +:+ ":") ;> throw e))
    (ext PageClose).

(** ** NotificationService (services/notification.ts) *)

(** The names of the members of [Object.prototype]. *)
Definition Object_prototype : list string :=
  ["constructor"; "__defineGetter__"; "__defineSetter__"; "hasOwnProperty";
   "__lookupGetter__"; "__lookupSetter__"; "isPrototypeOf";
   "propertyIsEnumerable"; "toString"; "valueOf"; "__proto__"; "toLocaleString"].

Definition inherited (name : string) : bool :=
  existsb (String.eqb name) Object_prototype.

(** [secrets[key]]: the entry of the bundle, or else what the prototype
    chain has under this name; [None] stands for [undefined]. *)
Definition get_property (secrets : gmap string string) (key : string)
    : option JsValue :=
  match secrets !! key with
  | Some v => Some (JsString v)
  | None => if inherited key then Some (Inherited key) else None
  end.

Definition getSecretValue (secrets : gmap string string) (key : string) : JsValue :=
  if includes "-from-secrets" key then
    let secretKey := replace "-from-secrets" "" key in
    match get_property secrets secretKey with
    | Some (JsString v) => if String.eqb v "" then JsString "" else JsString v
    | Some (Inherited member) => Inherited member
    | None => JsString ""
    end
  else JsString key.

(** Reading a field of a channel block the configuration does not have. *)
Definition TypeError : exn :=
  Error "Cannot read properties of undefined".

Definition sendSlackNotification (secrets : gmap string string)
    (payload : NotificationPayload) : M unit :=
  try_catch
    (match slack (notifications (p_scraper payload)) with
     | Some c =>
         let webhookUrl := getSecretValue secrets (webhook c) in
         ext (Post (Slack webhookUrl))
     | None => throw TypeError
     end)
    (fun e => console_error "Failed to send Slack notification:" ;> throw e).

Definition sendTelegramNotification (secrets : gmap string string)
    (payload : NotificationPayload) : M unit :=
  try_catch
    (match telegram (notifications (p_scraper payload)) with
     | Some c =>
         let botToken := getSecretValue secrets (botToken c) in
         let chatId := getSecretValue secrets (chatId c) in
         ext (Post (Telegram botToken chatId))
     | None => throw TypeError
     end)
    (fun e => console_error "Failed to send Telegram notification:" ;> throw e).

Definition sendPushoverNotification (secrets : gmap string string)
    (payload : NotificationPayload) : M unit :=
  try_catch
    (match pushover (notifications (p_scraper payload)) with
     | Some c =>
         let userKey := getSecretValue secrets (userKey c) in
         let appToken := getSecretValue secrets (appToken c) in
         ext (Post (Pushover appToken userKey))
     | None => throw TypeError
     end)
    (fun e => console_error "Failed to send Pushover notification:" ;> throw e).

(** [scraper.notifications.slack?.enabled] and its siblings. *)
Definition slack_on (c : ScraperConfig) : bool :=
  match slack (notifications c) with Some s => slack_enabled s | None => false end.

Definition telegram_on (c : ScraperConfig) : bool :=
  match telegram (notifications c) with Some s => telegram_enabled s | None => false end.

Definition pushover_on (c : ScraperConfig) : bool :=
  match pushover (notifications c) with Some s => pushover_enabled s | None => false end.

(** The [results.forEach] of [sendNotifications]: one console line per
    rejected promise, with its index. *)
Fixpoint report_rejected {A} (index : nat) (results : list (outcome A)) : M unit :=
  match results with
  | [] => ret tt
  | Return _ :: rest => report_rejected (S index) rest
  | Raise _ :: rest =>
      console_error ("Notification " +:+ pretty index +:+ " failed:") ;>
      report_rejected (S index) rest
  end.

Definition sendNotifications (secrets : gmap string string)
    (payload : NotificationPayload) : M unit :=
  let scraper := p_scraper payload in
  let promises :=
    ((if slack_on scraper then [sendSlackNotification secrets payload] else []) ++
     (if telegram_on scraper then [sendTelegramNotification secrets payload] else []) ++
     (if pushover_on scraper then [sendPushoverNotification secrets payload] else []))%list in
  let* results := allSettled promises in
  report_rejected 0 results.

(** ** ScraperService (services/scraper.ts) *)

(** One turn of the [for] loop of [processListings]; [acc] holds
    [newListings] and [priceDrops] as they stand. *)
Definition processListing (config : ScraperConfig)
    (acc : list Listing * list Listing) (listing : Listing)
    : M (list Listing * list Listing) :=
  try_catch
    (let* existingListing := getListing (scraperId listing) (listingId listing) in
     match existingListing with
     | None =>
         saveListing listing ;>
         ret ((acc.1 ++ [listing])%list, acc.2)
     | Some existing =>
         if negb (price listing =? price existing) then
           let priceDropPercentage :=
             js_div (price existing - price listing) (price existing) in
           let* updatedListing :=
             updateListingPrice (scraperId listing) (listingId listing)
                                (price listing) (lastSeen listing) in
           match updatedListing with
           | Some updated =>
               if js_ge priceDropPercentage (priceDropThreshold config)
               then ret (acc.1, (acc.2 ++ [updated])%list)
               else ret acc
           | None => ret acc
           end
         else
           updateListingPrice (scraperId listing) (listingId listing)
                              (price listing) (lastSeen listing) ;>
           ret acc
     end)
    (fun e => console_error ("Error processing listing " +:+ listingId listing +:+ ":")
              ;> ret acc).

Fixpoint processListings_from (config : ScraperConfig)
    (acc : list Listing * list Listing) (scrapedListings : list Listing)
    : M (list Listing * list Listing) :=
  match scrapedListings with
  | [] => ret acc
  | listing :: rest =>
      let* acc' := processListing config acc listing in
      processListings_from config acc' rest
  end.

Definition processListings (scrapedListings : list Listing) (config : ScraperConfig)
    : M (list Listing * list Listing) :=
  processListings_from config ([], []) scrapedListings.

(** The percentage a price-drop payload carries. *)
Definition drop_percentage (listing : Listing) : number :=
  match previousPrice listing with
  | Some p =>
      if p =? 0 then js_of_Z 0
      else js_times100 (js_div (p - price listing) p)
  | None => js_of_Z 0
  end.

Definition new_listing_payload (config : ScraperConfig) (listing : Listing)
    : NotificationPayload :=
  mkPayload new_listing listing config None.

Definition price_drop_payload (config : ScraperConfig) (listing : Listing)
    : NotificationPayload :=
  mkPayload price_drop listing config (Some (drop_percentage listing)).

Definition ScraperService_sendNotifications
    (newListings priceDrops : list Listing) (config : ScraperConfig)
    (secrets : gmap string string) : M unit :=
  let notifications :=
    (map (fun l => sendNotifications secrets (new_listing_payload config l)) newListings ++
     map (fun l => sendNotifications secrets (price_drop_payload config l)) priceDrops)%list in
  allSettled notifications ;> ret tt.

(** [error instanceof Error ? error.message : 'Unknown error']. *)
Definition error_message (e : exn) : string :=
  match e with
  | Error m => m
  | Thrown => "Unknown error"
  end.

(** [executeScraper], block by block.  The [try] block from the fetch of
    the secrets on: *)
Definition executeScraper_collect (scraperId : string) (startTime : Z)
    (scraperConfig : ScraperConfig) : M ScrapingResult :=
  let* secrets := getSecrets in
  let cookies := secrets !! "facebook-cookies" in
  let* scrapedListings := scrape scraperConfig cookies in
  let* '(newListings, priceDrops) :=
    processListings scrapedListings scraperConfig in
  (if (0 <? length newListings)%nat || (0 <? length priceDrops)%nat then
     ScraperService_sendNotifications newListings priceDrops
                                      scraperConfig secrets
   else ret tt) ;>
  let* t := date_now in
  ret (mkScrapingResult scraperId true None newListings priceDrops
                        (length scrapedListings) (t - startTime)).

(** The whole [try] block: *)
Definition executeScraper_try (scraperId : string) (startTime : Z)
    : M ScrapingResult :=
  let* config := getConfig in
  match List.find (fun s => String.eqb (id s) scraperId) (scrapers config) with
  | None =>
      throw (Error ("Scraper configuration not found for ID: " +:+ scraperId))
  | Some scraperConfig =>
      if negb (enabled scraperConfig) then
        let* t := date_now in
        ret (mkScrapingResult scraperId true None [] [] 0 (t - startTime))
      else
        match marketplace scraperConfig with
        | facebook => set_scraper (Some (mkFb false)) ;> initialize
        | other =>
            throw (Error ("Unsupported marketplace: " +:+ marketplace_name other))
        end ;>
        executeScraper_collect scraperId startTime scraperConfig
  end.

(** The [catch] clause: *)
Definition executeScraper_catch (scraperId : string) (startTime : Z) (e : exn)
    : M ScrapingResult :=
  console_error ("Scraper " +:+ scraperId +:+ " failed:") ;>
  let* t := date_now in
  ret (mkScrapingResult scraperId false (Some (error_message e)) [] [] 0
                        (t - startTime)).

(** The [finally] clause: *)
Definition executeScraper_finally : M unit :=
  let* w := get_world in
  match scraper w with
  | Some _ => cleanup
  | None => ret tt
  end.

Definition executeScraper (scraperId : string) : M ScrapingResult :=
  let* startTime := date_now in
  set_scraper None ;>
  finally
    (try_catch (executeScraper_try scraperId startTime)
               (executeScraper_catch scraperId startTime))
    executeScraper_finally.

(** ** The scheduler (handlers/scheduler.ts) *)

(** [result.reason?.message || 'Unknown error']. *)
Definition reason_message (reason : exn) : string :=
  match reason with
  | Error m => if String.eqb m "" then "Unknown error" else m
  | Thrown => "Unknown error"
  end.

(** The [batchResults.forEach]: a fulfilled promise gives its value, a
    rejected one a failed result made up on the spot. *)
Fixpoint collect (batch : list ScraperConfig) (batchResults : list (outcome ScrapingResult))
    : list ScrapingResult :=
  match batch, batchResults with
  | s :: batch', Return value :: rest => value :: collect batch' rest
  | s :: batch', Raise reason :: rest =>
      mkScrapingResult (id s) false (Some (reason_message reason)) [] [] 0 0
      :: collect batch' rest
  | _, _ => []
  end.

(** The [console.error] of the [batchResults.forEach]: one line for each
    rejected promise, in the order of the batch. *)
Fixpoint report_failed (batch : list ScraperConfig)
    (batchResults : list (outcome ScrapingResult)) : M unit :=
  match batch, batchResults with
  | s :: batch', Return _ :: rest => report_failed batch' rest
  | s :: batch', Raise _ :: rest =>
      console_error ("Scraper " +:+ id s +:+ " failed:") ;>
      report_failed batch' rest
  | _, _ => ret tt
  end.

(** [l.slice(i, j)] for [0 <= i <= j]. *)
Definition slice {A} (i j : nat) (l : list A) : list A :=
  take (j - i) (drop i l).

(** The [for (let i = 0; i < enabledScrapers.length; i += maxConcurrent)]
    loop from index [i] on.  [fuel] bounds the number of turns; [None]
    stands for a loop that has not ended within it. *)
Fixpoint run_batches (fuel : nat) (maxConcurrent : nat)
    (enabledScrapers : list ScraperConfig) (i : nat) (results : list ScrapingResult)
    : M (option (list ScrapingResult)) :=
  match fuel with
  | O => ret None
  | S fuel' =>
      if (i <? length enabledScrapers)%nat then
        let batch := slice i (i + maxConcurrent) enabledScrapers in
        emit (Batch (i / maxConcurrent + 1) (map id batch)) ;>
        let* batchResults :=
          allSettled (map (fun scraper => executeScraper (id scraper)) batch) in
        report_failed batch batchResults ;>
        let results' := (results ++ collect batch batchResults)%list in
        (if (i + maxConcurrent <? length enabledScrapers)%nat
         then sleep 2000 else ret tt) ;>
        run_batches fuel' maxConcurrent enabledScrapers (i + maxConcurrent) results'
      else ret (Some results)
  end.

(** The scheduler handler, with the [results] array as its value ([[]] on
    the early exit).  [maxConcurrent] is what [parseInt] made of
    MAX_CONCURRENT_SCRAPERS. *)
Definition handler (fuel : nat) (maxConcurrent : nat)
    : M (option (list ScrapingResult)) :=
  try_catch
    (let* '(enabledScrapers, _) :=
       getEnabledScrapers_of (mkConfigService None None 0) in
     if (length enabledScrapers =? 0)%nat then ret (Some [])
     else run_batches fuel maxConcurrent enabledScrapers 0 [])
    (fun e => console_error "Scheduler failed:" ;> throw e).

(** The figures of the scheduler's summary. *)
Record Summary : Type := mkSummary
  { total : nat;
    successful : nat;
    failed : nat;
    totalFound_sum : nat;
    totalNew : nat;
    totalDrops : nat }.

Definition summarize (enabledScrapers : nat) (results : list ScrapingResult) : Summary :=
  let successCount := length (List.filter success results) in
  mkSummary enabledScrapers successCount (enabledScrapers - successCount)
            (list_sum (map totalFound results))
            (list_sum (map (fun r => length (newListings r)) results))
            (list_sum (map (fun r => length (priceDrops r)) results)).

(** ** A world to run examples in *)

Definition no_pages : string -> list Card := fun _ => [].

Definition quiet_world (t : gmap (string * string) Listing) (cfg : AppConfig) : World :=
  mkWorld t 1700000000000 [] []
          (<["CONFIG_PARAMETER" := "/peddler/config"]>
             (<["SECRETS_NAME" := "peddler/secrets"]> ∅))
          (Some cfg) (Some ∅) no_pages (mkConfigService None None 0) None.

Definition sample_config (on : bool) (m : Marketplace) : ScraperConfig :=
  mkScraperConfig "bikes" "Bikes" on m "bike" "Austin" 25 None None None None 3
                  (js_div 1 10) (mkNotificationConfig None None None).

(** ** Vocabulary of the statements *)

(** [respects P T m]: run from a world whose scraper slot satisfies [P], the
    computation [m] leaves a slot that satisfies [P], only appends to the
    log, and the stretch it appends satisfies [T]. *)
Definition respects (P : option FacebookMarketplaceScraper -> Prop)
    (T : list Event -> Prop) {A} (m : M A) : Prop :=
  forall w, P (scraper w) ->
    P (scraper (m w).2) /\
    exists evs, log (m w).2 = (log w ++ evs)%list /\ T evs.

(** Properties of stretches of the log that hold of the empty stretch and
    of two stretches put end to end. *)
Class Closed (T : list Event -> Prop) : Prop :=
  { closed_nil : T [];
    closed_app : forall a b, T a -> T b -> T (a ++ b)%list }.

(** Every occurrence of [acq] in the stretch is followed, later in the
    stretch, by an event in [rel]. *)
Definition balanced (acq : Event) (rel : Event -> Prop) (evs : list Event) : Prop :=
  forall pre post, evs = (pre ++ acq :: post)%list -> exists e, In e post /\ rel e.

Definition closes_browser (e : Event) : Prop := exists b, e = Ev BrowserClose b.

Definition closes_page (e : Event) : Prop := exists b, e = Ev PageClose b.

(** A browser that was launched is asked to close later on. *)
Definition browser_released : list Event -> Prop :=
  balanced (Ev Launch true) closes_browser.

(** A page that was opened is asked to close later on. *)
Definition page_released : list Event -> Prop :=
  balanced (Ev NewPage true) closes_page.

(** The calls the services make freely: all but those on the browser and
    its pages and the scheduler's pause. *)
Definition plain (c : Call) : bool :=
  match c with
  | Launch | BrowserClose | NewPage | PageClose | Sleep _ => false
  | _ => true
  end.

(** The outside calls recorded in a stretch of the log, in order. *)
Definition calls_of (evs : list Event) : list Call :=
  omap (fun e => match e with Ev c _ => Some c | _ => None end) evs.

(** The channels a watcher has switched on, with the credentials the
    service resolves for them, in the order the service visits them. *)
Definition enabled_channels (secrets : gmap string string) (c : ScraperConfig)
    : list Channel :=
  (match slack (notifications c) with
   | Some s =>
       if slack_enabled s then [Slack (getSecretValue secrets (webhook s))] else []
   | None => []
   end ++
   match telegram (notifications c) with
   | Some s =>
       if telegram_enabled s
       then [Telegram (getSecretValue secrets (botToken s))
                      (getSecretValue secrets (chatId s))]
       else []
   | None => []
   end ++
   match pushover (notifications c) with
   | Some s =>
       if pushover_enabled s
       then [Pushover (getSecretValue secrets (appToken s))
                      (getSecretValue secrets (userKey s))]
       else []
   | None => []
   end)%list.

(** One delivery as every channel method performs it: the request, and on
    rejection a console line before the rejection is passed on. *)
Definition attempt (cl : Call * string) : M unit :=
  try_catch (ext cl.1) (fun e => console_error cl.2 ;> throw e).

(** The console line a channel method writes when its request is
    rejected. *)
Definition failure_line (ch : Channel) : string :=
  match ch with
  | Slack _ => "Failed to send Slack notification:"
  | Telegram _ _ => "Failed to send Telegram notification:"
  | Pushover _ _ => "Failed to send Pushover notification:"
  end.

(** The deliveries [sendNotifications] starts, with the console line each
    one writes when it is rejected. *)
Definition channel_attempts (secrets : gmap string string) (c : ScraperConfig)
    : list (Call * string) :=
  map (fun ch => (Post ch, failure_line ch)) (enabled_channels secrets c).

(** The outside calls of a stretch of the log, each with what became of
    it: [true] when it was fulfilled, [false] when it was rejected. *)
Definition deliveries (evs : list Event) : list (Call * bool) :=
  omap (fun e => match e with Ev c b => Some (c, b) | _ => None end) evs.

(** The console lines of a stretch of the log. *)
Definition console_lines (evs : list Event) : list string :=
  omap (fun e => match e with ConsoleError line => Some line | _ => None end) evs.

(** Whether the outside fulfils the call that consumes the tick. *)
Definition fulfils (t : Tick) : bool :=
  match t_reject t with
  | None => true
  | Some _ => false
  end.

(** What the outside answers to the next [n] calls: the ticks of the
    script, one for each call, and a fulfilment once the script is
    exhausted. *)
Fixpoint answers (n : nat) (script : list Tick) : list bool :=
  match n with
  | O => []
  | S n' =>
      match script with
      | [] => true :: answers n' []
      | t :: rest => fulfils t :: answers n' rest
      end
  end.

Definition is_fulfilled {A} (r : outcome A) : bool :=
  match r with
  | Return _ => true
  | Raise _ => false
  end.

(** The console lines of the deliveries themselves, in the order of the
    channels. *)
Fixpoint own_lines (cls : list (Call * string)) (flags : list bool) : list string :=
  match cls, flags with
  | cl :: cls', ok :: flags' => (if ok then [] else [cl.2]) ++ own_lines cls' flags'
  | _, _ => []
  end.

(** The console lines of the [results.forEach], from [index] on. *)
Fixpoint index_lines (index : nat) (flags : list bool) : list string :=
  match flags with
  | [] => []
  | ok :: flags' =>
      (if ok then [] else ["Notification " +:+ pretty index +:+ " failed:"])
      ++ index_lines (S index) flags'
  end.

(** The console lines a dispatch owes: for each channel whose delivery was
    rejected, and for no other, the line of its method and the line of the
    [results.forEach] that bears its index. *)
Fixpoint failure_lines (index : nat) (channels : list Channel) (flags : list bool)
    : list string :=
  match channels, flags with
  | ch :: channels', ok :: flags' =>
      (if ok then []
       else [failure_line ch; "Notification " +:+ pretty index +:+ " failed:"])
      ++ failure_lines (S index) channels' flags'
  | _, _ => []
  end.




Definition mockSecrets : gmap string string :=
  <["facebook-cookies" := ""]>
    (<["slack-webhook-url" := "https://hooks.slack.com/test"]>
       (<["telegram-bot-token" := "test-token"]>
          (<["telegram-chat-id" := "test-chat"]>
             (<["pushover-user-key" := "test-key"]>
                (<["pushover-app-token" := "test-token"]> ∅))))).

(** The events reading the configuration may leave in the log. *)
Definition config_event (e : Event) : Prop :=
  match e with
  | Ev GetParameter _ | ConsoleError _ => True
  | _ => False
  end.

Definition lookup_scraper (scraperId : string) (config : AppConfig)
    : option ScraperConfig :=
  List.find (fun s => String.eqb (id s) scraperId) (scrapers config).

(** A world in which the outside behaves: no call is rejected and the
    sweeper stays away.  (Calls may still take any time.) *)
Definition calm (w : World) : Prop :=
  Forall (fun t => t_reject t = None /\ t_sweep t = false) (script w).




Definition key_of (l : Listing) : string * string :=
  (scraperId l, listingId l).

(** A stored bike at 5000 and the watcher that follows it with a 10%
    threshold. *)
Definition stored_bike : Listing :=
  mkListing "bikes" "1001" "Road bike" 5000 None "Austin"
            "https://www.facebook.com/marketplace/item/1001" None
            1690000000000 1690000000000 1692592000.

Definition bike_world : World :=
  quiet_world (<[("bikes", "1001") := stored_bike]> ∅)
              (mkAppConfig [sample_config true facebook]).

(** The scraper object holds a browser. *)
Definition held (s : option FacebookMarketplaceScraper) : Prop :=
  s = Some (mkFb true).

(** No event of the stretch is a successful launch. *)
Definition launch_free : list Event -> Prop :=
  Forall (fun e => e <> Ev Launch true).

(** What holds of the scraper slot and of the stretch logged so far at
    every exit of the [try] and [catch] blocks of [executeScraper]: a
    browser is in hand, or none was launched. *)
Definition session (s : option FacebookMarketplaceScraper) (evs : list Event) : Prop :=
  held s \/ (~ held s /\ launch_free evs).

(** [returns Phi m]: every value [m] returns satisfies [Phi]. *)
Definition returns {A} (Phi : A -> Prop) (m : M A) : Prop :=
  forall w a w', m w = (Return a, w') -> Phi a.

(** A result that reports a failure in full. *)
Definition failed_result (scraperId : string) (r : ScrapingResult) : Prop :=
  r_scraperId r = scraperId /\ success r = false /\
  (exists message, error r = Some message) /\
  newListings r = [] /\ priceDrops r = [] /\ totalFound r = 0%nat.

(** A world in which everything goes well until the browser is closed. *)
Definition close_rejecting_world : World :=
  mkWorld ∅ 1700000000000
          [mkTick 10 None false; mkTick 900 None false; mkTick 10 None false;
           mkTick 40 None false; mkTick 3000 None false; mkTick 5 None false;
           mkTick 30000 (Some (Error "browser.close: Timeout 30000ms exceeded")) false]
          []
          (<["CONFIG_PARAMETER" := "/peddler/config"]>
             (<["SECRETS_NAME" := "peddler/secrets"]> ∅))
          (Some (mkAppConfig [sample_config true facebook])) (Some ∅)
          no_pages (mkConfigService None None 0) None.

(** The marks the scheduler itself leaves in the log: the start of a
    batch and the pause between two batches. *)
Definition is_sched (e : Event) : bool :=
  match e with
  | Batch _ _ => true
  | Ev (Sleep _) _ => true
  | _ => false
  end.

Definition sched_view (evs : list Event) : list Event :=
  List.filter is_sched evs.

Definition is_cooldown (e : Event) : bool :=
  match e with
  | Ev (Sleep _) _ => true
  | _ => false
  end.

Definition cooldowns (evs : list Event) : nat :=
  length (List.filter is_cooldown evs).

(** The marks of a run over the waves [waves], the first of them bearing
    the number [n]: each wave is announced, and a pause of two seconds
    stands between two waves. *)
Fixpoint schedule (n : nat) (waves : list (list ScraperConfig)) : list Event :=
  match waves with
  | [] => []
  | b :: rest =>
      Batch n (map id b) ::
      match rest with
      | [] => []
      | _ :: _ => Ev (Sleep 2000) true :: schedule (S n) rest
      end
  end.

(** [l] cut into consecutive pieces of [k] elements, the last one possibly
    shorter. *)
Fixpoint chunks {A} (fuel k : nat) (l : list A) : list (list A) :=
  match fuel with
  | O => []
  | S fuel' =>
      match l with
      | [] => []
      | _ :: _ => take k l :: chunks fuel' k (drop k l)
      end
  end.

Definition ceil_div (n k : nat) : nat := ((n + k - 1) / k)%nat.

(** The scheduler as the specification words it, over the waves the
    watchers are cut into, the first of them bearing the number [n]: each
    wave is announced and all its watchers are run and awaited before
    anything else is done; what has become of them is collected; and a
    pause of two seconds is taken when another wave follows. *)
Fixpoint run_waves (n : nat) (waves : list (list ScraperConfig))
    (results : list ScrapingResult) : M (list ScrapingResult) :=
  match waves with
  | [] => ret results
  | wave :: rest =>
      emit (Batch n (map id wave)) ;>
      let* settled := allSettled (map (fun s => executeScraper (id s)) wave) in
      report_failed wave settled ;>
      match rest with
      | [] => ret tt
      | _ :: _ => sleep 2000
      end ;>
      run_waves (S n) rest (results ++ collect wave settled)%list
  end.

Definition seven_watchers : list ScraperConfig :=
  map (fun i => mkScraperConfig i ("Watcher " +:+ i) true facebook "bike" "Austin"
                                25 None None None None 3 (js_div 1 10)
                                (mkNotificationConfig None None None))
      ["w1"; "w2"; "w3"; "w4"; "w5"; "w6"; "w7"].

(** The [ConfigService] the scheduler handler makes for itself. *)
Definition fresh_configService : ConfigService := mkConfigService None None 0.

Definition seven_world : World := quiet_world ∅ (mkAppConfig seven_watchers).

(** The bike as the collector reports it at price [p], seen at [seen]. *)
Definition observed_bike (p seen : Z) : Listing :=
  mkListing "bikes" "1001" "Road bike" p None "Austin"
            "https://www.facebook.com/marketplace/item/1001" None seen seen 0.

(** The stored bike with a previous price on record. *)
Definition repriced_bike : Listing :=
  mkListing "bikes" "1001" "Road bike" 5000 (Some 6000) "Austin"
            "https://www.facebook.com/marketplace/item/1001" None
            1690000000000 1695000000000 1697592000.

Definition repriced_world : World :=
  quiet_world (<[("bikes", "1001") := repriced_bike]> ∅)
              (mkAppConfig [sample_config true facebook]).

(** The world of [bike_world] in which the sweeper, the stored record
    being past its expiry, comes by between the first and the second read
    of the table. *)
Definition swept_world : World :=
  mkWorld (<[("bikes", "1001") := stored_bike]> ∅) 1700000000000
          [mkTick 5 None false; mkTick 5 None true]
          []
          (<["CONFIG_PARAMETER" := "/peddler/config"]>
             (<["SECRETS_NAME" := "peddler/secrets"]> ∅))
          (Some (mkAppConfig [sample_config true facebook])) (Some ∅)
          no_pages (mkConfigService None None 0) None.


(** The reading of C7 under test: when [updateListingPrice] comes back
    empty for an item the runner had found, the run leaves an error line. *)
Definition absent_update_is_reported : Prop :=
  forall config listing w existing w1 w2,
    getListing (scraperId listing) (listingId listing) w = (Return (Some existing), w1) ->
    updateListingPrice (scraperId listing) (listingId listing)
                       (price listing) (lastSeen listing) w1 = (Return None, w2) ->
    exists line, In (ConsoleError line) (log (processListings [listing] config w).2).



(** Three watchers with slack and telegram switched on; the page of "A"
    shows one bike, the others show nothing. *)
Definition watcher (i : string) : ScraperConfig :=
  mkScraperConfig i ("Watcher " +:+ i) true facebook "bike" "Austin"
                  25 None None None None 3 (js_div 1 10)
                  (mkNotificationConfig
                     (Some (mkSlack true "slack-webhook-url-from-secrets"))
                     (Some (mkTelegram true "123:abc" "42")) None).

Definition bike_page (i : string) : list Card :=
  if String.eqb i "A"
  then [mkCard "Road bike" 4500 "1001"
               "https://www.facebook.com/marketplace/item/1001" None]
  else [].

Definition three_watchers (script : list Tick) : World :=
  mkWorld ∅ 1700000000000 script []
          (<["CONFIG_PARAMETER" := "/peddler/config"]>
             (<["SECRETS_NAME" := "peddler/secrets"]> ∅))
          (Some (mkAppConfig [watcher "A"; watcher "B"; watcher "C"]))
          (Some mockSecrets) bike_page (mkConfigService None None 0) None.

Definition fulfilled : Tick := mkTick 10 None false.

Definition rejected (message : string) : Tick :=
  mkTick 10 (Some (Error message)) false.

(** A payload for a watcher with all three channels switched on. *)
Definition all_channels : ScraperConfig :=
  mkScraperConfig "bikes" "Bikes" true facebook "bike" "Austin" 25 None None None None 3
                  (js_div 1 10)
                  (mkNotificationConfig
                     (Some (mkSlack true "slack-webhook-url-from-secrets"))
                     (Some (mkTelegram true "telegram-bot-token-from-secrets"
                                       "telegram-chat-id-from-secrets"))
                     (Some (mkPushover true "pushover-user-key-from-secrets"
                                       "pushover-app-token-from-secrets"))).

(** ** FacebookMarketplaceScraper: the cookies (services/scrapers/facebook.ts) *)

(** [s.split(sep)] for a separator of one character. *)
Fixpoint js_split (sep : ascii) (s : string) : list string :=
  match s with
  | EmptyString => [EmptyString]
  | String c rest =>
      if Ascii.eqb c sep then EmptyString :: js_split sep rest
      else
        match js_split sep rest with
        | piece :: pieces => String c piece :: pieces
        | [] => [String c EmptyString]
        end
  end.

(** White space as [trim] sees it, on ASCII text. *)
Definition is_space (c : ascii) : bool :=
  let n := nat_of_ascii c in
  (((9 <=? n) && (n <=? 13)) || (n =? 32))%nat.

Fixpoint trimStart (s : string) : string :=
  match s with
  | EmptyString => EmptyString
  | String c rest => if is_space c then trimStart rest else s
  end.

Fixpoint trimEnd (s : string) : string :=
  match s with
  | EmptyString => EmptyString
  | String c rest =>
      match trimEnd rest with
      | EmptyString => if is_space c then EmptyString else String c EmptyString
      | kept => String c kept
      end
  end.

(** [s.trim()]. *)
Definition trim (s : string) : string := trimEnd (trimStart s).

Record Cookie : Type := mkCookie
  { cookie_name : string;
    cookie_value : string;
    cookie_domain : string;
    cookie_path : string }.

(** The arrow function [parseCookieString] maps over the pieces:
    [nameValue] is the first piece of the cookie cut at its equals signs,
    and [name] and [value] are the first two pieces of [nameValue] cut
    again. *)
Definition parseCookie (cookie : string) : Cookie :=
  let nameValue := hd EmptyString (js_split "="%char (trim cookie)) in
  let pieces := js_split "="%char nameValue in
  let name := hd EmptyString pieces in
  let value := nth_error pieces 1 in
  mkCookie (trim name)
           (match value with
            | Some v => if String.eqb v "" then "" else trim v
            | None => ""
            end)
           ".facebook.com" "/".

Definition parseCookieString (cookieString : string) : list Cookie :=
  List.filter
    (fun cookie => negb (String.eqb (cookie_name cookie) "") &&
                   negb (String.eqb (cookie_value cookie) ""))
    (map parseCookie (js_split ";"%char cookieString)).

(** ** NotificationService: escaping (services/notification.ts) *)

(** [s.replace(/c/g, rep)] for a pattern of one character. *)
Fixpoint replace_all (c : ascii) (rep : string) (s : string) : string :=
  match s with
  | EmptyString => EmptyString
  | String d rest =>
      if Ascii.eqb d c then rep +:+ replace_all c rep rest
      else String d (replace_all c rep rest)
  end.

Definition double_quote : ascii := "034"%char.

Definition escapeHtml (text : string) : string :=
  replace_all "'"%char "&#x27;"
    (replace_all double_quote "&quot;"
       (replace_all ">"%char "&gt;"
          (replace_all "<"%char "&lt;"
             (replace_all "&"%char "&amp;" text)))).

(** ** Helpers (utils/helpers.ts) *)

(** [error instanceof Error ? error : new Error(String(error))]; [text] is
    what [String] makes of a thrown value that is no [Error]. *)
Definition as_Error (text : string) (e : exn) : exn :=
  match e with
  | Error m => Error m
  | Thrown => Error text
  end.

(** The [for (let i = 0; i <= maxRetries; i++)] loop of [retry] from turn
    [i] on, with [remaining = maxRetries - i]. *)
Fixpoint retry_from {T} (text : string) (fn : M T) (delay : Z) (remaining i : nat)
    : M T :=
  try_catch fn
    (fun error =>
       let lastError := as_Error text error in
       match remaining with
       | O => throw lastError
       | S remaining' =>
           sleep (delay * 2 ^ Z.of_nat i) ;>
           retry_from text fn delay remaining' (S i)
       end).

Definition retry {T} (text : string) (fn : M T) (maxRetries : nat) (delay : Z) : M T :=
  retry_from text fn delay maxRetries 0.

(** ** The notifier (handlers/notifier.ts) *)

(** One record of the queue: [JSON.parse] of a body either throws or gives
    the payload the body spells. *)
Definition notifier_record (secrets : gmap string string)
    (record : option NotificationPayload) : M unit :=
  try_catch
    (match record with
     | None => throw (Error "Unexpected token in JSON")
     | Some payload => sendNotifications secrets payload
     end)
    (fun e => console_error "Failed to process notification:" ;>
              console_error "Record body:").

Definition notifier_handler (records : list (option NotificationPayload)) : M unit :=
  try_catch
    (let* '(secrets, _) := getSecrets_of fresh_configService in
     allSettled (map (notifier_record secrets) records) ;>
     ret tt)
    (fun e => console_error "Notifier handler error:" ;> throw e).

(** ** The request handler (handlers/scraper.ts) *)

(** What [JSON.parse(event.body)] and the read of [scraperId] come to: the
    id the body carries, or the error thrown on the way. *)
Inductive RequestBody : Type :=
  | Parsed (scraperId : string)
  | Malformed (message : string).

(** [body] is absent when [event.body] is null or empty. *)
Record APIGatewayProxyEvent : Type := mkEvent
  { body : option RequestBody;
    pathParameters : option string }.

Inductive APIGatewayProxyResult : Type :=
  | Status200 (result : ScrapingResult)
  | Status400 (reason : string)
  | Status500 (message : string).

Definition statusCode (r : APIGatewayProxyResult) : Z :=
  match r with
  | Status200 _ => 200
  | Status400 _ => 400
  | Status500 _ => 500
  end.

(** The id the request names, when it names one. *)
Definition requested (event : APIGatewayProxyEvent) : M (option string) :=
  match body event with
  | Some (Parsed scraperId) => ret (Some scraperId)
  | Some (Malformed message) => throw (Error message)
  | None =>
      if truthy (pathParameters event) then ret (pathParameters event)
      else ret None
  end.

Definition scraper_handler (event : APIGatewayProxyEvent) : M APIGatewayProxyResult :=
  set_configService fresh_configService ;>
  try_catch
    (let* request := requested event in
     match request with
     | None => ret (Status400 "Missing scraperId parameter")
     | Some scraperId =>
         let* result := executeScraper scraperId in
         ret (Status200 result)
     end)
    (fun e => console_error "Scraper handler error:" ;>
              ret (Status500 (error_message e))).

(** ** More vocabulary *)

(** Every record of the table satisfies [R] under its key. *)
Definition table_holds (R : string * string -> Listing -> Prop) (w : World) : Prop :=
  forall k l, table w !! k = Some l -> R k l.

(** [keeps I m]: [m] leaves [I] true when it starts with [I] true. *)
Definition keeps (I : World -> Prop) {A} (m : M A) : Prop :=
  forall w, I w -> I (m w).2.

(** A record sits under its own key. *)
Definition well_keyed : string * string -> Listing -> Prop :=
  fun k l => key_of l = k.

(** No price on record is negative. *)
Definition priced : string * string -> Listing -> Prop :=
  fun _ l => 0 <= price l /\ forall p, previousPrice l = Some p -> 0 <= p.

(** What [scrape] writes into a listing it hands over: the id and the
    location of the watcher, no previous price, and a zero [expiresAt]. *)
Definition scraped_for (config : ScraperConfig) (l : Listing) : Prop :=
  scraperId l = id config /\ l_location l = location config /\
  previousPrice l = None /\ expiresAt l = 0.

(** The price lies within the bounds the watcher sets. *)
Definition within_bounds (config : ScraperConfig) (p : Z) : Prop :=
  (forall m, priceMin config = Some m -> m <= p) /\
  (forall m, priceMax config = Some m -> p <= m).

(** The pauses of a stretch of the log, in order. *)
Definition pauses (evs : list Event) : list Z :=
  omap (fun e => match e with Ev (Sleep ms) _ => Some ms | _ => None end) evs.

(** [delay], [2 * delay], [4 * delay], ...: [n] pauses. *)
Definition backoff (delay : Z) (n : nat) : list Z :=
  map (fun i => delay * 2 ^ Z.of_nat i) (seq 0 n).

(** The posts a payload gives rise to. *)
Definition posts_of (secrets : gmap string string) (payload : NotificationPayload)
    : list Call :=
  map Post (enabled_channels secrets (p_scraper payload)).

(** The entity [escapeHtml] writes for a character, or the character. *)
Definition escape_char (c : ascii) : string :=
  if Ascii.eqb c "&"%char then "&amp;"
  else if Ascii.eqb c "<"%char then "&lt;"
  else if Ascii.eqb c ">"%char then "&gt;"
  else if Ascii.eqb c double_quote then "&quot;"
  else if Ascii.eqb c "'"%char then "&#x27;"
  else String c EmptyString.

Fixpoint escape_each (text : string) : string :=
  match text with
  | EmptyString => EmptyString
  | String c rest => escape_char c +:+ escape_each rest
  end.

(** The characters that open or close markup or an attribute. *)
Definition markup (c : ascii) : bool :=
  Ascii.eqb c "<"%char || Ascii.eqb c ">"%char ||
  Ascii.eqb c double_quote || Ascii.eqb c "'"%char.

(** A record that reports a drop as the runner tests it: it carries a
    previous price [p], other than its price, and [(p - price) / p], as the
    division of doubles gives it, reaches the threshold of the watcher. *)
Definition drop_reported (config : ScraperConfig) (u : Listing) : Prop :=
  exists p,
    previousPrice u = Some p /\ p <> price u /\
    js_ge (js_div (p - price u) p) (priceDropThreshold config) = true.

(** [u] is the record written for the observation [l]. *)
Definition observed_as (l u : Listing) : Prop :=
  price u = price l /\ lastSeen u = lastSeen l.

(** Two records of one item: what identifies and describes the item and
    the instant it was first seen are the same. *)
Definition same_item (l l' : Listing) : Prop :=
  scraperId l' = scraperId l /\ listingId l' = listingId l /\
  title l' = title l /\ l_location l' = l_location l /\ url l' = url l /\
  imageUrl l' = imageUrl l /\ firstSeen l' = firstSeen l.

(** The record a turn of the loop of [processListings] leaves under the key
    of the observation [listing], [old] being what the table held there and
    [e] the expiry the write sets. *)
Definition stored_as (e : Z) (old : option Listing) (listing : Listing) : Listing :=
  match old with
  | None => with_expiresAt e listing
  | Some existing =>
      update_item (scraperId listing) (listingId listing) (price listing)
                  (price existing) (lastSeen listing) e (Some existing)
  end.

(** What a successful result says of the run of the watcher
    [scraperConfig]. *)
Definition sound_for (scraperConfig : ScraperConfig) (r : ScrapingResult) : Prop :=
  (length (newListings r) + length (priceDrops r) <= totalFound r)%nat /\
  Forall (fun l => scraped_for scraperConfig l /\
                   within_bounds scraperConfig (price l)) (newListings r) /\
  Forall (drop_reported scraperConfig) (priceDrops r).


(** The posts the records of a queue event give rise to. *)
Definition record_posts (secrets : gmap string string)
    (record : option NotificationPayload) : list Call :=
  match record with
  | Some payload => posts_of secrets payload
  | None => []
  end.

(** A world whose process has no CONFIG_PARAMETER. *)
Definition unconfigured_world : World :=
  mkWorld ∅ 1700000000000 [] [] ∅ None None no_pages fresh_configService None.

(** A result that can be taken at its word.  A success reports no more
    news and drops than it found; its new listings are listings of the
    watcher the result names, as [scrape] makes them; its drops carry a
    previous price other than the price.  Anything else is a failure in
    full. *)
Definition honest (r : ScrapingResult) : Prop :=
  (success r = true /\
   (length (newListings r) + length (priceDrops r) <= totalFound r)%nat /\
   Forall (fun l => scraperId l = r_scraperId r /\ previousPrice l = None /\
                    expiresAt l = 0) (newListings r) /\
   Forall (fun u => exists p, previousPrice u = Some p /\ p <> price u)
          (priceDrops r)) \/
  failed_result (r_scraperId r) r.

(** The table has on record the price at which [l] is observed. *)
Definition on_record (w : World) (l : Listing) : Prop :=
  exists stored, table w !! key_of l = Some stored /\ price stored = price l.

(** [l'] is a later observation of the item of [l] at the same price. *)
Definition seen_again (l l' : Listing) : Prop :=
  key_of l' = key_of l /\ price l' = price l.



(** The cards of the page of a watcher that pass its filters. *)
Definition shown (config : ScraperConfig) (G : string -> list Card) : list Card :=
  List.filter (fun c => passesFilters (c_title c) (c_price c) config) (G (id config)).

(** Every card shown to the watcher is on record at the price shown. *)
Definition recorded (config : ScraperConfig) (G : string -> list Card)
    (t : gmap (string * string) Listing) : Prop :=
  Forall (fun c => exists stored,
            t !! (id config, c_listingId c) = Some stored /\ price stored = c_price c)
         (shown config G).

(** Every enabled watcher the parameter store holds under [scraperId] has
    the cards shown to it on record. *)
Definition settled (scraperId : string) (P : option AppConfig)
    (G : string -> list Card) (t : gmap (string * string) Listing) : Prop :=
  forall config scraperConfig,
    P = Some config -> lookup_scraper scraperId config = Some scraperConfig ->
    enabled scraperConfig = true -> recorded scraperConfig G t.

(** * Properties *)

(** ** Footprints *)

#[export] Instance Forall_closed (Q : Event -> Prop) : Closed (Forall Q).
Proof.
  split; [constructor|].
  intros a b Ha Hb. apply Forall_app; auto.
Qed.

#[export] Instance and_closed (T1 T2 : list Event -> Prop)
    `{!Closed T1} `{!Closed T2} : Closed (fun evs => T1 evs /\ T2 evs).
Proof.
  split.
  - split; apply closed_nil.
  - intros a b [Ha1 Ha2] [Hb1 Hb2]. split; apply closed_app; assumption.
Qed.

#[export] Instance balanced_closed (acq : Event) (rel : Event -> Prop) :
  Closed (balanced acq rel).
Proof.
  split.
  - intros pre post Heq. destruct pre; discriminate.
  - intros a b Ha Hb pre post Heq.
    apply app_eq_app in Heq. destruct Heq as [l [[Hpre Hpost]|[Hpre Hpost]]].
    + destruct l as [|x l].
      * rewrite app_nil_r in Hpre. simpl in Hpost. subst.
        apply (Hb [] post). reflexivity.
      * simpl in Hpost. injection Hpost as -> ->.
        destruct (Ha pre l Hpre) as (e & Hin & Hrel).
        exists e. split; [apply in_or_app; auto | exact Hrel].
    + apply (Hb l post). exact Hpost.
Qed.

Lemma balanced_single (acq : Event) (rel : Event -> Prop) (e : Event) :
  e <> acq -> balanced acq rel [e].
Proof.
  intros Hne pre post Heq.
  destruct pre as [|x pre]; simpl in Heq.
  - injection Heq as -> _. congruence.
  - injection Heq as _ Heq. destruct pre; discriminate.
Qed.

Lemma balanced_bracket (acq : Event) (rel : Event -> Prop) (es : list Event)
    (close : Event) :
  rel close -> close <> acq ->
  balanced acq rel es -> balanced acq rel (acq :: es ++ [close])%list.
Proof.
  intros Hrel Hne Hes pre post Heq.
  destruct pre as [|x pre]; simpl in Heq.
  - injection Heq as <-. exists close. split; [apply in_or_app; simpl; auto | exact Hrel].
  - injection Heq as _ Heq.
    assert (Hb : balanced acq rel (es ++ [close])%list).
    { apply closed_app; [exact Hes | apply balanced_single; exact Hne]. }
    apply (Hb pre post Heq).
Qed.

Section Footprint.
Context (P : option FacebookMarketplaceScraper -> Prop) (T : list Event -> Prop).
Context `{!Closed T}.

Lemma respects_silent {A} (m : M A) :
  (forall w, scraper (m w).2 = scraper w /\ log (m w).2 = log w) ->
  respects P T m.
Proof.
  intros Hm w HP. destruct (Hm w) as [Hslot Hlog].
  rewrite Hslot. split; [exact HP|].
  exists []. rewrite Hlog, app_nil_r. split; [reflexivity | apply closed_nil].
Qed.

Lemma respects_ret {A} (a : A) : respects P T (ret a).
Proof. apply respects_silent. intros w; split; reflexivity. Qed.

Lemma respects_throw {A} (e : exn) : respects P T (@throw A e).
Proof. apply respects_silent. intros w; split; reflexivity. Qed.

Lemma respects_get_world : respects P T get_world.
Proof. apply respects_silent. intros w; split; reflexivity. Qed.

Lemma respects_date_now : respects P T date_now.
Proof. apply respects_silent. intros w; split; reflexivity. Qed.

Lemma respects_this_browser : respects P T this_browser.
Proof. apply respects_silent. intros w; split; reflexivity. Qed.

Lemma respects_modify_table f : respects P T (modify_table f).
Proof. apply respects_silent. intros w; split; reflexivity. Qed.

Lemma respects_set_configService c : respects P T (set_configService c).
Proof. apply respects_silent. intros w; split; reflexivity. Qed.

Lemma respects_set_scraper s : P s -> respects P T (set_scraper s).
Proof.
  intros Hs w _. split; [exact Hs|].
  exists []. simpl. rewrite app_nil_r. split; [reflexivity | apply closed_nil].
Qed.

Lemma respects_emit e : T [e] -> respects P T (emit e).
Proof.
  intros HT w HP; split; [exact HP|].
  exists [e]. simpl. auto.
Qed.

Lemma respects_console_error line :
  T [ConsoleError line] -> respects P T (console_error line).
Proof. apply respects_emit. Qed.

Lemma respects_ext c : (forall b, T [Ev c b]) -> respects P T (ext c).
Proof.
  intros HT w HP. unfold ext.
  destruct (script w) as [|t rest].
  - split; [exact HP|]. exists [Ev c true]. simpl. auto.
  - destruct (t_reject t); (split; [exact HP|]);
      [exists [Ev c false] | exists [Ev c true]]; simpl; auto.
Qed.

Lemma respects_sleep ms : T [Ev (Sleep ms) true] -> respects P T (sleep ms).
Proof.
  intros HT w HP; split; [exact HP|].
  exists [Ev (Sleep ms) true]. simpl. auto.
Qed.

Lemma respects_bind {A B} (m : M A) (k : A -> M B) :
  respects P T m -> (forall a, respects P T (k a)) -> respects P T (bind m k).
Proof.
  intros Hm Hk w HP. unfold bind.
  destruct (Hm w HP) as [HP1 (evs1 & Hlog1 & HT1)].
  destruct (m w) as [[a|e] w1]; simpl in *.
  - destruct (Hk a w1 HP1) as [HP2 (evs2 & Hlog2 & HT2)].
    split; [exact HP2|].
    exists (evs1 ++ evs2)%list. rewrite Hlog2, Hlog1, app_assoc.
    split; [reflexivity | apply closed_app; auto].
  - split; [exact HP1|]. exists evs1; auto.
Qed.

Lemma respects_try_catch {A} (m : M A) (h : exn -> M A) :
  respects P T m -> (forall e, respects P T (h e)) -> respects P T (try_catch m h).
Proof.
  intros Hm Hh w HP. unfold try_catch.
  destruct (Hm w HP) as [HP1 (evs1 & Hlog1 & HT1)].
  destruct (m w) as [[a|e] w1]; simpl in *.
  - split; [exact HP1|]. exists evs1; auto.
  - destruct (Hh e w1 HP1) as [HP2 (evs2 & Hlog2 & HT2)].
    split; [exact HP2|].
    exists (evs1 ++ evs2)%list. rewrite Hlog2, Hlog1, app_assoc.
    split; [reflexivity | apply closed_app; auto].
Qed.

Lemma respects_finally {A} (m : M A) (f : M unit) :
  respects P T m -> respects P T f -> respects P T (finally m f).
Proof.
  intros Hm Hf w HP. unfold finally.
  destruct (Hm w HP) as [HP1 (evs1 & Hlog1 & HT1)].
  destruct (m w) as [r w1]; simpl in *.
  destruct (Hf w1 HP1) as [HP2 (evs2 & Hlog2 & HT2)].
  destruct (f w1) as [[u|e] w2]; simpl in *;
    (split; [exact HP2|]);
    exists (evs1 ++ evs2)%list; rewrite Hlog2, Hlog1, app_assoc;
    (split; [reflexivity | apply closed_app; auto]).
Qed.

Lemma respects_settle {A} (m : M A) : respects P T m -> respects P T (settle m).
Proof.
  intros Hm w HP. unfold settle.
  destruct (Hm w HP) as [HP1 H1].
  destruct (m w) as [r w1]; simpl in *. auto.
Qed.

Lemma respects_allSettled {A} (ms : list (M A)) :
  Forall (respects P T) ms -> respects P T (allSettled ms).
Proof.
  induction 1 as [|m ms Hm Hms IH]; simpl.
  - apply respects_ret.
  - apply respects_bind; [apply respects_settle; exact Hm|].
    intros r. apply respects_bind; [exact IH|].
    intros rs. apply respects_ret.
Qed.
End Footprint.

(** [use lem] applies a footprint lemma and finds the [Closed] instance. *)
Ltac use lem := apply lem; try (exact _).

(** [svc lem] applies a lemma of the [Services] section, whose premises on
    [T] are at hand. *)
Ltac svc lem := apply lem; try (exact _); try assumption.

Ltac footprint_step :=
  first
    [ use respects_ret | use respects_throw | use respects_get_world
    | use respects_date_now | use respects_this_browser
    | use respects_modify_table | use respects_set_configService
    | use respects_console_error; solve [auto | simpl; auto | repeat constructor]
    | use respects_ext; intros ?; solve [auto | simpl; auto | repeat constructor]
    | use respects_bind; [| intros ?]
    | use respects_try_catch; [| intros ?]
    | use respects_finally
    | match goal with
      | |- respects _ _ (match ?x with _ => _ end) => destruct x
      | |- respects _ _ (if ?x then _ else _) => destruct x
      end ].

Ltac footprint := repeat footprint_step.

Lemma ext_cases (c : Call) (w : World) :
  (exists w1,
     ext c w = (Return tt, w1) /\ scraper w1 = scraper w /\
     log w1 = (log w ++ [Ev c true])%list) \/
  (exists e w1,
     ext c w = (Raise e, w1) /\ scraper w1 = scraper w /\
     log w1 = (log w ++ [Ev c false])%list).
Proof.
  unfold ext. destruct (script w) as [|t rest].
  - left. eexists. split; [reflexivity|]. simpl. auto.
  - destruct (t_reject t) as [e|].
    + right. eexists. eexists. split; [reflexivity|]. simpl. auto.
    + left. eexists. split; [reflexivity|]. simpl. auto.
Qed.

Section Services.
Context (P : option FacebookMarketplaceScraper -> Prop) (T : list Event -> Prop).
Context `{!Closed T}.
Hypothesis T_console : forall line, T [ConsoleError line].
Hypothesis T_plain : forall c b, plain c = true -> T [Ev c b].

Lemma respects_fetchConfig self : respects P T (fetchConfig self).
Proof. unfold fetchConfig. footprint. Qed.

Lemma respects_getConfig_of self : respects P T (getConfig_of self).
Proof. unfold getConfig_of. footprint. Qed.

Lemma respects_fetchSecrets self : respects P T (fetchSecrets self).
Proof. unfold fetchSecrets. footprint. Qed.

Lemma respects_getSecrets_of self : respects P T (getSecrets_of self).
Proof. unfold getSecrets_of. footprint. Qed.

Lemma respects_getEnabledScrapers_of self :
  respects P T (getEnabledScrapers_of self).
Proof. unfold getEnabledScrapers_of. footprint. Qed.

Lemma respects_getConfig : respects P T getConfig.
Proof. unfold getConfig. footprint. Qed.

Lemma respects_getSecrets : respects P T getSecrets.
Proof. unfold getSecrets. footprint. Qed.

Lemma respects_getListing sid lid : respects P T (getListing sid lid).
Proof. unfold getListing. footprint. Qed.

Lemma respects_saveListing l : respects P T (saveListing l).
Proof. unfold saveListing. footprint. Qed.

Lemma respects_updateListingPrice sid lid p seen :
  respects P T (updateListingPrice sid lid p seen).
Proof. unfold updateListingPrice. footprint. Qed.

Lemma respects_processListing config acc l :
  respects P T (processListing config acc l).
Proof. unfold processListing. footprint. Qed.

Lemma respects_processListings_from config ls :
  forall acc, respects P T (processListings_from config acc ls).
Proof.
  induction ls as [|l ls IH]; intros acc; simpl.
  - use respects_ret.
  - use respects_bind; [apply respects_processListing | intros acc'; apply IH].
Qed.

Lemma respects_sendSlackNotification secrets payload :
  respects P T (sendSlackNotification secrets payload).
Proof. unfold sendSlackNotification. footprint. Qed.

Lemma respects_sendTelegramNotification secrets payload :
  respects P T (sendTelegramNotification secrets payload).
Proof. unfold sendTelegramNotification. footprint. Qed.

Lemma respects_sendPushoverNotification secrets payload :
  respects P T (sendPushoverNotification secrets payload).
Proof. unfold sendPushoverNotification. footprint. Qed.

Lemma respects_report_rejected {A} (results : list (outcome A)) :
  forall index, respects P T (report_rejected index results).
Proof.
  induction results as [|[a|e] rest IH]; intros index; simpl.
  - use respects_ret.
  - apply IH.
  - use respects_bind; [use respects_console_error; auto | intros _; apply IH].
Qed.

Lemma respects_sendNotifications secrets payload :
  respects P T (sendNotifications secrets payload).
Proof.
  unfold sendNotifications.
  use respects_bind; [| intros results; apply respects_report_rejected].
  use respects_allSettled.
  repeat (apply Forall_app; split);
    match goal with |- Forall _ (if ?b then _ else _) => destruct b end;
    try apply Forall_nil_2;
    (apply Forall_cons; split; [| apply Forall_nil_2]);
    first [apply respects_sendSlackNotification
          | apply respects_sendTelegramNotification
          | apply respects_sendPushoverNotification].
Qed.

Lemma respects_ScraperService_sendNotifications news drops config secrets :
  respects P T (ScraperService_sendNotifications news drops config secrets).
Proof.
  unfold ScraperService_sendNotifications.
  use respects_bind; [| intros _; use respects_ret].
  use respects_allSettled.
  apply Forall_app; split; apply Forall_map, Forall_forall; intros l _;
    apply respects_sendNotifications.
Qed.

(** The part of [scrape] that holds a page. *)
Lemma respects_page_region {A} (body : M A) :
  T [Ev NewPage false] ->
  (forall es b, T es -> T (Ev NewPage true :: es ++ [Ev PageClose b])%list) ->
  respects P T body ->
  respects P T (ext NewPage ;> finally body (ext PageClose)).
Proof.
  intros Hfail Hpage Hbody w HP. unfold bind.
  destruct (ext_cases NewPage w)
    as [(w1 & Hrun & Hslot1 & Hlog1)|(e & w1 & Hrun & Hslot1 & Hlog1)];
    rewrite Hrun.
  - rewrite <- Hslot1 in HP. unfold finally.
    destruct (Hbody w1 HP) as [HP2 (es & Hlog2 & Hes)].
    destruct (body w1) as [r w2]. simpl in *.
    destruct (ext_cases PageClose w2)
      as [(w3 & Hrun3 & Hslot3 & Hlog3)|(e & w3 & Hrun3 & Hslot3 & Hlog3)];
      rewrite Hrun3; simpl;
      (split; [rewrite Hslot3; exact HP2|]);
      eexists (Ev NewPage true :: es ++ [Ev PageClose _])%list;
      (split; [| apply Hpage; exact Hes]);
      rewrite Hlog3, Hlog2, Hlog1, <- !app_assoc; reflexivity.
  - simpl. split; [rewrite Hslot1; exact HP|].
    exists [Ev NewPage false]. auto.
Qed.

Lemma respects_scrape_body config :
  respects P T
    (try_catch
       (ext (LoadPage (id config)) ;>
        let* w := get_world in
        let cards := List.filter (fun c => passesFilters (c_title c) (c_price c) config)
                                 (pages w (id config)) in
        ret (map (listing_of_card config (now w)) cards))
       (fun e => console_error ("Error scraping Facebook Marketplace for "
                                +:+ id config +:+ ":") ;> throw e)).
Proof. footprint. Qed.
End Services.

(** ** Notification fan-out *)

Lemma calls_of_app (a b : list Event) :
  calls_of (a ++ b) = (calls_of a ++ calls_of b)%list.
Proof. unfold calls_of. apply omap_app. Qed.

Lemma attempt_log cl w :
  exists r b w',
    attempt cl w = (r, w') /\
    log w' = (log w ++ Ev cl.1 b :: (if b then [] else [ConsoleError cl.2]))%list.
Proof.
  unfold attempt, try_catch, ext.
  destruct (script w) as [|t rest]; simpl.
  - exists (Return tt), true. eexists; split; reflexivity.
  - destruct (t_reject t) as [e|]; simpl.
    + exists (Raise e), false. eexists; split; [reflexivity|].
      simpl. rewrite <- app_assoc. reflexivity.
    + exists (Return tt), true. eexists; split; reflexivity.
Qed.

Lemma allSettled_attempts (cls : list (Call * string)) :
  forall w, exists rs w' evs,
    allSettled (map attempt cls) w = (Return rs, w') /\
    log w' = (log w ++ evs)%list /\
    calls_of evs = map fst cls /\
    (cls = [] -> w' = w).
Proof.
  induction cls as [|cl cls IH]; intros w; simpl.
  - exists [], w, []. rewrite app_nil_r. auto.
  - unfold bind, settle.
    destruct (attempt_log cl w) as (r & b & w1 & Hrun & Hlog1).
    rewrite Hrun.
    destruct (IH w1) as (rs & w2 & evs & Hrest & Hlog2 & Hcalls & _).
    rewrite Hrest. simpl.
    exists (r :: rs), w2.
    exists (Ev cl.1 b :: (if b then [] else [ConsoleError cl.2]) ++ evs)%list.
    repeat split.
    + rewrite Hlog2, Hlog1, <- app_assoc. reflexivity.
    + change (calls_of (Ev cl.1 b :: (if b then [] else [ConsoleError cl.2]) ++ evs))
        with (cl.1 :: calls_of ((if b then [] else [ConsoleError cl.2]) ++ evs)).
      rewrite calls_of_app, Hcalls. destruct b; reflexivity.
    + discriminate.
Qed.

Lemma report_rejected_log {A} (results : list (outcome A)) :
  forall index w, exists w' evs,
    report_rejected index results w = (Return tt, w') /\
    log w' = (log w ++ evs)%list /\
    calls_of evs = [] /\
    (results = [] -> w' = w).
Proof.
  induction results as [|[a|e] rest IH]; intros index w; simpl.
  - exists w, []. rewrite app_nil_r. auto.
  - destruct (IH (S index) w) as (w' & evs & Hrun & Hlog & Hcalls & _).
    exists w', evs. repeat split; auto. discriminate.
  - unfold bind, console_error, emit.
    destruct (IH (S index)
                 (with_log (log w ++ [ConsoleError ("Notification " +:+ pretty index
                                                     +:+ " failed:")])%list w))
      as (w' & evs & Hrun & Hlog & Hcalls & _).
    rewrite Hrun. exists w'. eexists. repeat split.
    + rewrite Hlog. simpl. rewrite <- app_assoc. reflexivity.
    + simpl. exact Hcalls.
    + discriminate.
Qed.

Lemma sendNotifications_attempts secrets payload :
  sendNotifications secrets payload =
  (let* results := allSettled (map attempt (channel_attempts secrets (p_scraper payload))) in
   report_rejected 0 results).
Proof.
  unfold sendNotifications, channel_attempts, enabled_channels,
    slack_on, telegram_on, pushover_on,
    sendSlackNotification, sendTelegramNotification, sendPushoverNotification.
  destruct (slack (notifications (p_scraper payload))) as [[[] ?]|];
    destruct (telegram (notifications (p_scraper payload))) as [[[] ? ?]|];
    destruct (pushover (notifications (p_scraper payload))) as [[[] ? ?]|];
    reflexivity.
Qed.

Lemma deliveries_app (a b : list Event) :
  deliveries (a ++ b) = (deliveries a ++ deliveries b)%list.
Proof. unfold deliveries. apply omap_app. Qed.

Lemma console_lines_app (a b : list Event) :
  console_lines (a ++ b) = (console_lines a ++ console_lines b)%list.
Proof. unfold console_lines. apply omap_app. Qed.

(** One delivery consumes one answer of the outside, and fails exactly when
    this answer is a rejection. *)
Lemma attempt_answer cl w :
  exists r w',
    attempt cl w = (r, w') /\
    log w' = (log w ++ Ev cl.1 (is_fulfilled r)
                    :: (if is_fulfilled r then [] else [ConsoleError cl.2]))%list /\
    forall n, answers (S n) (script w) = is_fulfilled r :: answers n (script w').
Proof.
  unfold attempt, try_catch, ext.
  destruct (script w) as [|t rest] eqn:Hscript; simpl.
  - exists (Return tt). eexists. split; [reflexivity|]. simpl.
    split; [reflexivity|]. intros n. rewrite Hscript. reflexivity.
  - unfold fulfils. destruct (t_reject t) as [e|]; simpl.
    + exists (Raise e). eexists. split; [reflexivity|]. simpl.
      split; [rewrite <- app_assoc; reflexivity | reflexivity].
    + exists (Return tt). eexists. split; [reflexivity|]. simpl.
      split; reflexivity.
Qed.

Lemma allSettled_deliveries (cls : list (Call * string)) :
  forall w, exists rs w' evs,
    allSettled (map attempt cls) w = (Return rs, w') /\
    log w' = (log w ++ evs)%list /\
    map is_fulfilled rs = answers (length cls) (script w) /\
    deliveries evs = zip (map fst cls) (map is_fulfilled rs) /\
    console_lines evs = own_lines cls (map is_fulfilled rs).
Proof.
  induction cls as [|cl cls IH]; intros w; cbn [map allSettled length].
  - exists [], w, []. rewrite app_nil_r. repeat split; reflexivity.
  - unfold bind, settle.
    destruct (attempt_answer cl w) as (r & w1 & Hrun & Hlog1 & Hanswer).
    rewrite Hrun.
    destruct (IH w1) as (rs & w2 & evs & Hrest & Hlog2 & Hflags & Hdel & Hlines).
    rewrite Hrest. unfold ret.
    exists (r :: rs), w2.
    exists (Ev cl.1 (is_fulfilled r)
            :: (if is_fulfilled r then [] else [ConsoleError cl.2]) ++ evs)%list.
    split; [reflexivity|]. split; [|split; [|split]].
    + rewrite Hlog2, Hlog1, <- app_assoc. reflexivity.
    + cbn [map]. rewrite Hanswer, Hflags. reflexivity.
    + change (deliveries (Ev cl.1 (is_fulfilled r)
                          :: (if is_fulfilled r then [] else [ConsoleError cl.2]) ++ evs))
        with ((cl.1, is_fulfilled r)
              :: deliveries ((if is_fulfilled r then [] else [ConsoleError cl.2]) ++ evs)).
      rewrite deliveries_app, Hdel. cbn [map]. destruct (is_fulfilled r); reflexivity.
    + change (console_lines (Ev cl.1 (is_fulfilled r)
                          :: (if is_fulfilled r then [] else [ConsoleError cl.2]) ++ evs))
        with (console_lines ((if is_fulfilled r then [] else [ConsoleError cl.2]) ++ evs)).
      rewrite console_lines_app, Hlines. cbn [map own_lines].
      destruct (is_fulfilled r); reflexivity.
Qed.

Lemma report_rejected_lines {A} (results : list (outcome A)) :
  forall index w, exists w' evs,
    report_rejected index results w = (Return tt, w') /\
    log w' = (log w ++ evs)%list /\
    deliveries evs = [] /\
    console_lines evs = index_lines index (map is_fulfilled results).
Proof.
  induction results as [|[a|e] rest IH]; intros index w; cbn [report_rejected].
  - exists w, []. rewrite app_nil_r. repeat split; reflexivity.
  - exact (IH (S index) w).
  - unfold bind, console_error, emit.
    destruct (IH (S index)
                 (with_log (log w ++ [ConsoleError ("Notification " +:+ pretty index
                                                     +:+ " failed:")])%list w))
      as (w' & evs & Hrun & Hlog & Hdel & Hlines).
    rewrite Hrun.
    exists w', (ConsoleError ("Notification " +:+ pretty index +:+ " failed:") :: evs).
    split; [reflexivity|]. split; [|split].
    + rewrite Hlog. simpl. rewrite <- app_assoc. reflexivity.
    + exact Hdel.
    + cbn [map index_lines is_fulfilled]. rewrite <- Hlines. reflexivity.
Qed.

Lemma answers_length (n : nat) : forall script, length (answers n script) = n.
Proof.
  induction n as [|n IH]; intros script; [reflexivity|].
  destruct script; simpl; rewrite IH; reflexivity.
Qed.

Lemma failure_lines_split (channels : list Channel) :
  forall index flags,
    length flags = length channels ->
    Permutation
      (own_lines (map (fun ch => (Post ch, failure_line ch)) channels) flags
       ++ index_lines index flags)
      (failure_lines index channels flags).
Proof.
  induction channels as [|ch channels IH]; intros index flags Hlen.
  - destruct flags; [constructor | discriminate].
  - destruct flags as [|ok flags]; [discriminate|].
    injection Hlen as Hlen. specialize (IH (S index) flags Hlen).
    cbn [map own_lines index_lines failure_lines snd].
    destruct ok; cbn [app].
    + exact IH.
    + constructor. symmetry. apply Permutation_cons_app. symmetry. exact IH.
Qed.

(** C6. Dispatching an event never rejects, and the failure of one channel
    stays its own.  Whatever the outside answers, [sendNotifications] is
    fulfilled.  The requests it made are one per enabled channel, in the
    order slack, telegram, pushover, whether or not an earlier one was
    rejected; each of them is fulfilled or rejected as the outside answers
    this very request; the console lines written are, in some order, the
    two lines owed to each channel whose request was rejected (the line of
    its method and the line of the [results.forEach] bearing its index) and
    no line for any other channel.  With no channel enabled the call leaves
    the world as it found it. *)
Theorem sendNotifications_never_rejects
    (secrets : gmap string string) (payload : NotificationPayload) (w : World) :
  exists w' evs,
    sendNotifications secrets payload w = (Return tt, w') /\
    log w' = (log w ++ evs)%list /\
    calls_of evs = map Post (enabled_channels secrets (p_scraper payload)) /\
    deliveries evs
    = zip (map Post (enabled_channels secrets (p_scraper payload)))
          (answers (length (enabled_channels secrets (p_scraper payload))) (script w)) /\
    Permutation
      (console_lines evs)
      (failure_lines 0 (enabled_channels secrets (p_scraper payload))
         (answers (length (enabled_channels secrets (p_scraper payload))) (script w))) /\
    (enabled_channels secrets (p_scraper payload) = [] -> w' = w).
Proof.
  rewrite sendNotifications_attempts. unfold bind.
  destruct (allSettled_attempts (channel_attempts secrets (p_scraper payload)) w)
    as (rs' & w1' & evs1' & Hrun1' & Hlog1' & Hcalls1 & _).
  destruct (allSettled_deliveries (channel_attempts secrets (p_scraper payload)) w)
    as (rs & w1 & evs1 & Hrun1 & Hlog1 & Hflags & Hdel1 & Hlines1).
  rewrite Hrun1 in Hrun1'. injection Hrun1' as <- <-.
  rewrite Hlog1 in Hlog1'. apply app_inv_head in Hlog1'. subst evs1'.
  rewrite Hrun1.
  destruct (report_rejected_log rs 0 w1) as (w2' & evs2' & Hrun2' & Hlog2' & Hcalls2 & _).
  destruct (report_rejected_lines rs 0 w1) as (w2 & evs2 & Hrun2 & Hlog2 & Hdel2 & Hlines2).
  rewrite Hrun2 in Hrun2'. injection Hrun2' as <-.
  rewrite Hlog2 in Hlog2'. apply app_inv_head in Hlog2'. subst evs2'.
  rewrite Hrun2.
  assert (Hlen : length (channel_attempts secrets (p_scraper payload))
                 = length (enabled_channels secrets (p_scraper payload)))
    by (unfold channel_attempts; apply length_map).
  rewrite Hlen in Hflags. rewrite Hflags in Hdel1, Hlines1, Hlines2.
  exists w2, (evs1 ++ evs2)%list.
  split; [reflexivity|]. split; [|split; [|split; [|split]]].
  - rewrite Hlog2, Hlog1, app_assoc. reflexivity.
  - rewrite calls_of_app, Hcalls1, Hcalls2, app_nil_r.
    unfold channel_attempts. rewrite map_map. reflexivity.
  - rewrite deliveries_app, Hdel1, Hdel2, app_nil_r.
    unfold channel_attempts. rewrite map_map. reflexivity.
  - rewrite console_lines_app, Hlines1, Hlines2. unfold channel_attempts.
    apply failure_lines_split. apply answers_length.
  - intros Hnone.
    assert (Hcl : channel_attempts secrets (p_scraper payload) = [])
      by (unfold channel_attempts; rewrite Hnone; reflexivity).
    rewrite Hcl in Hrun1. simpl in Hrun1. inversion Hrun1; subst.
    simpl in Hrun2. inversion Hrun2; subst. reflexivity.
Qed.

(** The slack request is rejected; telegram and pushover are still served
    and the dispatch is fulfilled. *)
Example slack_failure_is_isolated :
  let w := three_watchers [rejected "Request failed with status code 500"] in
  let run := sendNotifications mockSecrets
               (new_listing_payload all_channels (observed_bike 4500 1700000000000)) w in
  run.1 = Return tt /\
  log run.2
  = [Ev (Post (Slack "https://hooks.slack.com/test")) false;
     ConsoleError "Failed to send Slack notification:";
     Ev (Post (Telegram "test-token" "test-chat")) true;
     Ev (Post (Pushover "test-token" "test-key")) true;
     ConsoleError "Notification 0 failed:"].
Proof. split; reflexivity. Qed.

(** ** Credentials

    Facts on [substring] and [index] behind [includes] and [replace]. *)


Lemma append_cons (c : ascii) (a b : string) :
  String c a +:+ b = String c (a +:+ b).
Proof. reflexivity. Qed.


















(** The marker need not close the string: the service cuts it out wherever
    it first stands. *)
Example getSecretValue_marker_inside :
  getSecretValue (<["slack-url" := "https://hooks.slack.com/x"]> ∅)
                 "slack-from-secrets-url"
  = JsString "https://hooks.slack.com/x".
Proof. reflexivity. Qed.

Example getSecretValue_missing_entry :
  getSecretValue mockSecrets "discord-webhook-from-secrets" = JsString "".
Proof. reflexivity. Qed.

(** ** The Watch Runner: watchers that do not reach the collector *)

Lemma getConfig_footprint (P : option FacebookMarketplaceScraper -> Prop) :
  respects P (Forall config_event) getConfig.
Proof. unfold getConfig, getConfig_of, fetchConfig. footprint. Qed.

Lemma getConfig_keeps_slot (w w1 : World) (r : outcome AppConfig) :
  getConfig w = (r, w1) -> scraper w1 = scraper w.
Proof.
  intros Hrun.
  destruct (getConfig_footprint (fun s => s = scraper w) w eq_refl) as [Hslot _].
  rewrite Hrun in Hslot. exact Hslot.
Qed.

Lemma getEnabledScrapers_of_enabled self w l self' w' :
  getEnabledScrapers_of self w = (Return (l, self'), w') ->
  exists config,
    l = List.filter (fun s => enabled s) (scrapers config) /\
    Forall (fun s => enabled s = true) l.
Proof.
  unfold getEnabledScrapers_of, bind. intros Hrun.
  destruct (getConfig_of self w) as [[[config self1]|e] w1]; [|discriminate].
  simpl in Hrun. injection Hrun as Hl _ _. subst l.
  exists config. split; [reflexivity|].
  apply List.Forall_forall. intros s Hin. apply filter_In in Hin. tauto.
Qed.

(** C5. A watcher whose configuration says [enabled = false] is answered
    as soon as the configuration is read: the result has [success = true]
    and zero counts, and the world the call leaves is the world [w1] in
    which the configuration had just been read, so the collector is not
    started and no item is written and no notification sent (reading the
    configuration itself makes no other outside call than the parameter
    fetch).  The scheduler, for its part, only ever gets enabled watchers
    from [getEnabledScrapers]. *)
Theorem disabled_watcher_short_circuits :
  (forall (scraperId : string) (w w1 : World) (config : AppConfig)
          (scraperConfig : ScraperConfig),
     getConfig (with_scraper None w) = (Return config, w1) ->
     lookup_scraper scraperId config = Some scraperConfig ->
     enabled scraperConfig = false ->
     executeScraper scraperId w
       = (Return (mkScrapingResult scraperId true None [] [] 0 (now w1 - now w)), w1)
     /\ exists evs, log w1 = (log w ++ evs)%list /\
                    Forall (fun c => c = GetParameter) (calls_of evs)) /\
  (forall self w l self' w',
     getEnabledScrapers_of self w = (Return (l, self'), w') ->
     Forall (fun s => enabled s = true) l).
Proof.
  split.
  - intros scraperId w w1 config scraperConfig Hcfg Hfind Hoff.
    pose proof (getConfig_keeps_slot _ _ _ Hcfg) as Hslot. simpl in Hslot.
    split.
    + unfold executeScraper, executeScraper_try, executeScraper_finally,
        bind, finally, try_catch, date_now, set_scraper.
      simpl. rewrite Hcfg. unfold lookup_scraper in Hfind. rewrite Hfind, Hoff.
      simpl. unfold get_world, ret. rewrite Hslot. reflexivity.
    + destruct (getConfig_footprint (fun _ => True) (with_scraper None w) I)
        as [_ (evs & Hlog & Hevs)].
      rewrite Hcfg in Hlog. simpl in Hlog.
      exists evs. split; [exact Hlog|].
      clear Hlog. induction Hevs as [|e evs He _ IH]; [constructor|].
      destruct e as [[] b| |]; simpl in *; try contradiction; auto.
  - intros self w l self' w' Hrun.
    destruct (getEnabledScrapers_of_enabled _ _ _ _ _ Hrun) as (config & _ & Hall).
    exact Hall.
Qed.

Lemma disabled_watcher_short_circuits_witness :
  let w := quiet_world ∅ (mkAppConfig [sample_config false facebook]) in
  exists w1,
    executeScraper "bikes" w
      = (Return (mkScrapingResult "bikes" true None [] [] 0 0), w1) /\
    log w1 = [Ev GetParameter true].
Proof.
  intros w.
  destruct disabled_watcher_short_circuits as [Hskip _].
  pose (w1 := (getConfig (with_scraper None w)).2).
  destruct (Hskip "bikes" w w1 (mkAppConfig [sample_config false facebook])
                  (sample_config false facebook)) as [Hrun _];
    [reflexivity | reflexivity | reflexivity |].
  exists w1. split; [exact Hrun | reflexivity].
Defined.

(** C10. An enabled watcher for a marketplace other than facebook gets a
    failed result and no exception: [success = false], the error names the
    marketplace, the counts are zero, and beyond reading the configuration
    the call only writes one console line. *)
Theorem unsupported_marketplace_fails
    (scraperId : string) (w w1 : World) (config : AppConfig)
    (scraperConfig : ScraperConfig) :
  getConfig (with_scraper None w) = (Return config, w1) ->
  lookup_scraper scraperId config = Some scraperConfig ->
  enabled scraperConfig = true ->
  marketplace scraperConfig <> facebook ->
  executeScraper scraperId w
    = (Return (mkScrapingResult scraperId false
                 (Some ("Unsupported marketplace: "
                        +:+ marketplace_name (marketplace scraperConfig)))
                 [] [] 0 (now w1 - now w)),
       with_log (log w1 ++ [ConsoleError ("Scraper " +:+ scraperId +:+ " failed:")])%list
                w1).
Proof.
  intros Hcfg Hfind Hon Hmarket.
  pose proof (getConfig_keeps_slot _ _ _ Hcfg) as Hslot. simpl in Hslot.
  unfold executeScraper, executeScraper_try, executeScraper_catch,
    executeScraper_finally, bind, finally, try_catch, date_now, set_scraper.
  simpl. rewrite Hcfg. unfold lookup_scraper in Hfind. rewrite Hfind, Hon.
  destruct (marketplace scraperConfig); [congruence| |];
    simpl; unfold get_world, ret; simpl; rewrite Hslot; reflexivity.
Qed.

Lemma unsupported_marketplace_fails_witness :
  let w := quiet_world ∅ (mkAppConfig [sample_config true craigslist]) in
  exists w2,
    executeScraper "bikes" w
      = (Return (mkScrapingResult "bikes" false
                   (Some "Unsupported marketplace: craigslist") [] [] 0 0), w2) /\
    log w2 = [Ev GetParameter true; ConsoleError "Scraper bikes failed:"].
Proof.
  intros w.
  pose (w1 := (getConfig (with_scraper None w)).2).
  eexists. split.
  - apply (unsupported_marketplace_fails "bikes" w w1
             (mkAppConfig [sample_config true craigslist])
             (sample_config true craigslist));
      [reflexivity | reflexivity | reflexivity | discriminate].
  - reflexivity.
Defined.

(** ** The item store in a calm world *)

Lemma ext_calm (c : Call) (w : World) :
  calm w ->
  exists w',
    ext c w = (Return tt, w') /\
    table w' = table w /\ calm w' /\
    log w' = (log w ++ [Ev c true])%list.
Proof.
  unfold calm, ext. intros Hcalm.
  destruct (script w) as [|t rest] eqn:Hscript.
  - eexists; split; [reflexivity|]. simpl. rewrite Hscript. auto.
  - inversion Hcalm as [|? ? [Hrej Hsweep] Hrest]; subst.
    rewrite Hrej, Hsweep. eexists; split; [reflexivity|]. simpl. auto.
Qed.

Lemma getListing_calm (sid lid : string) (w : World) :
  calm w ->
  exists w',
    getListing sid lid w = (Return (table w !! (sid, lid)), w') /\
    table w' = table w /\ calm w' /\
    log w' = (log w ++ [Ev (DbGet sid lid) true])%list.
Proof.
  intros Hcalm. unfold getListing, try_catch, bind.
  destruct (ext_calm (DbGet sid lid) w Hcalm) as (w1 & Hrun & Htable & Hcalm1 & Hlog).
  rewrite Hrun. simpl. exists w1. rewrite Htable. auto.
Qed.

Lemma saveListing_calm (listing : Listing) (w : World) :
  calm w ->
  exists w',
    saveListing listing w = (Return tt, w') /\
    table w' = <[(scraperId listing, listingId listing) :=
                   with_expiresAt (now w / 1000 + LISTING_TTL) listing]> (table w) /\
    calm w' /\
    log w' = (log w ++ [Ev (DbPut (scraperId listing) (listingId listing)) true])%list.
Proof.
  intros Hcalm. unfold saveListing, try_catch, bind, date_now.
  destruct (ext_calm (DbPut (scraperId listing) (listingId listing)) w Hcalm)
    as (w1 & Hrun & Htable & Hcalm1 & Hlog).
  rewrite Hrun. simpl. eexists; split; [reflexivity|].
  simpl. rewrite Htable. auto.
Qed.

Lemma updateListingPrice_calm (sid lid : string) (newPrice seen : Z) (w : World)
    (cur : Listing) :
  calm w ->
  table w !! (sid, lid) = Some cur ->
  exists w' n,
    let item := update_item sid lid newPrice (price cur) seen
                            (n / 1000 + LISTING_TTL) (Some cur) in
    updateListingPrice sid lid newPrice seen w = (Return (Some item), w') /\
    table w' = <[(sid, lid) := item]> (table w) /\
    calm w' /\
    log w' = (log w ++ [Ev (DbGet sid lid) true; Ev (DbUpdate sid lid) true])%list.
Proof.
  intros Hcalm Hcur. unfold updateListingPrice, try_catch, bind.
  destruct (getListing_calm sid lid w Hcalm) as (w1 & Hrun1 & Htable1 & Hcalm1 & Hlog1).
  rewrite Hrun1, Hcur. unfold date_now.
  destruct (ext_calm (DbUpdate sid lid) w1 Hcalm1) as (w2 & Hrun2 & Htable2 & Hcalm2 & Hlog2).
  rewrite Hrun2. simpl. rewrite Htable2, Htable1, Hcur.
  eexists. exists (now w1). split; [reflexivity|].
  simpl. rewrite Htable2, Htable1, Hlog2, Hlog1, <- app_assoc. auto.
Qed.

(** ** The change classifier inside [processListings] *)







(** ** The Watch Runner: footprint of a run *)

Section Runner.
Context (T : list Event -> Prop) `{!Closed T}.
Hypothesis T_console : forall line, T [ConsoleError line].
Hypothesis T_plain : forall c b, plain c = true -> T [Ev c b].
Hypothesis T_launch : forall b, T [Ev Launch b].
Hypothesis T_close : forall b, T [Ev BrowserClose b].
Hypothesis T_nopage : T [Ev NewPage false].
Hypothesis T_page :
  forall es b, T es -> T (Ev NewPage true :: es ++ [Ev PageClose b])%list.

Let any : option FacebookMarketplaceScraper -> Prop := fun _ => True.

Lemma respects_initialize : respects any T initialize.
Proof.
  unfold initialize. use respects_bind.
  - use respects_ext. exact T_launch.
  - intros _. use respects_set_scraper. exact I.
Qed.

Lemma respects_cleanup : respects any T cleanup.
Proof.
  unfold cleanup. use respects_bind; [use respects_this_browser|].
  intros [|]; [|use respects_ret].
  use respects_bind.
  - use respects_ext. exact T_close.
  - intros _. use respects_set_scraper. exact I.
Qed.

Lemma respects_scrape config cookies : respects any T (scrape config cookies).
Proof.
  unfold scrape. use respects_bind.
  - use respects_bind; [use respects_this_browser|].
    intros [|]; [use respects_ret | apply respects_initialize].
  - intros _. svc respects_page_region. svc respects_scrape_body.
Qed.

Lemma respects_executeScraper_try scraperId startTime :
  respects any T (executeScraper_try scraperId startTime).
Proof.
  unfold executeScraper_try.
  use respects_bind; [svc respects_getConfig|]. intros config.
  destruct (List.find _ _) as [scraperConfig|]; [|use respects_throw].
  destruct (negb (enabled scraperConfig)); [footprint|].
  use respects_bind.
  - destruct (marketplace scraperConfig); try use respects_throw.
    use respects_bind; [use respects_set_scraper; exact I|].
    intros _. apply respects_initialize.
  - intros _. unfold executeScraper_collect.
    use respects_bind; [svc respects_getSecrets|]. intros secrets.
    use respects_bind; [apply respects_scrape|]. intros scraped.
    use respects_bind; [svc respects_processListings_from|]. intros [news drops].
    use respects_bind; [|intros _; footprint].
    destruct (_ || _); [svc respects_ScraperService_sendNotifications | use respects_ret].
Qed.

Lemma respects_executeScraper_catch P scraperId startTime e :
  respects P T (executeScraper_catch scraperId startTime e).
Proof. unfold executeScraper_catch. footprint. Qed.

Lemma respects_executeScraper scraperId : respects any T (executeScraper scraperId).
Proof.
  unfold executeScraper.
  use respects_bind; [use respects_date_now|]. intros startTime.
  use respects_bind; [use respects_set_scraper; exact I|]. intros _.
  use respects_finally.
  - use respects_try_catch; [apply respects_executeScraper_try|].
    intros e. apply respects_executeScraper_catch.
  - unfold executeScraper_finally.
    use respects_bind; [use respects_get_world|]. intros w.
    destruct (scraper w); [apply respects_cleanup | use respects_ret].
Qed.
End Runner.

(** ** The Watch Runner: release of the browser *)

Lemma balanced_ends (acq : Event) (rel : Event -> Prop) (es : list Event)
    (close : Event) :
  rel close -> close <> acq -> balanced acq rel (es ++ [close])%list.
Proof.
  intros Hrel Hne pre post Heq.
  destruct (exists_last (l := acq :: post)) as (post' & last & Hlast); [discriminate|].
  rewrite Hlast, app_assoc in Heq.
  apply app_inj_tail in Heq. destruct Heq as [_ <-].
  destruct post' as [|x post']; simpl in Hlast.
  - injection Hlast as <- _. congruence.
  - injection Hlast as _ ->. exists close.
    split; [apply in_or_app; simpl; auto | exact Hrel].
Qed.

Lemma balanced_absent (acq : Event) (rel : Event -> Prop) (es : list Event) :
  Forall (fun e => e <> acq) es -> balanced acq rel es.
Proof.
  intros Hall pre post Heq. subst es.
  apply Forall_app in Hall. destruct Hall as [_ Hall].
  inversion Hall; congruence.
Qed.

Lemma start_browser_cases (w : World) :
  (exists w1,
     (set_scraper (Some (mkFb false)) ;> initialize) w = (Return tt, w1) /\
     held (scraper w1) /\ log w1 = (log w ++ [Ev Launch true])%list) \/
  (exists e w1,
     (set_scraper (Some (mkFb false)) ;> initialize) w = (Raise e, w1) /\
     ~ held (scraper w1) /\ log w1 = (log w ++ [Ev Launch false])%list).
Proof.
  unfold initialize, bind, set_scraper, held. simpl.
  destruct (ext_cases Launch (with_scraper (Some (mkFb false)) w))
    as [(w1 & Hrun & Hslot & Hlog)|(e & w1 & Hrun & Hslot & Hlog)]; rewrite Hrun.
  - left. eexists. split; [reflexivity|]. simpl. auto.
  - right. eexists. eexists. split; [reflexivity|].
    rewrite Hslot. simpl. split; [discriminate | exact Hlog].
Qed.

Section Held.
Context (T : list Event -> Prop) `{!Closed T}.
Hypothesis T_console : forall line, T [ConsoleError line].
Hypothesis T_plain : forall c b, plain c = true -> T [Ev c b].
Hypothesis T_nopage : T [Ev NewPage false].
Hypothesis T_page :
  forall es b, T es -> T (Ev NewPage true :: es ++ [Ev PageClose b])%list.

(** With a browser in hand [scrape] does not launch another. *)
Lemma respects_scrape_held config cookies : respects held T (scrape config cookies).
Proof.
  unfold scrape. use respects_bind.
  - intros w Hheld. unfold bind, this_browser. unfold held in Hheld.
    rewrite Hheld. simpl. rewrite Hheld. split; [reflexivity|].
    exists []. rewrite app_nil_r. split; [reflexivity | apply closed_nil].
  - intros _. svc respects_page_region. svc respects_scrape_body.
Qed.

(** What follows the launch in the [try] block. *)
Lemma respects_after_launch scraperId startTime scraperConfig :
  respects held T (executeScraper_collect scraperId startTime scraperConfig).
Proof.
  unfold executeScraper_collect.
  use respects_bind; [svc respects_getSecrets|]. intros secrets.
  use respects_bind; [apply respects_scrape_held|]. intros scraped.
  use respects_bind; [svc respects_processListings_from|]. intros [news drops].
  use respects_bind; [|intros _; footprint].
  destruct (_ || _); [svc respects_ScraperService_sendNotifications | use respects_ret].
Qed.
End Held.

Lemma launch_free_console line : launch_free [ConsoleError line].
Proof. repeat constructor. discriminate. Qed.

Lemma launch_free_plain c b : plain c = true -> launch_free [Ev c b].
Proof.
  intros Hplain. repeat constructor. intros Heq. injection Heq as -> _. discriminate.
Qed.

Lemma launch_free_page es b :
  launch_free es -> launch_free (Ev NewPage true :: es ++ [Ev PageClose b])%list.
Proof.
  intros Hes. constructor; [discriminate|].
  apply Forall_app. split; [exact Hes | repeat constructor; discriminate].
Qed.

Lemma try_block_session scraperId startTime (w0 w' : World)
    (r : outcome ScrapingResult) :
  scraper w0 = None ->
  executeScraper_try scraperId startTime w0 = (r, w') ->
  exists evs, log w' = (log w0 ++ evs)%list /\ session (scraper w') evs.
Proof.
  intros Hnone Hrun.
  assert (Hidle : forall w evs, scraper w = None -> launch_free evs ->
                                session (scraper w) evs).
  { intros w evs Hw Hevs. right. split; [unfold held; congruence | exact Hevs]. }
  unfold executeScraper_try in Hrun. unfold bind at 1 in Hrun.
  destruct (respects_getConfig (fun s => s = None) launch_free
              launch_free_console launch_free_plain w0 Hnone)
    as [Hslot1 (evs1 & Hlog1 & Hfree1)].
  destruct (getConfig w0) as [[config|e] w1]; simpl in Hslot1, Hlog1;
    [|injection Hrun as <- <-; exists evs1; auto].
  destruct (List.find _ _) as [scraperConfig|];
    [|injection Hrun as <- <-; exists evs1; auto].
  destruct (negb (enabled scraperConfig));
    [injection Hrun as <- <-; exists evs1; auto|].
  unfold bind at 1 in Hrun.
  destruct (marketplace scraperConfig);
    try solve [injection Hrun as <- <-; exists evs1; auto].
  destruct (start_browser_cases w1)
    as [(w2 & Hgo & Hheld & Hlog2)|(e & w2 & Hgo & Hheld & Hlog2)];
    rewrite Hgo in Hrun.
  - destruct (respects_after_launch launch_free launch_free_console launch_free_plain
                ltac:(repeat constructor; discriminate) launch_free_page
                scraperId startTime scraperConfig w2 Hheld)
      as [Hheld3 (evs3 & Hlog3 & _)].
    rewrite Hrun in Hheld3, Hlog3. simpl in Hheld3, Hlog3.
    exists (evs1 ++ [Ev Launch true] ++ evs3)%list. split.
    + rewrite Hlog3, Hlog2, Hlog1, <- !app_assoc. reflexivity.
    + left. exact Hheld3.
  - injection Hrun as <- <-.
    exists (evs1 ++ [Ev Launch false])%list. split.
    + rewrite Hlog2, Hlog1, app_assoc. reflexivity.
    + right. split; [exact Hheld|].
      apply Forall_app. split; [exact Hfree1 | repeat constructor; discriminate].
Qed.

Lemma try_catch_session scraperId startTime (w0 w' : World)
    (r : outcome ScrapingResult) :
  scraper w0 = None ->
  try_catch (executeScraper_try scraperId startTime)
            (executeScraper_catch scraperId startTime) w0 = (r, w') ->
  exists evs, log w' = (log w0 ++ evs)%list /\ session (scraper w') evs.
Proof.
  intros Hnone Hrun. unfold try_catch in Hrun.
  destruct (executeScraper_try scraperId startTime w0) as [[a|e] w1] eqn:Htry;
    destruct (try_block_session scraperId startTime w0 w1 _ Hnone Htry)
      as (evs1 & Hlog1 & Hses1).
  - injection Hrun as <- <-. exists evs1. auto.
  - destruct (respects_executeScraper_catch launch_free launch_free_console
                (fun s => s = scraper w1) scraperId startTime e w1 eq_refl)
      as [Hslot2 (evs2 & Hlog2 & Hfree2)].
    rewrite Hrun in Hslot2, Hlog2. simpl in Hslot2, Hlog2.
    exists (evs1 ++ evs2)%list. split.
    + rewrite Hlog2, Hlog1, app_assoc. reflexivity.
    + rewrite Hslot2. destruct Hses1 as [Hheld|[Hidle Hfree1]]; [left; exact Hheld|].
      right. split; [exact Hidle | apply Forall_app; auto].
Qed.

Lemma finally_session (w1 w2 : World) (r : outcome unit) (evs : list Event) :
  session (scraper w1) evs ->
  executeScraper_finally w1 = (r, w2) ->
  exists evs',
    log w2 = (log w1 ++ evs')%list /\ browser_released (evs ++ evs')%list.
Proof.
  unfold executeScraper_finally, cleanup, bind, get_world, this_browser, held.
  intros [Hheld|[Hidle Hfree]] Hrun.
  - rewrite Hheld in Hrun. cbv beta iota in Hrun. rewrite Hheld in Hrun.
    cbn [browser] in Hrun. cbv beta iota in Hrun.
    destruct (ext_cases BrowserClose w1)
      as [(w3 & Hgo & _ & Hlog)|(e & w3 & Hgo & _ & Hlog)]; rewrite Hgo in Hrun;
      injection Hrun as _ <-; simpl;
      eexists; (split; [exact Hlog|]);
      (apply balanced_ends; [eexists; reflexivity | discriminate]).
  - exists []. rewrite !app_nil_r.
    split; [| apply balanced_absent; exact Hfree].
    destruct (scraper w1) as [[[|]]|] eqn:Hs;
      [exfalso; apply Hidle; reflexivity | |];
      cbv beta iota in Hrun; rewrite ?Hs in Hrun; cbn [browser] in Hrun;
      cbv beta iota in Hrun; unfold ret in Hrun;
      injection Hrun as _ <-; reflexivity.
Qed.

Lemma executeScraper_browser (scraperId : string) (w w' : World)
    (r : outcome ScrapingResult) :
  executeScraper scraperId w = (r, w') ->
  exists evs, log w' = (log w ++ evs)%list /\ browser_released evs.
Proof.
  unfold executeScraper, bind, date_now, set_scraper, finally. intros Hrun.
  destruct (try_catch _ _ _) as [r1 w1] eqn:Htry.
  destruct (try_catch_session scraperId (now w) (with_scraper None w) w1 r1
              eq_refl Htry) as (evs1 & Hlog1 & Hses1).
  simpl in Hlog1.
  destruct (executeScraper_finally w1) as [r2 w2] eqn:Hfin.
  destruct (finally_session _ _ _ _ Hses1 Hfin) as (evs2 & Hlog2 & Hrel).
  assert (Hw' : w' = w2) by (destruct r2; injection Hrun; auto).
  subst w'. exists (evs1 ++ evs2)%list. split; [|exact Hrel].
  rewrite Hlog2, Hlog1, app_assoc. reflexivity.
Qed.

Lemma page_released_page es b :
  page_released es -> page_released (Ev NewPage true :: es ++ [Ev PageClose b])%list.
Proof.
  apply balanced_bracket; [eexists; reflexivity | discriminate].
Qed.

Lemma executeScraper_pages (scraperId : string) (w : World) :
  exists evs,
    log (executeScraper scraperId w).2 = (log w ++ evs)%list /\ page_released evs.
Proof.
  assert (Hother : forall e, e <> Ev NewPage true -> page_released [e])
    by (intros e He; apply balanced_single; exact He).
  destruct (respects_executeScraper page_released) with (scraperId := scraperId) (w := w)
    as [_ Hlog]; auto; try (intros; apply Hother; discriminate).
  - intros c b Hplain. apply Hother. intros Heq. injection Heq as -> _. discriminate.
  - apply page_released_page.
Qed.

(** C8. Whatever the outside does during a run of [executeScraper], in the
    stretch the run adds to the log every successful launch of a browser is
    followed by a call of the browser's [close], and every page that was
    opened by a call of the page's [close]: the session is released on the
    normal exit, when the collection fails and when anything after it
    fails. *)
Theorem executeScraper_releases (scraperId : string) (w : World) :
  exists evs,
    log (executeScraper scraperId w).2 = (log w ++ evs)%list /\
    browser_released evs /\ page_released evs.
Proof.
  destruct (executeScraper scraperId w) as [r w'] eqn:Hrun.
  destruct (executeScraper_browser scraperId w w' r Hrun) as (evs & Hlog & Hbrowser).
  destruct (executeScraper_pages scraperId w) as (evs' & Hlog' & Hpages).
  rewrite Hrun in Hlog'. simpl in *.
  assert (evs' = evs) by (rewrite Hlog in Hlog'; apply app_inv_head in Hlog'; auto).
  subst evs'. exists evs. auto.
Qed.

(** The stretch a run adds when the page load fails after the browser and
    the page were opened: both are closed. *)
Example executeScraper_releases_on_failure :
  let w := mkWorld ∅ 1700000000000
             [mkTick 10 None false; mkTick 900 None false; mkTick 10 None false;
              mkTick 40 None false; mkTick 10000 (Some (Error "Timeout 10000ms exceeded")) false]
             []
             (<["CONFIG_PARAMETER" := "/peddler/config"]>
                (<["SECRETS_NAME" := "peddler/secrets"]> ∅))
             (Some (mkAppConfig [sample_config true facebook])) (Some ∅)
             no_pages (mkConfigService None None 0) None in
  (executeScraper "bikes" w).1
    = Return (mkScrapingResult "bikes" false (Some "Timeout 10000ms exceeded")
                               [] [] 0 10960) /\
  log (executeScraper "bikes" w).2
    = [Ev GetParameter true; Ev Launch true; Ev GetSecretValue true;
       Ev NewPage true; Ev (LoadPage "bikes") false;
       ConsoleError "Error scraping Facebook Marketplace for bikes:";
       Ev PageClose true;
       ConsoleError "Scraper bikes failed:";
       Ev BrowserClose true].
Proof. split; reflexivity. Qed.

(** ** The Watch Runner: what a run gives back *)

Lemma returns_ret {A} (Phi : A -> Prop) (a : A) : Phi a -> returns Phi (ret a).
Proof. intros Ha w a' w' Hrun. injection Hrun as <- _. exact Ha. Qed.

Lemma returns_throw {A} (Phi : A -> Prop) (e : exn) : returns Phi (throw e).
Proof. intros w a w' Hrun. discriminate. Qed.

Lemma returns_bind {A B} (Phi : B -> Prop) (m : M A) (k : A -> M B) :
  (forall a, returns Phi (k a)) -> returns Phi (bind m k).
Proof.
  intros Hk w b w' Hrun. unfold bind in Hrun.
  destruct (m w) as [[a|e] w1]; [|discriminate].
  exact (Hk a w1 b w' Hrun).
Qed.

Lemma executeScraper_try_returns scraperId startTime :
  returns (fun r => r_scraperId r = scraperId /\ success r = true)
          (executeScraper_try scraperId startTime).
Proof.
  unfold executeScraper_try. apply returns_bind. intros config.
  destruct (List.find _ _) as [scraperConfig|]; [|apply returns_throw].
  destruct (negb (enabled scraperConfig)).
  - apply returns_bind. intros t. apply returns_ret. auto.
  - apply returns_bind. intros _. unfold executeScraper_collect.
    apply returns_bind. intros secrets.
    apply returns_bind. intros scraped.
    apply returns_bind. intros [news drops].
    apply returns_bind. intros _.
    apply returns_bind. intros t. apply returns_ret. auto.
Qed.

Lemma executeScraper_catch_returns scraperId startTime e w :
  exists r w',
    executeScraper_catch scraperId startTime e w = (Return r, w') /\
    failed_result scraperId r /\ executionTime r = now w - startTime.
Proof.
  eexists. eexists. split; [reflexivity|].
  unfold failed_result. simpl. eauto 10.
Qed.

(** The [try] and [catch] blocks together always come to a result. *)
Lemma try_catch_returns scraperId startTime w :
  exists r w',
    try_catch (executeScraper_try scraperId startTime)
              (executeScraper_catch scraperId startTime) w = (Return r, w') /\
    r_scraperId r = scraperId /\
    (success r = true \/ failed_result scraperId r).
Proof.
  unfold try_catch.
  destruct (executeScraper_try scraperId startTime w) as [[r|e] w1] eqn:Htry.
  - destruct (executeScraper_try_returns scraperId startTime w r w1 Htry) as [Hid Hok].
    exists r, w1. auto.
  - destruct (executeScraper_catch_returns scraperId startTime e w1)
      as (r & w2 & Hrun & Hfailed & _).
    exists r, w2. split; [exact Hrun|]. split; [apply Hfailed | right; exact Hfailed].
Qed.

(** A run of [executeScraper] gives one result, or else the exception with
    which the browser's [close] was rejected in the [finally] clause. *)
Lemma executeScraper_outcome (scraperId : string) (w : World) :
  (exists r w',
     executeScraper scraperId w = (Return r, w') /\
     r_scraperId r = scraperId /\
     (success r = true \/ failed_result scraperId r)) \/
  (exists e w' evs,
     executeScraper scraperId w = (Raise e, w') /\
     log w' = (log w ++ evs ++ [Ev BrowserClose false])%list).
Proof.
  destruct (executeScraper scraperId w) as [res w'] eqn:Hrun.
  unfold executeScraper, bind, date_now, set_scraper, finally in Hrun.
  cbv beta iota in Hrun.
  destruct (try_catch_returns scraperId (now w) (with_scraper None w))
    as (r & w1 & Htry & Hid & Hres).
  destruct (try_catch_session scraperId (now w) (with_scraper None w) w1 _
              eq_refl Htry) as (evs1 & Hlog1 & _).
  rewrite Htry in Hrun. simpl in Hlog1.
  unfold executeScraper_finally, cleanup, bind, get_world, this_browser in Hrun.
  cbv beta iota in Hrun.
  destruct (scraper w1) as [[held]|] eqn:Hslot; [destruct held|];
    cbv beta iota in Hrun; rewrite ?Hslot in Hrun; cbn [browser] in Hrun;
    cbv beta iota in Hrun.
  - destruct (ext_cases BrowserClose w1)
      as [(w2 & Hgo & _ & Hlog2)|(e & w2 & Hgo & _ & Hlog2)]; rewrite Hgo in Hrun;
      cbv beta iota in Hrun; injection Hrun as <- <-.
    + left. eexists. eexists. split; [reflexivity | auto].
    + right. exists e, w2, evs1. split; [reflexivity|].
      rewrite Hlog2, Hlog1, <- app_assoc. reflexivity.
  - injection Hrun as <- <-. left. eexists. eexists. split; [reflexivity | auto].
  - injection Hrun as <- <-. left. eexists. eexists. split; [reflexivity | auto].
Qed.

Lemma executeScraper_id (scraperId : string) (w w' : World) (r : ScrapingResult) :
  executeScraper scraperId w = (Return r, w') -> r_scraperId r = scraperId.
Proof.
  intros Hrun.
  destruct (executeScraper_outcome scraperId w)
    as [(r0 & w0 & Hrun0 & Hid & _)|(e & w0 & evs & Hrun0 & _)];
    rewrite Hrun in Hrun0; [injection Hrun0 as <- _; exact Hid | discriminate].
Qed.

(** C3. The browser's [close] is awaited in the [finally] clause, outside
    the reach of the [catch]: in a world where the run goes well and that
    last call is rejected, [executeScraper] gives no result and throws the
    rejection at its caller. *)
Theorem executeScraper_close_rejection_escapes :
  (executeScraper "bikes" close_rejecting_world).1
    = Raise (Error "browser.close: Timeout 30000ms exceeded") /\
  log (executeScraper "bikes" close_rejecting_world).2
    = [Ev GetParameter true; Ev Launch true; Ev GetSecretValue true;
       Ev NewPage true; Ev (LoadPage "bikes") true; Ev PageClose true;
       Ev BrowserClose false].
Proof. split; reflexivity. Qed.

(** ** Waves *)

Lemma chunks_concat {A} (k : nat) :
  (1 <= k)%nat ->
  forall fuel (l : list A), (length l < fuel)%nat -> concat (chunks fuel k l) = l.
Proof.
  intros Hk. induction fuel as [|fuel IH]; intros l Hlen; [lia|].
  destruct l as [|x l]; [reflexivity|].
  cbn [chunks concat]. rewrite IH.
  - apply take_drop.
  - rewrite length_drop. simpl in *. lia.
Qed.

Lemma chunks_length {A} (k : nat) :
  (1 <= k)%nat ->
  forall fuel (l : list A), (length l < fuel)%nat ->
    length (chunks fuel k l) = ceil_div (length l) k.
Proof.
  intros Hk. unfold ceil_div.
  induction fuel as [|fuel IH]; intros l Hlen; [lia|].
  destruct l as [|x l].
  - simpl. symmetry. apply Nat.div_small. lia.
  - cbn [chunks length]. rewrite IH by (rewrite length_drop; simpl in *; lia).
    rewrite length_drop. cbn [length].
    destruct (Nat.le_gt_cases (S (length l)) k) as [Hle|Hgt].
    + replace (S (length l) - k)%nat with 0%nat by lia.
      rewrite (Nat.div_small (0 + k - 1)) by lia.
      apply (Nat.div_unique _ _ 1%nat (length l)); lia.
    + replace (S (length l) + k - 1)%nat
        with ((S (length l) - k + k - 1) + 1 * k)%nat by lia.
      rewrite Nat.div_add by lia. lia.
Qed.

Lemma chunks_sizes {A} (k : nat) :
  (1 <= k)%nat ->
  forall fuel (l : list A),
    Forall (fun b => (1 <= length b <= k)%nat) (chunks fuel k l).
Proof.
  intros Hk. induction fuel as [|fuel IH]; intros l; [constructor|].
  destruct l as [|x l]; [constructor|].
  cbn [chunks]. constructor; [|apply IH].
  rewrite length_take. simpl. lia.
Qed.

Lemma chunks_full {A} (k : nat) :
  forall fuel (l : list A) j b,
    chunks fuel k l !! j = Some b ->
    (S j < length (chunks fuel k l))%nat ->
    length b = k.
Proof.
  induction fuel as [|fuel IH]; intros l j b Hj Hlast; [discriminate|].
  destruct l as [|x l]; [discriminate|].
  cbn [chunks] in *. destruct j as [|j].
  - injection Hj as <-. rewrite length_take.
    simpl in Hlast.
    destruct fuel as [|fuel]; [simpl in Hlast; lia|].
    destruct (drop k (x :: l)) as [|y rest] eqn:Hdrop; [simpl in Hlast; lia|].
    assert (Hlen : length (drop k (x :: l)) = S (length rest))
      by (rewrite Hdrop; reflexivity).
    rewrite length_drop in Hlen. lia.
  - simpl in Hj, Hlast. apply (IH _ j b Hj). lia.
Qed.

Lemma schedule_cooldowns (waves : list (list ScraperConfig)) :
  forall n, cooldowns (schedule n waves) = (length waves - 1)%nat.
Proof.
  unfold cooldowns.
  induction waves as [|b rest IH]; intros n; [reflexivity|].
  destruct rest as [|b' rest]; [reflexivity|].
  change (schedule n (b :: b' :: rest))
    with (Batch n (map id b) :: Ev (Sleep 2000) true :: schedule (S n) (b' :: rest)).
  cbn [List.filter is_cooldown length]. rewrite IH. simpl. lia.
Qed.

Lemma cooldowns_sched_view (evs : list Event) :
  cooldowns (sched_view evs) = cooldowns evs.
Proof.
  unfold cooldowns, sched_view.
  induction evs as [|e evs IH]; [reflexivity|].
  destruct e as [[] b| |]; simpl; auto.
Qed.

Lemma sched_view_app (a b : list Event) :
  sched_view (a ++ b) = (sched_view a ++ sched_view b)%list.
Proof. unfold sched_view. apply List.filter_app. Qed.

Lemma sched_view_free (evs : list Event) :
  Forall (fun e => is_sched e = false) evs -> sched_view evs = [].
Proof.
  unfold sched_view. induction 1 as [|e evs He _ IH]; [reflexivity|].
  simpl. rewrite He. exact IH.
Qed.

(** ** The Batch Scheduler *)

Lemma executeScraper_sched_free (scraperId : string) (w : World) :
  exists evs,
    log (executeScraper scraperId w).2 = (log w ++ evs)%list /\ sched_view evs = [].
Proof.
  destruct (respects_executeScraper (Forall (fun e => is_sched e = false)))
    with (scraperId := scraperId) (w := w) as [_ (evs & Hlog & Hfree)];
    try solve [intros; repeat constructor].
  - intros c b Hplain. repeat constructor. destruct c; try reflexivity; discriminate.
  - intros es b Hes. constructor; [reflexivity|].
    apply Forall_app. split; [exact Hes | repeat constructor].
  - exists evs. split; [exact Hlog | apply sched_view_free; exact Hfree].
Qed.

(** A wave settles: every watcher of the batch is run, whatever became of
    the ones before it, and each leaves one result under its own id. *)
Lemma wave_settles (batch : list ScraperConfig) :
  forall w, exists outs w' evs,
    allSettled (map (fun s => executeScraper (id s)) batch) w = (Return outs, w') /\
    log w' = (log w ++ evs)%list /\ sched_view evs = [] /\
    length outs = length batch /\
    map r_scraperId (collect batch outs) = map id batch /\
    (forall j s reason, batch !! j = Some s -> outs !! j = Some (Raise reason) ->
       exists r, collect batch outs !! j = Some r /\ failed_result (id s) r).
Proof.
  induction batch as [|s batch IH]; intros w.
  - exists [], w, []. rewrite app_nil_r. repeat split; auto.
    intros j s reason Hj. destruct j; discriminate.
  - cbn [map allSettled]. unfold bind, settle.
    destruct (executeScraper_sched_free (id s) w) as (evs1 & Hlog1 & Hfree1).
    destruct (executeScraper (id s) w) as [r w1] eqn:Hrun. simpl in Hlog1.
    destruct (IH w1) as (outs & w2 & evs2 & Hrest & Hlog2 & Hfree2 & Hlen & Hids & Hfail).
    rewrite Hrest. cbv beta iota. unfold ret.
    exists (r :: outs), w2, (evs1 ++ evs2)%list. repeat split.
    + rewrite Hlog2, Hlog1, app_assoc. reflexivity.
    + rewrite sched_view_app, Hfree1, Hfree2. reflexivity.
    + simpl. congruence.
    + destruct r as [res|e]; cbn [collect map]; rewrite Hids; [|reflexivity].
      rewrite (executeScraper_id _ _ _ _ Hrun). reflexivity.
    + intros j s' reason Hj Hout. destruct j as [|j].
      * injection Hj as <-. injection Hout as ->. cbn [collect].
        eexists. split; [reflexivity|].
        unfold failed_result. simpl. eauto 10.
      * simpl in Hj, Hout. destruct (Hfail j s' reason Hj Hout) as (r' & Hr' & Hfailed).
        exists r'. split; [|exact Hfailed].
        destruct r; exact Hr'.
Qed.

Lemma slice_take_drop {A} (i k : nat) (l : list A) :
  slice i (i + k) l = take k (drop i l).
Proof. unfold slice. f_equal. lia. Qed.

Lemma report_failed_log (batch : list ScraperConfig) :
  forall (outs : list (outcome ScrapingResult)) (w : World),
  exists w' evs,
    report_failed batch outs w = (Return tt, w') /\
    log w' = (log w ++ evs)%list /\
    Forall (fun e => exists line, e = ConsoleError line) evs.
Proof.
  induction batch as [|s batch IH]; intros outs w.
  - exists w, []. rewrite app_nil_r. destruct outs; auto.
  - destruct outs as [|[r|e] outs]; cbn [report_failed].
    + exists w, []. rewrite app_nil_r. auto.
    + apply IH.
    + unfold bind, console_error, emit. cbv beta iota.
      match goal with
      | |- context [report_failed batch outs ?w0] =>
          destruct (IH outs w0) as (w' & evs & -> & Hlog & Hlines)
      end.
      eexists. eexists. split; [reflexivity|]. split.
      * rewrite Hlog. simpl. rewrite <- app_assoc. reflexivity.
      * constructor; [eauto | exact Hlines].
Qed.

Lemma sched_view_lines (evs : list Event) :
  Forall (fun e => exists line, e = ConsoleError line) evs -> sched_view evs = [].
Proof.
  intros Hlines. apply sched_view_free.
  eapply List.Forall_impl; [|exact Hlines]. intros e (line & ->). reflexivity.
Qed.

(** The loop of the handler from index [i] on does what the specification
    says of the waves still to come. *)
Lemma run_batches_spec (k : nat) (es : list ScraperConfig) :
  (1 <= k)%nat ->
  forall fuel i results w,
    (length es - i < fuel)%nat ->
    exists res w' evs,
      run_batches fuel k es i results w = (Return (Some (results ++ res)%list), w') /\
      run_waves (i / k + 1) (chunks fuel k (drop i es)) results w
        = (Return (results ++ res)%list, w') /\
      log w' = (log w ++ evs)%list /\
      sched_view evs = schedule (i / k + 1) (chunks fuel k (drop i es)) /\
      map r_scraperId res = map id (drop i es).
Proof.
  intros Hk. induction fuel as [|fuel IH]; intros i results w Hfuel; [lia|].
  destruct (Nat.ltb_spec i (length es)) as [Hlt|Hge].
  - set (batch := take k (drop i es)).
    assert (Hcut : drop i es = (batch ++ drop (i + k) es)%list).
    { unfold batch. rewrite <- drop_drop. symmetry. apply take_drop. }
    assert (Hnext : ((i + k) / k + 1 = S (i / k + 1))%nat).
    { replace (i + k)%nat with (i + 1 * k)%nat by lia.
      rewrite Nat.div_add by lia. lia. }
    assert (Hchunks : chunks (S fuel) k (drop i es)
                      = batch :: chunks fuel k (drop (i + k) es)).
    { cbn [chunks]. destruct (drop i es) as [|x rest] eqn:Hdrop.
      - assert (Hl : length (drop i es) = 0%nat) by (rewrite Hdrop; reflexivity).
        rewrite length_drop in Hl. lia.
      - unfold batch. rewrite <- drop_drop, ?Hdrop. reflexivity. }
    rewrite Hchunks. cbn [run_batches run_waves].
    replace (i <? length es)%nat with true by (symmetry; apply Nat.ltb_lt; exact Hlt).
    rewrite slice_take_drop. fold batch.
    unfold bind at 1 5. unfold emit at 1 2. cbv beta iota.
    set (w1 := with_log _ w).
    unfold bind at 1 4.
    destruct (wave_settles batch w1)
      as (outs & w2 & evs2 & Hwave & Hlog2 & Hfree2 & Hlen & Hids & _).
    rewrite Hwave. cbv beta iota.
    unfold bind at 1 3.
    destruct (report_failed_log batch outs w2) as (w3 & evs3 & Hrep & Hlog3 & Hlines3).
    rewrite Hrep. cbv beta iota.
    pose proof (sched_view_lines _ Hlines3) as Hfree3.
    unfold bind at 1 2.
    destruct (Nat.ltb_spec (i + k) (length es)) as [Hmore|Hlast].
    + assert (Hrest : exists b' rest', chunks fuel k (drop (i + k) es) = b' :: rest').
      { destruct fuel as [|fuel']; [lia|]. cbn [chunks].
        destruct (drop (i + k) es) as [|x rest] eqn:Hdrop; [|eauto].
        assert (Hl : length (drop (i + k) es) = 0%nat) by (rewrite Hdrop; reflexivity).
        rewrite length_drop in Hl. lia. }
      destruct Hrest as (b' & rest' & Hrest).
      destruct (IH (i + k)%nat (results ++ collect batch outs)%list
                   (sleep 2000 w3).2 ltac:(lia))
        as (res & w4 & evs4 & Hrun & Hspec & Hlog4 & Hview & Hres).
      rewrite Hnext in Hspec, Hview. rewrite Hrest in *.
      unfold sleep at 1 2. cbv beta iota.
      unfold sleep in Hrun, Hspec, Hlog4. cbn [snd] in Hrun, Hspec, Hlog4.
      rewrite Hrun, Hspec.
      exists (collect batch outs ++ res)%list, w4.
      exists (Batch (i / k + 1) (map id batch) :: evs2 ++ evs3
              ++ Ev (Sleep 2000) true :: evs4)%list.
      split; [rewrite app_assoc; reflexivity|].
      split; [rewrite app_assoc; reflexivity|]. split; [|split].
      * rewrite Hlog4. simpl. rewrite Hlog3, Hlog2. unfold w1. simpl.
        rewrite <- !app_assoc. reflexivity.
      * change (sched_view (Batch (i / k + 1) (map id batch) :: evs2 ++ evs3
                            ++ Ev (Sleep 2000) true :: evs4))
          with (Batch (i / k + 1) (map id batch)
                :: sched_view (evs2 ++ evs3 ++ Ev (Sleep 2000) true :: evs4)).
        rewrite !sched_view_app, Hfree2, Hfree3.
        change (sched_view (Ev (Sleep 2000) true :: evs4))
          with (Ev (Sleep 2000) true :: sched_view evs4).
        rewrite Hview. reflexivity.
      * rewrite map_app, Hids, Hres, <- map_app. f_equal. symmetry. exact Hcut.
    + assert (Hempty : drop (i + k) es = []) by (apply drop_ge; lia).
      assert (Hrest : chunks fuel k (drop (i + k) es) = [])
        by (rewrite Hempty; destruct fuel; reflexivity).
      rewrite Hrest.
      destruct (IH (i + k)%nat (results ++ collect batch outs)%list w3 ltac:(lia))
        as (res & w4 & evs4 & Hrun & Hspec & Hlog4 & Hview & Hres).
      rewrite Hrest in Hspec, Hview. cbn [run_waves] in Hspec.
      rewrite Hempty in Hres. destruct res as [|r res]; [|discriminate Hres].
      unfold ret in Hspec. injection Hspec as _ Hw4. subst w4.
      unfold ret at 1 2. cbv beta iota. rewrite Hrun. cbn [run_waves]. unfold ret.
      exists (collect batch outs ++ [])%list, w3.
      exists (Batch (i / k + 1) (map id batch) :: evs2 ++ evs3)%list.
      rewrite !app_nil_r.
      split; [reflexivity|].
      split; [reflexivity|]. split; [|split].
      * rewrite Hlog3, Hlog2. unfold w1. simpl. rewrite <- !app_assoc. reflexivity.
      * change (sched_view (Batch (i / k + 1) (map id batch) :: evs2 ++ evs3))
          with (Batch (i / k + 1) (map id batch) :: sched_view (evs2 ++ evs3)).
        rewrite sched_view_app, Hfree2, Hfree3. reflexivity.
      * rewrite Hids, Hcut, Hempty, app_nil_r. reflexivity.
  - cbn [run_batches].
    replace (i <? length es)%nat with false by (symmetry; apply Nat.ltb_ge; exact Hge).
    rewrite (drop_ge es i) by lia.
    replace (chunks (S fuel) k []) with (@nil (list ScraperConfig)) by reflexivity.
    exists [], w, []. rewrite !app_nil_r. repeat split; reflexivity.
Qed.

(** C4. With a concurrency limit [k >= 1] the scheduler cuts the [n]
    enabled watchers into [ceil (n / k)] consecutive waves that keep their
    order, each of at most [k] watchers and all but the last of exactly
    [k], and its loop does, result and world, what the specification says
    of these waves: each is announced, all its watchers are run and awaited
    before the next is announced, with a pause between two waves and none
    after the last, so that the pause is taken [ceil (n / k) - 1] times;
    every watcher leaves one result, in order.  ([fuel] only has to exceed
    [n] for the loop to come to its end.) *)
Theorem scheduler_waves (k fuel : nat) (w w1 : World)
    (enabledScrapers : list ScraperConfig) (self' : ConfigService) :
  (1 <= k)%nat ->
  getEnabledScrapers_of fresh_configService w = (Return (enabledScrapers, self'), w1) ->
  (length enabledScrapers < fuel)%nat ->
  exists results w' evs waves,
    handler fuel k w = (Return (Some results), w') /\
    run_waves 1 waves [] w1 = (Return results, w') /\
    log w' = (log w1 ++ evs)%list /\
    concat waves = enabledScrapers /\
    length waves = ceil_div (length enabledScrapers) k /\
    Forall (fun b => (1 <= length b <= k)%nat) waves /\
    (forall j b, waves !! j = Some b -> (S j < length waves)%nat -> length b = k) /\
    sched_view evs = schedule 1 waves /\
    cooldowns evs = (length waves - 1)%nat /\
    map r_scraperId results = map id enabledScrapers.
Proof.
  intros Hk Hcfg Hfuel.
  unfold handler, try_catch, bind. unfold fresh_configService in Hcfg. rewrite Hcfg.
  cbv beta iota.
  assert (Hmarks : forall evs,
            sched_view evs = schedule 1 (chunks fuel k enabledScrapers) ->
            cooldowns evs = (length (chunks fuel k enabledScrapers) - 1)%nat).
  { intros evs Hview. rewrite <- cooldowns_sched_view, Hview. apply schedule_cooldowns. }
  destruct (Nat.eqb_spec (length enabledScrapers) 0) as [Hnone|Hsome].
  - exists [], w1, [], (chunks fuel k enabledScrapers).
    assert (Hnil : enabledScrapers = []) by (destruct enabledScrapers; [auto | discriminate]).
    rewrite app_nil_r.
    assert (Hchunks : chunks fuel k enabledScrapers = [])
      by (rewrite Hnil; destruct fuel; reflexivity).
    split; [reflexivity|]. split; [rewrite Hchunks; reflexivity|].
    split; [reflexivity|].
    split; [apply chunks_concat; assumption|].
    split; [apply chunks_length; assumption|].
    split; [apply chunks_sizes; assumption|].
    split; [apply chunks_full|].
    split; [rewrite Hchunks; reflexivity|].
    split; [apply Hmarks; rewrite Hchunks; reflexivity|].
    rewrite Hnil. reflexivity.
  - destruct (run_batches_spec k enabledScrapers Hk fuel 0%nat [] w1 ltac:(lia))
      as (res & w' & evs & Hrun & Hspec & Hlog & Hview & Hids).
    rewrite Hrun. rewrite Nat.Div0.div_0_l in Hspec, Hview.
    rewrite drop_0 in Hspec, Hview, Hids.
    exists res, w', evs, (chunks fuel k enabledScrapers).
    split; [reflexivity|]. split; [exact Hspec|]. split; [exact Hlog|].
    split; [apply chunks_concat; assumption|].
    split; [apply chunks_length; assumption|].
    split; [apply chunks_sizes; assumption|].
    split; [apply chunks_full|].
    split; [exact Hview|]. split; [exact (Hmarks evs Hview) | exact Hids].
Qed.

Lemma scheduler_waves_witness :
  exists results w' evs waves,
    handler 8 3 seven_world = (Return (Some results), w') /\
    run_waves 1 waves [] (getEnabledScrapers_of fresh_configService seven_world).2
      = (Return results, w') /\
    concat waves = seven_watchers /\
    length waves = 3%nat /\
    cooldowns evs = 2%nat /\
    sched_view evs = schedule 1 waves.
Proof.
  destruct (scheduler_waves 3 8 seven_world
              (getEnabledScrapers_of fresh_configService seven_world).2
              seven_watchers
              (mkConfigService (Some (mkAppConfig seven_watchers)) None
                               (1700000000000 + CACHE_TTL)))
    as (results & w' & evs & waves & Hrun & Hspec & _ & Hcat & Hlen & _ & _ & Hview
        & Hcool & _).
  - lia.
  - reflexivity.
  - simpl. lia.
  - exists results, w', evs, waves.
    split; [exact Hrun|]. split; [exact Hspec|]. split; [exact Hcat|].
    split; [exact Hlen|]. split; [|exact Hview].
    rewrite Hcool, Hlen. reflexivity.
Defined.

(** Seven watchers, three at a time: waves of 3, 3 and 1 and two pauses. *)
Example seven_watchers_three_at_a_time :
  sched_view (log (handler 8 3 seven_world).2)
  = [Batch 1 ["w1"; "w2"; "w3"]; Ev (Sleep 2000) true;
     Batch 2 ["w4"; "w5"; "w6"]; Ev (Sleep 2000) true;
     Batch 3 ["w7"]].
Proof. reflexivity. Qed.

(** ** Observations of a stored item *)


(** The same observation through [processListings]: at the boundary, 5000
    to 4500 with a threshold of 10%, the bike comes back as a price drop. *)
Example drop_at_threshold :
  let run := processListings [observed_bike 4500 1700000000000]
                             (sample_config true facebook) bike_world in
  run.1 = Return ([], [mkListing "bikes" "1001" "Road bike" 4500 (Some 5000) "Austin"
                         "https://www.facebook.com/marketplace/item/1001" None
                         1690000000000 1700000000000 1702592000]).
Proof. reflexivity. Qed.

(** A drop of 8% stays under the threshold of 10%: nothing is raised, and
    the record moves to the new price. *)
Example drop_below_threshold :
  let run := processListings [observed_bike 4600 1700000000000]
                             (sample_config true facebook) bike_world in
  run.1 = Return ([], []) /\
  (price <$> table run.2 !! ("bikes", "1001")) = Some 4600 /\
  (previousPrice <$> table run.2 !! ("bikes", "1001")) = Some (Some 5000).
Proof. repeat split; reflexivity. Qed.

(** What the refresh of an item seen again at its stored price writes. *)
Lemma same_price_refresh (config : ScraperConfig) (acc : list Listing * list Listing)
    (listing stored : Listing) (w : World) :
  calm w ->
  table w !! key_of listing = Some stored ->
  price listing = price stored ->
  exists w' n,
    processListing config acc listing w = (Return acc, w') /\
    table w' !! key_of listing
      = Some (update_item (scraperId listing) (listingId listing) (price listing)
                          (price stored) (lastSeen listing)
                          (n / 1000 + LISTING_TTL) (Some stored)).
Proof.
  intros Hcalm Hlook Hsame. unfold key_of in *.
  unfold processListing, try_catch, bind.
  destruct (getListing_calm (scraperId listing) (listingId listing) w Hcalm)
    as (w1 & Hrun1 & Htable1 & Hcalm1 & _).
  rewrite Hrun1, Hlook. rewrite <- Htable1 in Hlook.
  destruct (updateListingPrice_calm (scraperId listing) (listingId listing)
              (price listing) (lastSeen listing) w1 stored Hcalm1 Hlook)
    as (w2 & n & Hrun2 & Htable2 & _).
  cbv beta iota.
  replace (price listing =? price stored) with true
    by (symmetry; apply Z.eqb_eq; exact Hsame).
  cbv beta iota delta [negb]. simpl in Hrun2.
  rewrite Hrun2. exists w2, n. split; [reflexivity|].
  rewrite Htable2. apply lookup_insert_eq.
Qed.

(** C2. The same bike seen twice at its stored price of 5000: neither
    observation raises an event and each moves [lastSeen] and the expiry,
    but the refresh goes through [updateListingPrice], which writes the
    price it finds as [previousPrice]: a record that had none gets 5000,
    and a record that had 6000 on file loses it to 5000. *)
Theorem same_price_refresh_writes_previousPrice :
  let config := sample_config true facebook in
  let first := processListings [observed_bike 5000 1700000000000] config bike_world in
  let second := processListings [observed_bike 5000 1700000300000] config first.2 in
  let again := processListings [observed_bike 5000 1700000000000] config repriced_world in
  previousPrice stored_bike = None /\
  first.1 = Return ([], []) /\ second.1 = Return ([], []) /\
  table first.2 !! ("bikes", "1001")
    = Some (mkListing "bikes" "1001" "Road bike" 5000 (Some 5000) "Austin"
              "https://www.facebook.com/marketplace/item/1001" None
              1690000000000 1700000000000 1702592000) /\
  table second.2 !! ("bikes", "1001")
    = Some (mkListing "bikes" "1001" "Road bike" 5000 (Some 5000) "Austin"
              "https://www.facebook.com/marketplace/item/1001" None
              1690000000000 1700000300000 1702592000) /\
  previousPrice repriced_bike = Some 6000 /\
  again.1 = Return ([], []) /\
  (previousPrice <$> table again.2 !! ("bikes", "1001")) = Some (Some 5000).
Proof. repeat split; reflexivity. Qed.

(** ** An update that finds no record *)

(** [evaluate] settles a conjunction of closed equations by running both
    sides. *)
Ltac evaluate :=
  cbv zeta;
  repeat match goal with |- _ /\ _ => split end;
  vm_compute; reflexivity.

Lemma swept_world_run :
  let listing := observed_bike 4000 1700000000000 in
  let found := getListing "bikes" "1001" swept_world in
  let update := updateListingPrice "bikes" "1001" 4000 1700000000000 found.2 in
  found = (Return (Some stored_bike), found.2) /\
  getListing "bikes" "1001" found.2
    = (Return None, (getListing "bikes" "1001" found.2).2) /\
  update = (Return None, update.2) /\
  js_ge (js_div (5000 - 4000) 5000) (priceDropThreshold (sample_config true facebook))
    = true /\
  processListings [listing] (sample_config true facebook) swept_world
    = (Return ([], []), update.2) /\
  log (processListings [listing] (sample_config true facebook) swept_world).2
    = [Ev (DbGet "bikes" "1001") true; Ev (DbGet "bikes" "1001") true].
Proof. evaluate. Qed.


(** C7, as stated, fails: in [swept_world] the runner finds the bike,
    [updateListingPrice] then comes back empty, and the run ends with no
    error line in the log. *)
Lemma absent_update_goes_unreported : ~ absent_update_is_reported.
Proof.
  intros Hclaim.
  destruct swept_world_run as (Hfound & _ & Hupdate & _ & _ & Hlog).
  destruct (Hclaim (sample_config true facebook) (observed_bike 4000 1700000000000)
                   swept_world stored_bike _ _ Hfound Hupdate) as (line & Hin).
  rewrite Hlog in Hin.
  destruct Hin as [Hin|[Hin|[]]]; discriminate.
Qed.

(** C7, amended. [updateListingPrice] returns nothing when it finds no
    record under the key; and when that happens for an item the runner had
    found, the turn of the loop ends there, with the lists as they were
    and no more done to the world than the update did: no event, no error
    line, and the loop goes on to the next item. *)
Theorem absent_update_is_skipped :
  (forall sid lid newPrice seen w w1,
     getListing sid lid w = (Return None, w1) ->
     updateListingPrice sid lid newPrice seen w = (Return None, w1)) /\
  (forall config acc listing w existing w1 w2,
     getListing (scraperId listing) (listingId listing) w = (Return (Some existing), w1) ->
     updateListingPrice (scraperId listing) (listingId listing)
                        (price listing) (lastSeen listing) w1 = (Return None, w2) ->
     processListing config acc listing w = (Return acc, w2)).
Proof.
  split.
  - intros sid lid newPrice seen w w1 Hget.
    unfold updateListingPrice, try_catch, bind. rewrite Hget. reflexivity.
  - intros config acc listing w existing w1 w2 Hget Hupdate.
    unfold processListing, try_catch, bind. rewrite Hget.
    destruct (negb (price listing =? price existing)); rewrite Hupdate; reflexivity.
Qed.

Lemma absent_update_is_skipped_witness :
  let found := getListing "bikes" "1001" swept_world in
  updateListingPrice "bikes" "1001" 4000 1700000000000 found.2
    = (Return None, (getListing "bikes" "1001" found.2).2) /\
  processListing (sample_config true facebook) ([], [])
                 (observed_bike 4000 1700000000000) swept_world
    = (Return ([], []),
       (updateListingPrice "bikes" "1001" 4000 1700000000000 found.2).2).
Proof.
  destruct absent_update_is_skipped as [Hnone Hskip].
  destruct swept_world_run as (Hfound & Hgone & Hupdate & _).
  exact (conj (Hnone "bikes" "1001" 4000 1700000000000 _ _ Hgone)
              (Hskip (sample_config true facebook) ([], [])
                     (observed_bike 4000 1700000000000) swept_world stored_bike
                     _ _ Hfound Hupdate)).
Defined.

(** ** Failures inside a wave *)

(** The collector of "B" fails on its page: "A" and "C" complete, and the
    summary counts one failure out of three. *)
Example fault_isolation_in_a_wave :
  let w := three_watchers (repeat fulfilled 14 ++ [rejected "net::ERR_TIMED_OUT"]) in
  exists results,
    (handler 4 3 w).1 = Return (Some results) /\
    map (fun r => (r_scraperId r, success r, error r)) results
    = [("A", true, None); ("B", false, Some "net::ERR_TIMED_OUT"); ("C", true, None)] /\
    summarize 3 results = mkSummary 3 2 1 1 1 0.
Proof. eexists. split; [vm_compute; reflexivity | split; reflexivity]. Qed.

(** The browser of "B" does not close: [executeScraper] rejects, and the
    scheduler writes a console line and the failed result itself, with no
    execution time. *)
Example rejected_watcher_is_recorded :
  let w := three_watchers (repeat fulfilled 16
                           ++ [rejected "browser.close: Target closed"]
                           ++ repeat fulfilled 5) in
  exists results,
    (handler 4 3 w).1 = Return (Some results) /\
    map (fun r => (r_scraperId r, success r, error r, executionTime r)) results
    = [("A", true, None, 100);
       ("B", false, Some "browser.close: Target closed", 0);
       ("C", true, None, 40)] /\
    console_lines (log (handler 4 3 w).2) = ["Scraper B failed:"].
Proof.
  eexists. split; [vm_compute; reflexivity | split; [reflexivity|]].
  vm_compute. reflexivity.
Qed.

(** * More of the code *)

(** ** The cookies *)

Lemma js_split_first (sep : ascii) (s : string) :
  exists piece pieces,
    js_split sep s = piece :: pieces /\ ~ In sep (list_ascii_of_string piece).
Proof.
  induction s as [|c rest (piece & pieces & Hsplit & Hfree)]; simpl.
  - exists EmptyString, []. split; [reflexivity | intros []].
  - destruct (Ascii.eqb_spec c sep) as [->|Hne].
    + eexists. eexists. split; [reflexivity | intros []].
    + rewrite Hsplit. exists (String c piece), pieces. split; [reflexivity|].
      simpl. intros [Heq|Hin]; [exact (Hne Heq) | exact (Hfree Hin)].
Qed.

Lemma js_split_whole (sep : ascii) (s : string) :
  ~ In sep (list_ascii_of_string s) -> js_split sep s = [s].
Proof.
  induction s as [|c rest IH]; simpl; intros Hfree; [reflexivity|].
  destruct (Ascii.eqb_spec c sep) as [->|Hne].
  - exfalso. apply Hfree. left. reflexivity.
  - rewrite IH; [reflexivity|]. intros Hin. apply Hfree. right. exact Hin.
Qed.

Lemma parseCookie_value (cookie : string) : cookie_value (parseCookie cookie) = "".
Proof.
  unfold parseCookie.
  destruct (js_split_first "="%char (trim cookie)) as (piece & pieces & -> & Hfree).
  simpl hd. rewrite (js_split_whole _ _ Hfree). reflexivity.
Qed.

(** X1. The cookie header never yields a cookie: [parseCookieString] cuts
    each cookie at its equals signs, keeps the first piece, and looks for
    the value in that piece cut again, where there is none; every cookie
    has an empty value and is filtered out, so the answer is the empty
    array for every input. *)
Theorem parseCookieString_empty (cookieString : string) :
  parseCookieString cookieString = [].
Proof.
  unfold parseCookieString.
  induction (js_split ";"%char cookieString) as [|cookie cookies IH]; [reflexivity|].
  cbn [map List.filter]. rewrite parseCookie_value, andb_false_r. exact IH.
Qed.

(** ** Escaping *)

Lemma append_assoc (a b c : string) : (a +:+ b) +:+ c = a +:+ (b +:+ c).
Proof.
  induction a as [|d a IH]; [reflexivity|].
  rewrite !append_cons, IH. reflexivity.
Qed.

Lemma replace_all_app (c : ascii) (rep a b : string) :
  replace_all c rep (a +:+ b) = replace_all c rep a +:+ replace_all c rep b.
Proof.
  induction a as [|d a IH]; [reflexivity|].
  rewrite append_cons. simpl. destruct (Ascii.eqb d c).
  - rewrite IH, append_assoc. reflexivity.
  - rewrite IH, append_cons. reflexivity.
Qed.

Lemma escape_each_cons (c : ascii) (text : string) :
  escapeHtml (String c text) = escape_char c +:+ escapeHtml text.
Proof.
  unfold escapeHtml, escape_char.
  cbn [replace_all].
  destruct (Ascii.eqb_spec c "&"%char) as [->|Hamp].
  { rewrite !replace_all_app. reflexivity. }
  cbn [replace_all].
  destruct (Ascii.eqb_spec c "<"%char) as [->|Hlt].
  { rewrite !replace_all_app. reflexivity. }
  cbn [replace_all].
  destruct (Ascii.eqb_spec c ">"%char) as [->|Hgt].
  { rewrite !replace_all_app. reflexivity. }
  cbn [replace_all].
  destruct (Ascii.eqb_spec c double_quote) as [->|Hdq].
  { rewrite !replace_all_app. reflexivity. }
  cbn [replace_all].
  destruct (Ascii.eqb_spec c "'"%char) as [->|Hap]; reflexivity.
Qed.

Lemma escape_char_safe (c d : ascii) :
  In d (list_ascii_of_string (escape_char c)) -> markup d = false.
Proof.
  unfold escape_char.
  destruct (Ascii.eqb_spec c "&"%char);
    [simpl; intros H; repeat (destruct H as [<-|H]; [reflexivity|]); destruct H|].
  destruct (Ascii.eqb_spec c "<"%char);
    [simpl; intros H; repeat (destruct H as [<-|H]; [reflexivity|]); destruct H|].
  destruct (Ascii.eqb_spec c ">"%char);
    [simpl; intros H; repeat (destruct H as [<-|H]; [reflexivity|]); destruct H|].
  destruct (Ascii.eqb_spec c double_quote);
    [simpl; intros H; repeat (destruct H as [<-|H]; [reflexivity|]); destruct H|].
  destruct (Ascii.eqb_spec c "'"%char);
    [simpl; intros H; repeat (destruct H as [<-|H]; [reflexivity|]); destruct H|].
  simpl. intros [<-|[]]. unfold markup.
  repeat match goal with
         | H : c <> ?x |- context [Ascii.eqb c ?x] =>
             destruct (Ascii.eqb_spec c x); [contradiction|]
         end.
  reflexivity.
Qed.

Lemma list_ascii_app (a b : string) :
  list_ascii_of_string (a +:+ b) = (list_ascii_of_string a ++ list_ascii_of_string b)%list.
Proof.
  induction a as [|c a IH]; [reflexivity|].
  rewrite append_cons. simpl. rewrite IH. reflexivity.
Qed.

(** X2. The five global replacements of [escapeHtml] come to one pass over
    the text in which each character is replaced by its entity (the
    ampersands of the entities written by the first replacement are not
    escaped again), and the text that comes out holds none of the
    characters <, >, the double quote and the apostrophe. *)
Theorem escapeHtml_single_pass (text : string) :
  escapeHtml text = escape_each text /\
  forall c, In c (list_ascii_of_string (escapeHtml text)) -> markup c = false.
Proof.
  assert (Heach : escapeHtml text = escape_each text).
  { induction text as [|c text IH]; [reflexivity|].
    rewrite escape_each_cons, IH. reflexivity. }
  split; [exact Heach|]. rewrite Heach. clear Heach.
  induction text as [|c text IH]; simpl; [intros c []|].
  intros d. rewrite list_ascii_app, in_app_iff.
  intros [Hin|Hin]; [exact (escape_char_safe c d Hin) | exact (IH d Hin)].
Qed.

(** ** Helpers *)

Lemma pauses_app (a b : list Event) : pauses (a ++ b) = (pauses a ++ pauses b)%list.
Proof. unfold pauses. apply omap_app. Qed.

Lemma retry_from_pauses {T} (text : string) (fn : M T) (delay : Z) :
  (forall w, exists evs, log (fn w).2 = (log w ++ evs)%list /\ pauses evs = []) ->
  forall remaining i w, exists evs j,
    log (retry_from text fn delay remaining i w).2 = (log w ++ evs)%list /\
    (j <= remaining)%nat /\
    pauses evs = map (fun k => delay * 2 ^ Z.of_nat k) (seq i j) /\
    (forall e, (retry_from text fn delay remaining i w).1 = Raise e ->
               j = remaining /\ exists message, e = Error message).
Proof.
  intros Hfn. induction remaining as [|remaining IH]; intros i w;
    destruct (Hfn w) as (evs & Hlog & Hquiet);
    cbn [retry_from]; unfold try_catch;
    destruct (fn w) as [[a|error] w1]; cbn [snd] in Hlog.
  - exists evs, 0%nat. split; [exact Hlog|]. split; [lia|].
    split; [exact Hquiet | discriminate].
  - exists evs, 0%nat. split; [exact Hlog|]. split; [lia|].
    split; [exact Hquiet|]. intros e He. simpl in He. injection He as <-.
    split; [reflexivity|]. destruct error; simpl; eauto.
  - exists evs, 0%nat. split; [exact Hlog|]. split; [lia|].
    split; [exact Hquiet | discriminate].
  - unfold bind, sleep. cbv beta iota.
    match goal with
    | |- context [retry_from text fn delay remaining (S i) ?w2] =>
        destruct (IH (S i) w2) as (evs' & j & Hlog' & Hj & Hpauses & Hraise)
    end.
    exists (evs ++ Ev (Sleep (delay * 2 ^ Z.of_nat i)) true :: evs')%list, (S j).
    split; [|split; [|split]].
    + rewrite Hlog'. simpl. rewrite Hlog, <- !app_assoc. reflexivity.
    + lia.
    + rewrite pauses_app, Hquiet. simpl. f_equal. exact Hpauses.
    + intros e He. destruct (Hraise e He) as [-> Hm]. split; [reflexivity | exact Hm].
Qed.

(** X4. [retry] backs off exponentially: when the function it is given
    makes no pause of its own, the pauses of a call are [delay],
    [2 * delay], [4 * delay], ... in this order and there are at most
    [maxRetries] of them; a call that ends in an exception has made all
    [maxRetries] pauses, that is [maxRetries + 1] attempts, with no pause
    after the last, and what it throws is an [Error]. *)
Theorem retry_backoff {T} (text : string) (fn : M T) (maxRetries : nat) (delay : Z)
    (w : World) :
  (forall w0, exists evs, log (fn w0).2 = (log w0 ++ evs)%list /\ pauses evs = []) ->
  exists evs j,
    log (retry text fn maxRetries delay w).2 = (log w ++ evs)%list /\
    (j <= maxRetries)%nat /\
    pauses evs = backoff delay j /\
    (forall e, (retry text fn maxRetries delay w).1 = Raise e ->
               j = maxRetries /\ exists message, e = Error message).
Proof.
  intros Hfn. exact (retry_from_pauses text fn delay Hfn maxRetries 0%nat w).
Qed.

Lemma retry_backoff_witness :
  exists evs j,
    log (retry "boom" (throw Thrown : M unit) 3 1000 bike_world).2
      = (log bike_world ++ evs)%list /\
    (j <= 3)%nat /\
    pauses evs = backoff 1000 j /\
    (forall e, (retry "boom" (throw Thrown : M unit) 3 1000 bike_world).1 = Raise e ->
               j = 3%nat /\ exists message, e = Error message).
Proof.
  apply (retry_backoff "boom" (throw Thrown : M unit) 3 1000 bike_world).
  intros w0. exists []. split; [simpl; rewrite app_nil_r; reflexivity | reflexivity].
Defined.

(** A function that always fails is tried four times with the default
    settings, seven seconds of pauses in all. *)
Example retry_gives_up :
  let run := retry "boom" (ext GetParameter) 3 1000
                   (three_watchers [rejected "a"; rejected "b"; rejected "c";
                                    rejected "d"; fulfilled]) in
  run.1 = Raise (Error "d") /\
  log run.2 = [Ev GetParameter false; Ev (Sleep 1000) true;
               Ev GetParameter false; Ev (Sleep 2000) true;
               Ev GetParameter false; Ev (Sleep 4000) true;
               Ev GetParameter false] /\
  now run.2 = 1700000000000 + 4 * 10 + 7000.
Proof. evaluate. Qed.

(** ** The caches of ConfigService *)

Lemma CACHE_TTL_pos : 0 < CACHE_TTL.
Proof. unfold CACHE_TTL. lia. Qed.

Lemma fetchConfig_returns self w c self' w' :
  fetchConfig self w = (Return (c, self'), w') ->
  self' = mkConfigService (Some c) (secretsCache self) (now w' + CACHE_TTL).
Proof.
  unfold fetchConfig, try_catch, bind, get_world, date_now. cbv beta iota.
  destruct (negb (truthy (env w !! "CONFIG_PARAMETER"))); [discriminate|].
  destruct (ext GetParameter w) as [[[]|e] w1]; [|discriminate].
  cbv beta iota. destruct (parameter w1); [|discriminate].
  cbv beta iota. unfold ret. intros Hrun. injection Hrun as <- <- <-. reflexivity.
Qed.

Lemma fetchSecrets_returns self w s self' w' :
  fetchSecrets self w = (Return (s, self'), w') ->
  self' = mkConfigService (configCache self) (Some s) (now w' + CACHE_TTL).
Proof.
  unfold fetchSecrets, try_catch, bind, get_world, date_now. cbv beta iota.
  destruct (negb (truthy (env w !! "SECRETS_NAME"))); [discriminate|].
  destruct (ext GetSecretValue w) as [[[]|e] w1]; [|discriminate].
  cbv beta iota. destruct (secret w1); [|discriminate].
  cbv beta iota. unfold ret. intros Hrun. injection Hrun as <- <- <-. reflexivity.
Qed.

Lemma getConfig_of_hit self c w :
  configCache self = Some c -> now w < cacheExpiry self ->
  getConfig_of self w = (Return (c, self), w).
Proof.
  intros Hcache Hlive. unfold getConfig_of, bind, date_now. cbv beta iota.
  rewrite Hcache. destruct (Z.ltb_spec (now w) (cacheExpiry self)); [reflexivity | lia].
Qed.

Lemma getConfig_of_returns self w c self' w' :
  getConfig_of self w = (Return (c, self'), w') ->
  configCache self' = Some c /\ now w' < cacheExpiry self'.
Proof.
  unfold getConfig_of, bind, date_now. cbv beta iota.
  pose proof CACHE_TTL_pos as Hpos.
  destruct (configCache self) as [c0|] eqn:Hcache.
  - destruct (Z.ltb_spec (now w) (cacheExpiry self)).
    + intros Hrun. injection Hrun as <- <- <-. auto.
    + intros Hrun. rewrite (fetchConfig_returns _ _ _ _ _ Hrun). simpl. split; [reflexivity | lia].
  - intros Hrun. rewrite (fetchConfig_returns _ _ _ _ _ Hrun). simpl. split; [reflexivity | lia].
Qed.

(** X5. A configuration that was read stays in hand: after [getConfig] has
    answered, the cache is live, and as long as the clock has not reached
    the expiry every further call answers the same configuration without
    any call to the outside and leaves the world as it is.  So it is for
    the [ScraperService], whose [executeScraper] asks for the configuration
    at every run: asked again at once, it is served from the cache. *)
Theorem getConfig_primes_cache (self : ConfigService) (w : World) (c : AppConfig)
    (self' : ConfigService) (w' : World) :
  getConfig_of self w = (Return (c, self'), w') ->
  now w' < cacheExpiry self' /\
  (forall w'', now w'' < cacheExpiry self' ->
     getConfig_of self' w'' = (Return (c, self'), w'')) /\
  (forall v v', getConfig v = (Return c, v') -> getConfig v' = (Return c, v')).
Proof.
  intros Hrun. destruct (getConfig_of_returns _ _ _ _ _ Hrun) as [Hcache Hlive].
  split; [exact Hlive|]. split.
  - intros w'' Hnow. apply getConfig_of_hit; assumption.
  - clear. intros v v'. unfold getConfig, bind, get_world, set_configService, ret.
    cbv beta iota.
    destruct (getConfig_of (configService v) v) as [[[c1 self1]|e] v1] eqn:Hrun;
      [|discriminate].
    intros Heq. injection Heq as -> <-.
    destruct (getConfig_of_returns _ _ _ _ _ Hrun) as [Hcache Hlive].
    cbn [configService with_configService].
    rewrite (getConfig_of_hit self1 c (with_configService self1 v1) Hcache Hlive).
    reflexivity.
Qed.

Lemma getConfig_primes_cache_witness :
  let run := getConfig_of fresh_configService bike_world in
  getConfig_of (mkConfigService (Some (mkAppConfig [sample_config true facebook])) None
                                (1700000000000 + CACHE_TTL)) run.2
  = (Return (mkAppConfig [sample_config true facebook],
             mkConfigService (Some (mkAppConfig [sample_config true facebook])) None
                             (1700000000000 + CACHE_TTL)), run.2).
Proof.
  intros run.
  destruct (getConfig_primes_cache fresh_configService bike_world
              (mkAppConfig [sample_config true facebook])
              (mkConfigService (Some (mkAppConfig [sample_config true facebook])) None
                               (1700000000000 + CACHE_TTL))
              run.2) as (Hlive & Hagain & _); [reflexivity|].
  apply Hagain. exact Hlive.
Defined.

(** X6. The two caches share one expiry.  When [getSecrets] has to fetch
    (no secrets in hand, or the expiry passed) and succeeds, it leaves the
    cached configuration in place and pushes the expiry five minutes past
    the fetch: a configuration in the cache, however long ago it was read,
    is served again by the next [getConfig] without a look at the
    parameter store. *)
Theorem secrets_fetch_revives_config (self : ConfigService) (w : World)
    (c : AppConfig) (s : gmap string string) (self' : ConfigService) (w' : World) :
  configCache self = Some c ->
  secretsCache self = None \/ cacheExpiry self <= now w ->
  getSecrets_of self w = (Return (s, self'), w') ->
  cacheExpiry self' = now w' + CACHE_TTL /\
  getConfig_of self' w' = (Return (c, self'), w').
Proof.
  intros Hcache Hmiss. unfold getSecrets_of, bind, date_now. cbv beta iota.
  pose proof CACHE_TTL_pos as Hpos.
  assert (Hfetch : fetchSecrets self w = (Return (s, self'), w') ->
                   cacheExpiry self' = now w' + CACHE_TTL /\
                   getConfig_of self' w' = (Return (c, self'), w')).
  { intros Hrun. rewrite (fetchSecrets_returns _ _ _ _ _ Hrun).
    split; [reflexivity|]. apply getConfig_of_hit; simpl; [exact Hcache | lia]. }
  destruct (secretsCache self) as [s0|]; [|exact Hfetch].
  destruct Hmiss as [Hnone|Hstale]; [discriminate|].
  destruct (Z.ltb_spec (now w) (cacheExpiry self)); [lia | exact Hfetch].
Qed.

Lemma secrets_fetch_revives_config_witness :
  let cfg := mkAppConfig [sample_config true facebook] in
  let self := mkConfigService (Some cfg) None 1000 in
  let self' := mkConfigService (Some cfg) (Some ∅) (1700000000000 + CACHE_TTL) in
  getConfig_of self' (getSecrets_of self bike_world).2
  = (Return (cfg, self'), (getSecrets_of self bike_world).2).
Proof.
  intros cfg self self'.
  apply (secrets_fetch_revives_config self bike_world cfg ∅ self'
           (getSecrets_of self bike_world).2);
    [reflexivity | left; reflexivity | reflexivity].
Defined.

(** ** The table under the services *)

(** The outside never adds a record to the table. *)
Lemma ext_table (c : Call) (w : World) :
  forall k l, table (ext c w).2 !! k = Some l -> table w !! k = Some l.
Proof.
  unfold ext. destruct (script w) as [|t rest]; [auto|].
  intros k l.
  assert (Hsub : table (with_table (if t_sweep t then sweep (now w) else fun m => m) w) !! k
                 = Some l -> table w !! k = Some l).
  { simpl. destruct (t_sweep t); [|auto]. unfold sweep.
    intros Hin. apply map_lookup_filter_Some in Hin. tauto. }
  destruct (t_reject t); exact Hsub.
Qed.

Lemma getListing_returns (sid lid : string) (w w' : World) (o : option Listing) :
  getListing sid lid w = (Return o, w') ->
  o = table w' !! (sid, lid) /\
  forall k l, table w' !! k = Some l -> table w !! k = Some l.
Proof.
  unfold getListing, try_catch, bind, get_world, ret.
  pose proof (ext_table (DbGet sid lid) w) as Hsub.
  destruct (ext (DbGet sid lid) w) as [[[]|e] w1]; [|discriminate].
  intros Hrun. injection Hrun as <- <-. auto.
Qed.

Lemma updateListingPrice_returns (sid lid : string) (newPrice seen : Z)
    (w w' : World) (u : Listing) :
  updateListingPrice sid lid newPrice seen w = (Return (Some u), w') ->
  exists cur,
    table w !! (sid, lid) = Some cur /\
    price u = newPrice /\ previousPrice u = Some (price cur) /\ lastSeen u = seen.
Proof.
  unfold updateListingPrice, try_catch, bind.
  destruct (getListing sid lid w) as [[[cur|]|e] w1] eqn:Hget;
    [| discriminate | discriminate].
  destruct (getListing_returns _ _ _ _ _ Hget) as [Hcur Hsub].
  unfold date_now, get_world, modify_table, ret. cbv beta iota.
  destruct (ext (DbUpdate sid lid) w1) as [[[]|e] w2]; [|discriminate].
  cbv beta iota. intros Hrun. injection Hrun as <- _.
  exists cur. split; [apply Hsub; symmetry; exact Hcur|].
  destruct (table w2 !! (sid, lid)); simpl; auto.
Qed.

(** One turn of the loop always comes to an end, and what it adds to the
    two lists is sound. *)
Lemma processListing_sound (config : ScraperConfig)
    (acc : list Listing * list Listing) (listing : Listing) (w : World) :
  exists acc' w',
    processListing config acc listing w = (Return acc', w') /\
    (acc' = acc \/
     acc' = ((acc.1 ++ [listing])%list, acc.2) \/
     exists u, acc' = (acc.1, (acc.2 ++ [u])%list) /\
               drop_reported config u /\ observed_as listing u).
Proof.
  unfold processListing, try_catch, bind.
  destruct (getListing (scraperId listing) (listingId listing) w)
    as [[[existing|]|e] w1] eqn:Hget.
  - destruct (getListing_returns _ _ _ _ _ Hget) as [Hex _].
    destruct (Z.eqb_spec (price listing) (price existing)) as [Hsame|Hdiff];
      cbv beta iota delta [negb].
    + destruct (updateListingPrice _ _ _ _ w1) as [[o|e] w2];
        eexists; eexists; (split; [reflexivity | auto]).
    + destruct (updateListingPrice _ _ _ _ w1) as [[[u|]|e] w2] eqn:Hupd;
        try (eexists; eexists; (split; [reflexivity | auto]); fail).
      destruct (js_ge _ _) eqn:Hge;
        [|eexists; eexists; (split; [reflexivity | auto])].
      eexists. eexists. split; [reflexivity|]. right. right.
      exists u. split; [reflexivity|].
      destruct (updateListingPrice_returns _ _ _ _ _ _ _ Hupd)
        as (cur & Hcur & Hprice & Hprev & Hseen).
      rewrite <- Hex in Hcur. injection Hcur as <-.
      split; [|split; assumption].
      exists (price existing). rewrite Hprice. split; [exact Hprev|].
      split; [congruence | exact Hge].
  - destruct (saveListing listing w1) as [[[]|e] w2];
      eexists; eexists; (split; [reflexivity | auto]).
  - eexists. eexists. split; [reflexivity | auto].
Qed.

Lemma processListings_from_sound (config : ScraperConfig) (ls : list Listing) :
  forall acc w, exists news drops w',
    processListings_from config acc ls w
      = (Return ((acc.1 ++ news)%list, (acc.2 ++ drops)%list), w') /\
    sublist news ls /\
    (length news + length drops <= length ls)%nat /\
    Forall (fun u => drop_reported config u /\ exists l, In l ls /\ observed_as l u) drops.
Proof.
  induction ls as [|listing rest IH]; intros [news0 drops0] w; simpl.
  - exists [], [], w. rewrite !app_nil_r.
    split; [reflexivity|]. split; [apply sublist_nil|]. split; [simpl; lia | constructor].
  - unfold bind.
    destruct (processListing_sound config (news0, drops0) listing w)
      as (acc' & w1 & -> & Hstep).
    destruct (IH acc' w1) as (news & drops & w2 & -> & Hsub & Hlen & Hdrops).
    assert (Hweak : Forall (fun u => drop_reported config u /\
                                     exists l, In l (listing :: rest) /\ observed_as l u)
                           drops).
    { eapply List.Forall_impl; [|exact Hdrops].
      intros u [Hu (l & Hin & Hobs)]. split; [exact Hu|].
      exists l. split; [right; exact Hin | exact Hobs]. }
    destruct Hstep as [->|[->|(u & -> & Hu & Hobs)]]; simpl.
    + exists news, drops, w2. split; [reflexivity|].
      split; [apply sublist_cons; exact Hsub|]. split; [simpl; lia | exact Hweak].
    + exists (listing :: news), drops, w2. rewrite <- app_assoc.
      split; [reflexivity|].
      split; [apply sublist_skip; exact Hsub|]. split; [simpl; lia | exact Hweak].
    + exists news, (u :: drops), w2. rewrite <- app_assoc.
      split; [reflexivity|].
      split; [apply sublist_cons; exact Hsub|]. split; [simpl; lia|].
      constructor; [|exact Hweak]. split; [exact Hu|].
      exists listing. split; [left; reflexivity | exact Hobs].
Qed.

(** X7. [processListings] never rejects, whatever the outside does, and
    what it reports is sound: the new listings are listings of the run, in
    the order of the run; new listings and price drops together are no
    more than the listings of the run; and every record among the price
    drops carries the price and the instant of an observation of the run
    together with a previous price [p], other than the price, for which the
    test [(p - price) / p >= priceDropThreshold] of the watcher holds in
    the arithmetic of doubles. *)
Theorem processListings_sound (scrapedListings : list Listing)
    (config : ScraperConfig) (w : World) :
  exists newListings priceDrops w',
    processListings scrapedListings config w = (Return (newListings, priceDrops), w') /\
    sublist newListings scrapedListings /\
    (length newListings + length priceDrops <= length scrapedListings)%nat /\
    Forall (fun u => drop_reported config u /\
                     exists l, In l scrapedListings /\ observed_as l u) priceDrops.
Proof.
  exact (processListings_from_sound config scrapedListings ([], []) w).
Qed.

(** ** What the table keeps *)

Section KeepsAny.
Context (I : World -> Prop).

Lemma keeps_ret {A} (a : A) : keeps I (ret a).
Proof. intros w Hw. exact Hw. Qed.

Lemma keeps_throw {A} (e : exn) : keeps I (@throw A e).
Proof. intros w Hw. exact Hw. Qed.

Lemma keeps_bind {A B} (m : M A) (k : A -> M B) :
  keeps I m -> (forall a, keeps I (k a)) ->
  keeps I (bind m k).
Proof.
  intros Hm Hk w Hw. unfold bind. specialize (Hm w Hw).
  destruct (m w) as [[a|e] w1]; [exact (Hk a w1 Hm) | exact Hm].
Qed.

Lemma keeps_try_catch {A} (m : M A) (h : exn -> M A) :
  keeps I m -> (forall e, keeps I (h e)) ->
  keeps I (try_catch m h).
Proof.
  intros Hm Hh w Hw. unfold try_catch. specialize (Hm w Hw).
  destruct (m w) as [[a|e] w1]; [exact Hm | exact (Hh e w1 Hm)].
Qed.

Lemma keeps_finally {A} (m : M A) (f : M unit) :
  keeps I m -> keeps I f ->
  keeps I (finally m f).
Proof.
  intros Hm Hf w Hw. unfold finally. specialize (Hm w Hw).
  destruct (m w) as [r w1]. specialize (Hf w1 Hm).
  destruct (f w1) as [[[]|e] w2]; exact Hf.
Qed.

Lemma keeps_settle {A} (m : M A) :
  keeps I m -> keeps I (settle m).
Proof.
  intros Hm w Hw. unfold settle. specialize (Hm w Hw).
  destruct (m w) as [r w1]. exact Hm.
Qed.

Lemma keeps_allSettled {A} (ms : list (M A)) :
  Forall (keeps I) ms -> keeps I (allSettled ms).
Proof.
  induction 1 as [|m ms Hm Hms IH]; simpl.
  - apply keeps_ret.
  - apply keeps_bind; [apply keeps_settle; exact Hm|]. intros r.
    apply keeps_bind; [exact IH|]. intros rs. apply keeps_ret.
Qed.

End KeepsAny.

Section Keeps.
Context (R : string * string -> Listing -> Prop).

Lemma keeps_silent {A} (m : M A) :
  (forall w, table (m w).2 = table w) -> keeps (table_holds R) m.
Proof. intros Hm w Hw k l. rewrite Hm. apply Hw. Qed.

Lemma keeps_ext (c : Call) : keeps (table_holds R) (ext c).
Proof. intros w Hw k l Hin. apply (Hw k l). exact (ext_table c w k l Hin). Qed.

Lemma keeps_insert (k : string * string) (item : Listing) :
  R k item -> keeps (table_holds R) (modify_table (insert k item)).
Proof.
  intros Hitem w Hw k' l. simpl.
  destruct (decide (k = k')) as [<-|Hne].
  - rewrite lookup_insert_eq. intros Heq. injection Heq as <-. exact Hitem.
  - rewrite lookup_insert_ne by exact Hne. apply Hw.
Qed.

End Keeps.

Ltac keeping_step :=
  first
    [ apply keeps_ret
    | apply keeps_throw
    | apply keeps_ext
    | apply keeps_silent; intros ?; reflexivity
    | apply keeps_bind; [| intros ?]
    | apply keeps_try_catch; [| intros ?]
    | apply keeps_finally
    | match goal with
      | |- keeps _ (match ?x with _ => _ end) => destruct x
      | |- keeps _ (if ?x then _ else _) => destruct x
      end ].

Ltac keeping := repeat keeping_step.

Section Kept.
Context (R : string * string -> Listing -> Prop).

Lemma keeps_getListing sid lid : keeps (table_holds R) (getListing sid lid).
Proof. unfold getListing. keeping. Qed.

Lemma keeps_saveListing (listing : Listing) :
  (forall e, R (key_of listing) (with_expiresAt e listing)) ->
  keeps (table_holds R) (saveListing listing).
Proof.
  intros Hitem. unfold saveListing. keeping.
  apply keeps_insert. apply Hitem.
Qed.

Lemma keeps_updateListingPrice (sid lid : string) (newPrice seen : Z) :
  (forall cur old e,
     R (sid, lid) cur -> (forall l, old = Some l -> R (sid, lid) l) ->
     R (sid, lid) (update_item sid lid newPrice (price cur) seen e old)) ->
  keeps (table_holds R) (updateListingPrice sid lid newPrice seen).
Proof.
  intros Hitem w Hw. unfold updateListingPrice, try_catch, bind.
  pose proof (keeps_getListing sid lid w Hw) as H1.
  destruct (getListing sid lid w) as [[[cur|]|e] w1] eqn:Hget; simpl in H1;
    [| exact H1 | exact H1].
  destruct (getListing_returns _ _ _ _ _ Hget) as [Hcur _].
  unfold date_now, get_world, modify_table, ret. cbv beta iota.
  pose proof (keeps_ext R (DbUpdate sid lid) w1 H1) as H2.
  destruct (ext (DbUpdate sid lid) w1) as [[[]|e] w2]; simpl in H2; [|exact H2].
  cbv beta iota. intros k l. simpl.
  destruct (decide ((sid, lid) = k)) as [<-|Hne].
  - rewrite lookup_insert_eq. intros Heq. injection Heq as <-.
    apply Hitem; [apply H1; symmetry; exact Hcur|].
    intros l Hl. apply H2. exact Hl.
  - rewrite lookup_insert_ne by exact Hne. apply H2.
Qed.

Lemma keeps_processListings_from (config : ScraperConfig) (ls : list Listing) :
  Forall (fun listing =>
            (forall e, R (key_of listing) (with_expiresAt e listing)) /\
            (forall cur old e,
               R (key_of listing) cur ->
               (forall l, old = Some l -> R (key_of listing) l) ->
               R (key_of listing)
                 (update_item (scraperId listing) (listingId listing) (price listing)
                              (price cur) (lastSeen listing) e old))) ls ->
  forall acc, keeps (table_holds R) (processListings_from config acc ls).
Proof.
  induction 1 as [|listing rest [Hsave Hupd] Hrest IH]; intros acc; simpl.
  - apply keeps_ret.
  - apply keeps_bind; [|intros acc'; apply IH].
    unfold processListing.
    apply keeps_try_catch; [|intros e; keeping].
    apply keeps_bind; [apply keeps_getListing|]. intros [existing|].
    + destruct (negb _).
      * apply keeps_bind; [apply keeps_updateListingPrice; exact Hupd|].
        intros o. keeping.
      * apply keeps_bind; [apply keeps_updateListingPrice; exact Hupd|].
        intros o. keeping.
    + apply keeps_bind; [apply keeps_saveListing; exact Hsave|]. intros ?. keeping.
Qed.

End Kept.

Lemma well_keyed_observation (listing : Listing) :
  (forall e, well_keyed (key_of listing) (with_expiresAt e listing)) /\
  (forall cur old e,
     well_keyed (key_of listing) cur ->
     (forall l, old = Some l -> well_keyed (key_of listing) l) ->
     well_keyed (key_of listing)
       (update_item (scraperId listing) (listingId listing) (price listing)
                    (price cur) (lastSeen listing) e old)).
Proof.
  split; [reflexivity|]. intros cur [l|] e _ Hold; [|reflexivity].
  exact (Hold l eq_refl).
Qed.

Lemma keeps_keys_processListings (ls : list Listing) (config : ScraperConfig) :
  keeps (table_holds well_keyed) (processListings ls config).
Proof.
  apply keeps_processListings_from.
  apply List.Forall_forall. intros listing _. apply well_keyed_observation.
Qed.

Section KeptByAll.
Context (R : string * string -> Listing -> Prop).
Hypothesis processListings_kept :
  forall ls config, keeps (table_holds R) (processListings ls config).

Lemma keeps_getConfig_of self : keeps (table_holds R) (getConfig_of self).
Proof. unfold getConfig_of, fetchConfig. keeping. Qed.

Lemma keeps_getSecrets_of self : keeps (table_holds R) (getSecrets_of self).
Proof. unfold getSecrets_of, fetchSecrets. keeping. Qed.

Lemma keeps_report_rejected {A} (results : list (outcome A)) :
  forall index, keeps (table_holds R) (report_rejected index results).
Proof.
  induction results as [|[a|e] rest IH]; intros index; simpl.
  - apply keeps_ret.
  - apply IH.
  - apply keeps_bind; [keeping | intros _; apply IH].
Qed.

Lemma keeps_sendNotifications secrets payload :
  keeps (table_holds R) (sendNotifications secrets payload).
Proof.
  rewrite sendNotifications_attempts.
  apply keeps_bind; [|intros results; apply keeps_report_rejected].
  apply keeps_allSettled. apply Forall_map. apply List.Forall_forall.
  intros cl _. unfold attempt. keeping.
Qed.

Lemma keeps_ScraperService_sendNotifications news drops config secrets :
  keeps (table_holds R) (ScraperService_sendNotifications news drops config secrets).
Proof.
  unfold ScraperService_sendNotifications.
  apply keeps_bind; [|intros ?; apply keeps_ret].
  apply keeps_allSettled. apply Forall_app. split;
    apply Forall_map; apply List.Forall_forall; intros l _;
    apply keeps_sendNotifications.
Qed.

Lemma keeps_scrape config cookies : keeps (table_holds R) (scrape config cookies).
Proof. unfold scrape, initialize. keeping. Qed.

Lemma keeps_executeScraper scraperId : keeps (table_holds R) (executeScraper scraperId).
Proof.
  unfold executeScraper, executeScraper_try, executeScraper_catch,
    executeScraper_finally, executeScraper_collect, getConfig, getSecrets,
    initialize, cleanup.
  repeat first
    [ apply keeps_getConfig_of | apply keeps_getSecrets_of | apply keeps_scrape
    | apply processListings_kept | apply keeps_ScraperService_sendNotifications
    | keeping_step ].
Qed.

Lemma keeps_report_failed (batch : list ScraperConfig) :
  forall outs, keeps (table_holds R) (report_failed batch outs).
Proof.
  induction batch as [|s batch IH]; intros outs; [destruct outs; apply keeps_ret|].
  destruct outs as [|[r|e] outs]; cbn [report_failed];
    [apply keeps_ret | apply IH |].
  apply keeps_bind; [keeping | intros _; apply IH].
Qed.

Lemma keeps_run_batches (k : nat) (es : list ScraperConfig) :
  forall fuel i results, keeps (table_holds R) (run_batches fuel k es i results).
Proof.
  induction fuel as [|fuel IH]; intros i results; cbn [run_batches]; [apply keeps_ret|].
  destruct (i <? length es)%nat; [|apply keeps_ret].
  apply keeps_bind; [keeping|]. intros _.
  apply keeps_bind.
  { apply keeps_allSettled. apply Forall_map. apply List.Forall_forall.
    intros s _. apply keeps_executeScraper. }
  intros outs. apply keeps_bind; [apply keeps_report_failed|]. intros _.
  apply keeps_bind; [keeping | intros _; apply IH].
Qed.

Lemma keeps_handler (fuel k : nat) : keeps (table_holds R) (handler fuel k).
Proof.
  unfold handler, getEnabledScrapers_of.
  apply keeps_try_catch; [|intros e; keeping].
  apply keeps_bind.
  { apply keeps_bind; [apply keeps_getConfig_of|]. intros [c s]. keeping. }
  intros [es self]. destruct (length es =? 0)%nat; [apply keeps_ret|].
  apply keeps_run_batches.
Qed.

End KeptByAll.

Lemma bike_world_keyed : table_holds well_keyed bike_world.
Proof.
  intros k l. unfold bike_world, quiet_world. simpl.
  destruct (decide (("bikes", "1001") = k)) as [<-|Hne].
  - rewrite lookup_insert_eq. intros Heq. injection Heq as <-. reflexivity.
  - rewrite lookup_insert_ne by exact Hne. rewrite lookup_empty. discriminate.
Qed.

(** X8. Every record sits under the key made of its own [scraperId] and
    [listingId], and nothing the services do breaks this, whatever the
    outside answers: not the writes of [processListings] (a put under the
    key of the listing, an update of the record under the key it read),
    not a run of [executeScraper], not a whole run of the scheduler. *)
Theorem table_stays_well_keyed (w : World) :
  table_holds well_keyed w ->
  (forall ls config, table_holds well_keyed (processListings ls config w).2) /\
  (forall scraperId, table_holds well_keyed (executeScraper scraperId w).2) /\
  (forall fuel maxConcurrent, table_holds well_keyed (handler fuel maxConcurrent w).2).
Proof.
  intros Hw. split; [|split].
  - intros ls config. exact (keeps_keys_processListings ls config w Hw).
  - intros scraperId.
    exact (keeps_executeScraper well_keyed keeps_keys_processListings scraperId w Hw).
  - intros fuel k.
    exact (keeps_handler well_keyed keeps_keys_processListings fuel k w Hw).
Qed.

Lemma table_stays_well_keyed_witness :
  table_holds well_keyed
    (processListings [observed_bike 4000 1700000000000]
                     (sample_config true facebook) bike_world).2.
Proof.
  destruct (table_stays_well_keyed bike_world bike_world_keyed) as [Hkept _].
  apply Hkept.
Defined.

(** X9. No price on record turns negative: when the prices the table holds
    (current and previous) are not negative and the listings of the run
    carry no negative price either, the table [processListings] leaves is
    as sound, whatever the outside answers. *)
Theorem processListings_keeps_prices (ls : list Listing) (config : ScraperConfig)
    (w : World) :
  Forall (fun l => priced (key_of l) l) ls ->
  table_holds priced w ->
  table_holds priced (processListings ls config w).2.
Proof.
  intros Hls. apply keeps_processListings_from.
  eapply List.Forall_impl; [|exact Hls].
  intros listing [Hprice Hprev]. split.
  - intros e. split; assumption.
  - intros cur old e [Hcur _] _. unfold priced.
    destruct old as [l|]; simpl; (split; [exact Hprice|]);
      intros p Hp; injection Hp as <-; exact Hcur.
Qed.

Lemma bike_world_priced : table_holds priced bike_world.
Proof.
  intros k l. unfold bike_world, quiet_world. simpl.
  destruct (decide (("bikes", "1001") = k)) as [<-|Hne].
  - rewrite lookup_insert_eq. intros Heq. injection Heq as <-.
    split; [simpl; lia | discriminate].
  - rewrite lookup_insert_ne by exact Hne. rewrite lookup_empty. discriminate.
Qed.

Lemma processListings_keeps_prices_witness :
  table_holds priced
    (processListings [observed_bike 4000 1700000000000]
                     (sample_config true facebook) bike_world).2.
Proof.
  apply processListings_keeps_prices; [|exact bike_world_priced].
  constructor; [|constructor]. split; [simpl; lia | discriminate].
Defined.

(** ** Reading back what was written *)

(** X10. What [saveListing] puts, [getListing] gets: in a world where the
    outside behaves, the listing saved is read back under its key as it was
    given but for [expiresAt], which is thirty days past the clock of the
    write (in seconds); the records under other keys are not touched. *)
Theorem saveListing_getListing (listing : Listing) (w : World) :
  calm w ->
  exists w1 w2,
    saveListing listing w = (Return tt, w1) /\
    getListing (scraperId listing) (listingId listing) w1
      = (Return (Some (with_expiresAt (now w / 1000 + LISTING_TTL) listing)), w2) /\
    forall k, k <> key_of listing -> table w2 !! k = table w !! k.
Proof.
  intros Hcalm.
  destruct (saveListing_calm listing w Hcalm) as (w1 & Hsave & Htable1 & Hcalm1 & _).
  destruct (getListing_calm (scraperId listing) (listingId listing) w1 Hcalm1)
    as (w2 & Hget & Htable2 & _).
  exists w1, w2. split; [exact Hsave|]. split.
  - rewrite Hget, Htable1, lookup_insert_eq. reflexivity.
  - intros k Hk. rewrite Htable2, Htable1. apply lookup_insert_ne.
    intros Heq. apply Hk. symmetry. exact Heq.
Qed.

Lemma calm_bike_world : calm bike_world.
Proof. constructor. Qed.

Lemma saveListing_getListing_witness :
  exists w1 w2,
    saveListing (observed_bike 4000 1700000000000) bike_world = (Return tt, w1) /\
    getListing "bikes" "1001" w1
      = (Return (Some (with_expiresAt (LISTING_TTL + 1700000000)
                                      (observed_bike 4000 1700000000000))), w2).
Proof.
  destruct (saveListing_getListing (observed_bike 4000 1700000000000) bike_world
              calm_bike_world) as (w1 & w2 & Hsave & Hget & _).
  exists w1, w2. split; [exact Hsave | exact Hget].
Defined.

(** ** What observation leaves of a record *)

Lemma same_item_refl (l : Listing) : same_item l l.
Proof. unfold same_item. auto 10. Qed.

Lemma same_item_trans (a b c : Listing) :
  same_item a b -> same_item b c -> same_item a c.
Proof.
  unfold same_item. intros (H1 & H2 & H3 & H4 & H5 & H6 & H7) (G1 & G2 & G3 & G4 & G5 & G6 & G7).
  repeat split; congruence.
Qed.

Lemma processListing_calm (config : ScraperConfig)
    (acc : list Listing * list Listing) (listing : Listing) (w : World) :
  calm w ->
  exists acc' w' e,
    processListing config acc listing w = (Return acc', w') /\
    calm w' /\
    table w' = <[key_of listing := stored_as e (table w !! key_of listing) listing]>
                 (table w).
Proof.
  intros Hcalm. unfold processListing, try_catch, bind.
  destruct (getListing_calm (scraperId listing) (listingId listing) w Hcalm)
    as (w1 & Hget & Htable1 & Hcalm1 & _).
  rewrite Hget. unfold key_of.
  destruct (table w !! (scraperId listing, listingId listing)) as [existing|] eqn:Hex.
  - assert (Hex1 : table w1 !! (scraperId listing, listingId listing) = Some existing)
      by (rewrite Htable1; exact Hex).
    destruct (updateListingPrice_calm (scraperId listing) (listingId listing)
                (price listing) (lastSeen listing) w1 existing Hcalm1 Hex1)
      as (w2 & n & Hupd & Htable2 & Hcalm2 & _).
    cbv zeta in Hupd, Htable2.
    destruct (negb (price listing =? price existing)); rewrite Hupd.
    + destruct (js_ge _ _);
        eexists; eexists; exists (n / 1000 + LISTING_TTL);
        (split; [reflexivity|]); (split; [exact Hcalm2|]);
        rewrite Htable2, Htable1; reflexivity.
    + eexists. eexists. exists (n / 1000 + LISTING_TTL).
      split; [reflexivity|]. split; [exact Hcalm2|].
      rewrite Htable2, Htable1. reflexivity.
  - destruct (saveListing_calm listing w1 Hcalm1) as (w2 & Hsave & Htable2 & Hcalm2 & _).
    rewrite Hsave. eexists. eexists. exists (now w1 / 1000 + LISTING_TTL).
    split; [reflexivity|]. split; [exact Hcalm2|].
    rewrite Htable2, Htable1. reflexivity.
Qed.

Lemma processListings_from_calm (config : ScraperConfig) (ls : list Listing) :
  forall acc w, calm w ->
  exists r w',
    processListings_from config acc ls w = (Return r, w') /\
    calm w' /\
    (forall k l, table w !! k = Some l ->
       exists l', table w' !! k = Some l' /\ same_item l l') /\
    (forall k, ~ In k (map key_of ls) -> table w' !! k = table w !! k) /\
    (forall l, In l ls -> is_Some (table w' !! key_of l)).
Proof.
  induction ls as [|listing rest IH]; intros acc w Hcalm; simpl.
  - exists acc, w. split; [reflexivity|]. split; [exact Hcalm|].
    split; [|split].
    + intros k l Hl. exists l. split; [exact Hl | apply same_item_refl].
    + reflexivity.
    + intros l [].
  - unfold bind.
    destruct (processListing_calm config acc listing w Hcalm)
      as (acc' & w1 & e & -> & Hcalm1 & Htable1).
    destruct (IH acc' w1 Hcalm1) as (r & w2 & -> & Hcalm2 & Hsame & Hframe & Hsome).
    exists r, w2. split; [reflexivity|]. split; [exact Hcalm2|].
    assert (Hstep : forall k l, table w !! k = Some l ->
                      exists l', table w1 !! k = Some l' /\ same_item l l').
    { intros k l Hl. rewrite Htable1.
      destruct (decide (key_of listing = k)) as [<-|Hne].
      - rewrite lookup_insert_eq, Hl. eexists. split; [reflexivity|].
        unfold same_item. simpl. auto 10.
      - rewrite lookup_insert_ne by exact Hne. exists l.
        split; [exact Hl | apply same_item_refl]. }
    split; [|split].
    + intros k l Hl. destruct (Hstep k l Hl) as (l1 & Hl1 & Hs1).
      destruct (Hsame k l1 Hl1) as (l2 & Hl2 & Hs2).
      exists l2. split; [exact Hl2 | exact (same_item_trans _ _ _ Hs1 Hs2)].
    + intros k Hk. rewrite Hframe by (intros Hin; apply Hk; right; exact Hin).
      rewrite Htable1. apply lookup_insert_ne. intros Heq. apply Hk. left. exact Heq.
    + intros l [<-|Hin]; [|exact (Hsome l Hin)].
      assert (Hnow : is_Some (table w1 !! key_of listing))
        by (rewrite Htable1, lookup_insert_eq; eauto).
      destruct Hnow as [l1 Hl1]. destruct (Hsame _ _ Hl1) as (l2 & Hl2 & _). eauto.
Qed.

(** X11. Observation never deletes a record and never rewrites what
    identifies it: in a world where the outside behaves, after
    [processListings] every record the table held is still there under its
    key with the [scraperId], [listingId], [title], [location], [url],
    [imageUrl] and [firstSeen] it had (a title that changed on the page is
    not taken over); the records under keys the run did not observe are
    exactly as they were; and every listing of the run has a record. *)
Theorem processListings_preserves_items (scrapedListings : list Listing)
    (config : ScraperConfig) (w : World) :
  calm w ->
  exists r w',
    processListings scrapedListings config w = (Return r, w') /\
    (forall k l, table w !! k = Some l ->
       exists l', table w' !! k = Some l' /\ same_item l l') /\
    (forall k, ~ In k (map key_of scrapedListings) -> table w' !! k = table w !! k) /\
    (forall l, In l scrapedListings -> is_Some (table w' !! key_of l)).
Proof.
  intros Hcalm.
  destruct (processListings_from_calm config scrapedListings ([], []) w Hcalm)
    as (r & w' & Hrun & _ & Hrest).
  exists r, w'. split; [exact Hrun | exact Hrest].
Qed.

Lemma processListings_preserves_items_witness :
  exists r w',
    processListings [observed_bike 4000 1700000000000]
                    (sample_config true facebook) bike_world = (Return r, w') /\
    exists l', table w' !! ("bikes", "1001") = Some l' /\ same_item stored_bike l'.
Proof.
  destruct (processListings_preserves_items [observed_bike 4000 1700000000000]
              (sample_config true facebook) bike_world calm_bike_world)
    as (r & w' & Hrun & Hsame & _).
  exists r, w'. split; [exact Hrun|].
  apply Hsame. reflexivity.
Defined.

(** ** What the collector hands over *)

Lemma returns_try_catch {A} (Phi : A -> Prop) (m : M A) (h : exn -> M A) :
  returns Phi m -> (forall e, returns Phi (h e)) -> returns Phi (try_catch m h).
Proof.
  intros Hm Hh w a w' Hrun. unfold try_catch in Hrun.
  destruct (m w) as [[a0|e] w1] eqn:Hmw.
  - injection Hrun as <- <-. exact (Hm w a0 w1 Hmw).
  - exact (Hh e w1 a w' Hrun).
Qed.

Lemma returns_finally {A} (Phi : A -> Prop) (m : M A) (f : M unit) :
  returns Phi m -> returns Phi (finally m f).
Proof.
  intros Hm w a w' Hrun. unfold finally in Hrun.
  destruct (m w) as [r w1] eqn:Hmw.
  destruct (f w1) as [[[]|e] w2]; [|discriminate].
  injection Hrun as -> <-. exact (Hm w a w1 Hmw).
Qed.

Lemma passesFilters_bounds (title : string) (p : Z) (config : ScraperConfig) :
  passesFilters title p config = true -> within_bounds config p.
Proof.
  unfold passesFilters, within_bounds. intros Hpass. split; intros m Hm; rewrite Hm in Hpass.
  - destruct (Z.ltb_spec p m); [discriminate | lia].
  - destruct (match priceMin config with Some m0 => p <? m0 | None => false end);
      [discriminate|].
    destruct (Z.ltb_spec m p); [discriminate | lia].
Qed.

Lemma scrape_returns (config : ScraperConfig) (cookies : option string) :
  returns (Forall (fun l => scraped_for config l /\ within_bounds config (price l)))
          (scrape config cookies).
Proof.
  unfold scrape. apply returns_bind. intros _. apply returns_bind. intros _.
  apply returns_finally. apply returns_try_catch.
  - apply returns_bind. intros _. apply returns_bind. intros w0. apply returns_ret.
    apply Forall_map. apply List.Forall_forall. intros c Hin.
    apply filter_In in Hin. destruct Hin as [_ Hpass].
    split; [|exact (passesFilters_bounds _ _ _ Hpass)].
    unfold scraped_for. simpl. auto.
  - intros e. apply returns_bind. intros _. apply returns_throw.
Qed.

(** X12. What [scrape] hands over is made for the watcher and lies within
    its price bounds: every listing it returns carries the id and the
    location of the watcher, no previous price and a zero [expiresAt], and
    its price is not below [priceMin] nor above [priceMax] where they are
    set. *)
Theorem scrape_listings_filtered (config : ScraperConfig) (cookies : option string)
    (w w' : World) (listings : list Listing) :
  scrape config cookies w = (Return listings, w') ->
  Forall (fun l => scraped_for config l /\ within_bounds config (price l)) listings.
Proof. exact (scrape_returns config cookies w listings w'). Qed.

Lemma scrape_listings_filtered_witness :
  Forall (fun l => scraped_for (watcher "A") l /\
                   within_bounds (watcher "A") (price l))
         [listing_of_card (watcher "A") 1700000000000
            (mkCard "Road bike" 4500 "1001"
                    "https://www.facebook.com/marketplace/item/1001" None)].
Proof.
  apply (scrape_listings_filtered (watcher "A") None (three_watchers [])
           (scrape (watcher "A") None (three_watchers [])).2).
  reflexivity.
Defined.

(** ** What a result reports *)

Lemma executeScraper_collect_sound (scraperId : string) (startTime : Z)
    (scraperConfig : ScraperConfig) :
  returns (sound_for scraperConfig)
          (executeScraper_collect scraperId startTime scraperConfig).
Proof.
  intros w r w' Hrun. unfold executeScraper_collect, bind in Hrun.
  destruct (getSecrets w) as [[secrets|e] w1]; [|discriminate].
  destruct (scrape scraperConfig (secrets !! "facebook-cookies") w1)
    as [[scraped|e] w2] eqn:Hscrape; [|discriminate].
  pose proof (scrape_returns _ _ _ _ _ Hscrape) as Hscraped.
  destruct (processListings_from_sound scraperConfig scraped ([], []) w2)
    as (news & drops & w3 & Hproc & Hsub & Hlen & Hdrops).
  unfold processListings in Hrun. rewrite Hproc in Hrun. cbv beta iota in Hrun.
  cbn [fst snd app] in Hrun.
  destruct ((if (0 <? length news)%nat || (0 <? length drops)%nat
             then ScraperService_sendNotifications news drops scraperConfig secrets
             else ret tt) w3) as [[[]|e] w4]; [|discriminate].
  unfold date_now, ret in Hrun. injection Hrun as <- _.
  unfold sound_for. simpl. split; [exact Hlen|]. split.
  - apply List.Forall_forall. intros l Hin.
    apply (proj1 (List.Forall_forall _ _) Hscraped).
    apply list_elem_of_In. eapply elem_of_sublist; [|exact Hsub].
    apply list_elem_of_In. exact Hin.
  - eapply List.Forall_impl; [|exact Hdrops]. intros u [Hu _]. exact Hu.
Qed.

(** A run of the [try] block that returns has read a configuration and
    found its watcher in it, and what it returns is sound for this
    watcher. *)
Lemma executeScraper_try_sound (scraperId : string) (startTime : Z) (w w2 : World)
    (r : ScrapingResult) :
  executeScraper_try scraperId startTime w = (Return r, w2) ->
  exists config w1 scraperConfig,
    getConfig w = (Return config, w1) /\
    lookup_scraper scraperId config = Some scraperConfig /\
    sound_for scraperConfig r.
Proof.
  unfold executeScraper_try, bind. intros Hrun.
  destruct (getConfig w) as [[config|e] w1]; [|discriminate].
  destruct (List.find _ _) as [scraperConfig|] eqn:Hfind; [|discriminate].
  exists config, w1, scraperConfig. split; [reflexivity|]. split; [exact Hfind|].
  destruct (negb (enabled scraperConfig)).
  - unfold date_now, ret in Hrun. injection Hrun as <- _.
    unfold sound_for. simpl. split; [lia|]. split; constructor.
  - match type of Hrun with
    | (let (_, _) := ?step w1 in _) = _ =>
        destruct (step w1) as [[[]|e] w1']; [|discriminate]
    end.
    exact (executeScraper_collect_sound scraperId startTime scraperConfig _ _ _ Hrun).
Qed.

Lemma executeScraper_returned (scraperId : string) (w w' : World) (r : ScrapingResult) :
  executeScraper scraperId w = (Return r, w') ->
  (exists w1,
     executeScraper_try scraperId (now w) (with_scraper None w) = (Return r, w1)) \/
  failed_result scraperId r.
Proof.
  unfold executeScraper, bind, date_now, set_scraper, finally, try_catch.
  cbv beta iota.
  destruct (executeScraper_try scraperId (now w) (with_scraper None w))
    as [[r0|e] w1] eqn:Htry.
  - destruct (executeScraper_finally w1) as [[[]|e] w2]; [|discriminate].
    intros Hrun. injection Hrun as <- _. left. eauto.
  - destruct (executeScraper_catch_returns scraperId (now w) e w1)
      as (r1 & w2 & -> & Hfailed & _).
    destruct (executeScraper_finally w2) as [[[]|e'] w3]; [|discriminate].
    intros Hrun. injection Hrun as <- _. right. exact Hfailed.
Qed.

(** X13. What a successful result reports is sound for the watcher the
    run has read, whatever the outside did during the run.  When the
    configuration [executeScraper] reads holds the watcher [scraperConfig]
    under the id and the call returns a result with [success = true], the
    result bears the id; its new listings and price drops together are no
    more than [totalFound]; every new listing is a listing of this watcher,
    with its id and location, no previous price and a zero [expiresAt], at
    a price within [priceMin] and [priceMax]; every price drop carries a
    previous price [p], other than its price, for which the test
    [(p - price) / p >= priceDropThreshold] of this watcher holds in the
    arithmetic of doubles. *)
Theorem executeScraper_reports (scraperId : string) (w w1 w' : World)
    (config : AppConfig) (scraperConfig : ScraperConfig) (r : ScrapingResult) :
  getConfig (with_scraper None w) = (Return config, w1) ->
  lookup_scraper scraperId config = Some scraperConfig ->
  executeScraper scraperId w = (Return r, w') ->
  success r = true ->
  r_scraperId r = scraperId /\ sound_for scraperConfig r.
Proof.
  intros Hcfg Hfind Hrun Hok.
  destruct (executeScraper_returned _ _ _ _ Hrun) as [(w2 & Htry)|(_ & Hfail & _)];
    [|congruence].
  split; [exact (proj1 (executeScraper_try_returns _ _ _ _ _ Htry))|].
  destruct (executeScraper_try_sound _ _ _ _ _ Htry)
    as (config' & w1' & scraperConfig' & Hcfg' & Hfind' & Hsound).
  rewrite Hcfg in Hcfg'. injection Hcfg' as <- _.
  rewrite Hfind in Hfind'. injection Hfind' as <-. exact Hsound.
Qed.

Lemma executeScraper_reports_witness :
  let r := mkScrapingResult "A" true None
             [listing_of_card (watcher "A") 1700000000000
                (mkCard "Road bike" 4500 "1001"
                        "https://www.facebook.com/marketplace/item/1001" None)]
             [] 1 0 in
  r_scraperId r = "A" /\ sound_for (watcher "A") r.
Proof.
  intros r.
  apply (executeScraper_reports "A" (three_watchers [])
           (getConfig (with_scraper None (three_watchers []))).2
           (executeScraper "A" (three_watchers [])).2
           (mkAppConfig [watcher "A"; watcher "B"; watcher "C"]));
    [vm_compute; reflexivity | reflexivity | vm_compute; reflexivity | reflexivity].
Defined.

(** ** A run without configuration *)

(** X14. A run that cannot get at its watcher ends as a failed result, not
    as an exception: when [getConfig] rejects (the parameter store fails,
    CONFIG_PARAMETER is not set), or the configuration holds no watcher
    under the id, [executeScraper] returns the failed result carrying the
    message, having launched no browser and written one console line. *)
Theorem executeScraper_without_watcher (scraperId : string) (w w1 : World) (e : exn) :
  getConfig (with_scraper None w) = (Raise e, w1) \/
  (exists config,
     getConfig (with_scraper None w) = (Return config, w1) /\
     lookup_scraper scraperId config = None /\
     e = Error ("Scraper configuration not found for ID: " +:+ scraperId)) ->
  executeScraper scraperId w
    = (Return (mkScrapingResult scraperId false (Some (error_message e))
                 [] [] 0 (now w1 - now w)),
       with_log (log w1 ++ [ConsoleError ("Scraper " +:+ scraperId +:+ " failed:")])%list
                w1).
Proof.
  intros [Hcfg|(config & Hcfg & Hfind & ->)];
    pose proof (getConfig_keeps_slot _ _ _ Hcfg) as Hslot; simpl in Hslot;
    unfold executeScraper, executeScraper_try, executeScraper_catch,
      executeScraper_finally, bind, finally, try_catch, date_now, set_scraper;
    simpl; rewrite Hcfg.
  - simpl. unfold get_world, ret. simpl. rewrite Hslot. reflexivity.
  - unfold lookup_scraper in Hfind. rewrite Hfind.
    simpl. unfold get_world, ret. simpl. rewrite Hslot. reflexivity.
Qed.

Lemma executeScraper_without_watcher_witness :
  exists w',
    executeScraper "bikes" unconfigured_world
      = (Return (mkScrapingResult "bikes" false
                   (Some "CONFIG_PARAMETER environment variable not set") [] [] 0 0),
         w') /\
    log w' = [ConsoleError "Failed to load configuration:";
              ConsoleError "Scraper bikes failed:"].
Proof.
  eexists. split.
  - apply (executeScraper_without_watcher "bikes" unconfigured_world
             (getConfig (with_scraper None unconfigured_world)).2
             (Error "CONFIG_PARAMETER environment variable not set")).
    left. reflexivity.
  - reflexivity.
Defined.

(** ** Fan-out *)

Lemma sendNotifications_log (secrets : gmap string string)
    (payload : NotificationPayload) (w : World) :
  exists w' evs,
    sendNotifications secrets payload w = (Return tt, w') /\
    log w' = (log w ++ evs)%list /\
    calls_of evs = posts_of secrets payload.
Proof.
  rewrite sendNotifications_attempts. unfold bind.
  destruct (allSettled_attempts (channel_attempts secrets (p_scraper payload)) w)
    as (rs & w1 & evs1 & -> & Hlog1 & Hcalls1 & _).
  destruct (report_rejected_log rs 0 w1) as (w2 & evs2 & -> & Hlog2 & Hcalls2 & _).
  exists w2, (evs1 ++ evs2)%list. split; [reflexivity|]. split.
  - rewrite Hlog2, Hlog1, app_assoc. reflexivity.
  - rewrite calls_of_app, Hcalls1, Hcalls2, app_nil_r.
    unfold channel_attempts, posts_of. rewrite map_map. reflexivity.
Qed.

Lemma sendNotifications_settles (secrets : gmap string string)
    (payload : NotificationPayload) (w : World) :
  exists r w' evs,
    sendNotifications secrets payload w = (r, w') /\
    log w' = (log w ++ evs)%list /\
    calls_of evs = posts_of secrets payload.
Proof.
  destruct (sendNotifications_log secrets payload w) as (w' & evs & Hrun).
  exists (Return tt), w', evs. exact Hrun.
Qed.

Lemma allSettled_log {A B} (f : A -> M B) (g : A -> list Call) (items : list A) :
  (forall a w, exists r w' evs,
      f a w = (r, w') /\ log w' = (log w ++ evs)%list /\ calls_of evs = g a) ->
  forall w, exists outs w' evs,
    allSettled (map f items) w = (Return outs, w') /\
    log w' = (log w ++ evs)%list /\
    calls_of evs = flat_map g items.
Proof.
  intros Hf. induction items as [|a items IH]; intros w; simpl.
  - exists [], w, []. rewrite app_nil_r. auto.
  - unfold bind, settle.
    destruct (Hf a w) as (r & w1 & evs1 & -> & Hlog1 & Hcalls1).
    destruct (IH w1) as (outs & w2 & evs2 & -> & Hlog2 & Hcalls2).
    exists (r :: outs), w2, (evs1 ++ evs2)%list. split; [reflexivity|]. split.
    + rewrite Hlog2, Hlog1, app_assoc. reflexivity.
    + rewrite calls_of_app, Hcalls1, Hcalls2. reflexivity.
Qed.

(** X15. Every listing the run reports is offered to every channel of the
    watcher: [ScraperService.sendNotifications] never rejects, and the
    requests it makes are, for each new listing and then for each price
    drop in turn, one per enabled channel, whether or not earlier requests
    were rejected. *)
Theorem ScraperService_sendNotifications_fans_out
    (newListings priceDrops : list Listing) (config : ScraperConfig)
    (secrets : gmap string string) (w : World) :
  exists w' evs,
    ScraperService_sendNotifications newListings priceDrops config secrets w
      = (Return tt, w') /\
    log w' = (log w ++ evs)%list /\
    calls_of evs
    = flat_map (fun _ => map Post (enabled_channels secrets config))
               (newListings ++ priceDrops)%list.
Proof.
  unfold ScraperService_sendNotifications, bind.
  rewrite <- (map_map (new_listing_payload config) (sendNotifications secrets)).
  rewrite <- (map_map (price_drop_payload config) (sendNotifications secrets)).
  rewrite <- map_app.
  destruct (allSettled_log (sendNotifications secrets) (posts_of secrets)
              (map (new_listing_payload config) newListings ++
               map (price_drop_payload config) priceDrops)%list
              (sendNotifications_settles secrets) w)
    as (outs & w' & evs & -> & Hlog & Hcalls).
  exists w', evs. split; [reflexivity|]. split; [exact Hlog|].
  rewrite Hcalls, !flat_map_app, !flat_map_concat_map, !map_map. reflexivity.
Qed.

(** ** The notifier *)

Lemma notifier_record_log (secrets : gmap string string)
    (record : option NotificationPayload) (w : World) :
  exists r w' evs,
    notifier_record secrets record w = (r, w') /\
    log w' = (log w ++ evs)%list /\ calls_of evs = record_posts secrets record.
Proof.
  unfold notifier_record, try_catch. destruct record as [payload|].
  - destruct (sendNotifications_log secrets payload w) as (w' & evs & -> & Hlog & Hcalls).
    exists (Return tt), w', evs. auto.
  - eexists. eexists.
    exists [ConsoleError "Failed to process notification:"; ConsoleError "Record body:"].
    split; [reflexivity|]. simpl. rewrite <- app_assoc. auto.
Qed.

(** X16. The notifier fails only for want of the secrets.  When
    [getSecrets] rejects, the handler writes a console line and rejects
    with the same exception, having posted nothing.  Otherwise it is
    fulfilled whatever the records hold and whatever the channels answer:
    a record whose body does not parse is skipped, and for the others, in
    the order of the event, one request per enabled channel is made. *)
Theorem notifier_handler_outcome (records : list (option NotificationPayload))
    (w : World) :
  match getSecrets_of fresh_configService w with
  | (Raise e, w1) =>
      notifier_handler records w
      = (Raise e, with_log (log w1 ++ [ConsoleError "Notifier handler error:"])%list w1)
  | (Return (secrets, _), w1) =>
      exists w' evs,
        notifier_handler records w = (Return tt, w') /\
        log w' = (log w1 ++ evs)%list /\
        calls_of evs = flat_map (record_posts secrets) records
  end.
Proof.
  unfold notifier_handler, try_catch, bind.
  destruct (getSecrets_of fresh_configService w) as [[[secrets self']|e] w1];
    [|reflexivity].
  destruct (allSettled_log (notifier_record secrets) (record_posts secrets) records
              (notifier_record_log secrets) w1)
    as (outs & w' & evs & -> & Hlog & Hcalls).
  exists w', evs. auto.
Qed.

(** ** The request handler *)


(** A request for the watcher of [close_rejecting_world]: the run goes
    well, the browser refuses to close, and the caller is told 500. *)
Example scraper_handler_close_rejection :
  (scraper_handler (mkEvent (Some (Parsed "bikes")) None) close_rejecting_world).1
  = Return (Status500 "browser.close: Timeout 30000ms exceeded").
Proof. vm_compute. reflexivity. Qed.

(** ** The scheduler and its configuration *)

Lemma allSettled_returns {A} (ms : list (M A)) :
  forall w, exists outs w', allSettled ms w = (Return outs, w').
Proof.
  induction ms as [|m ms IH]; intros w; simpl; [eauto|].
  unfold bind, settle. destruct (m w) as [r w1].
  destruct (IH w1) as (outs & w2 & ->). eauto.
Qed.

Lemma run_batches_returns (k : nat) (es : list ScraperConfig) :
  forall fuel i results w, exists o w',
    run_batches fuel k es i results w = (Return o, w').
Proof.
  induction fuel as [|fuel IH]; intros i results w; simpl; [eauto|].
  destruct (i <? length es)%nat; [|eauto].
  unfold bind, emit. cbv beta iota.
  match goal with
  | |- context [allSettled ?ms ?w0] =>
      destruct (allSettled_returns ms w0) as (outs & w1 & ->)
  end.
  cbv beta iota.
  match goal with
  | |- context [report_failed ?b outs w1] =>
      destruct (report_failed_log b outs w1) as (w2 & evs & -> & _ & _)
  end.
  destruct (i + k <? length es)%nat; unfold sleep, ret; cbv beta iota; apply IH.
Qed.

(** X18. The scheduler rejects for one reason only.  When the list of
    enabled watchers cannot be read, the handler writes a console line and
    rejects with the exception of the read, and no watcher is run.  Once
    the list is read, the handler never rejects, whatever [maxConcurrent]
    is and whatever becomes of the watchers, even of one whose
    [executeScraper] is rejected. *)
Theorem handler_rejects_for_configuration_only (fuel maxConcurrent : nat) (w : World) :
  match getEnabledScrapers_of fresh_configService w with
  | (Raise e, w1) =>
      handler fuel maxConcurrent w
      = (Raise e, with_log (log w1 ++ [ConsoleError "Scheduler failed:"])%list w1)
  | (Return _, _) =>
      exists results w', handler fuel maxConcurrent w = (Return results, w')
  end.
Proof.
  unfold handler, try_catch, bind.
  change (mkConfigService None None 0) with fresh_configService.
  destruct (getEnabledScrapers_of fresh_configService w) as [[[es self']|e] w1];
    [|reflexivity].
  destruct (length es =? 0)%nat; [eauto|].
  destruct (run_batches_returns maxConcurrent es fuel 0%nat [] w1) as (o & w' & ->).
  eauto.
Qed.

Lemma run_batches_stalls (es : list ScraperConfig) :
  es <> [] ->
  forall fuel results w, exists w' evs,
    run_batches fuel 0 es 0 results w = (Return None, w') /\
    log w' = (log w ++ evs)%list /\
    calls_of evs = repeat (Sleep 2000) fuel.
Proof.
  intros Hes. destruct es as [|s es]; [congruence|].
  induction fuel as [|fuel IH]; intros results w.
  - exists w, []. rewrite app_nil_r. auto.
  - cbn [run_batches]. cbn [length Nat.ltb Nat.leb Nat.add].
    unfold slice. cbn [Nat.sub take drop map allSettled report_failed].
    unfold bind, emit, ret, sleep. cbv beta iota.
    match goal with
    | |- context [run_batches fuel 0 _ 0 ?res ?w0] =>
        destruct (IH res w0) as (w' & evs & -> & Hlog & Hcalls)
    end.
    eexists. eexists. split; [reflexivity|]. split.
    + rewrite Hlog. simpl. rewrite <- !app_assoc. reflexivity.
    + simpl. rewrite Hcalls. reflexivity.
Qed.

(** X19. A limit of zero stalls the scheduler.  When MAX_CONCURRENT_SCRAPERS
    reads as 0 and there is a watcher to run, the loop of the handler
    never advances: whatever number of turns it is given it has not ended,
    every turn runs an empty batch and pauses two seconds, and no watcher
    is ever run. *)
Theorem handler_stalls_on_zero (w w1 : World) (enabledScrapers : list ScraperConfig)
    (self' : ConfigService) (fuel : nat) :
  getEnabledScrapers_of fresh_configService w = (Return (enabledScrapers, self'), w1) ->
  enabledScrapers <> [] ->
  exists w' evs,
    handler fuel 0 w = (Return None, w') /\
    log w' = (log w1 ++ evs)%list /\
    calls_of evs = repeat (Sleep 2000) fuel.
Proof.
  intros Hcfg Hes. unfold handler, try_catch, bind.
  change (mkConfigService None None 0) with fresh_configService. rewrite Hcfg.
  destruct enabledScrapers as [|s es]; [congruence|]. cbn [length Nat.eqb].
  destruct (run_batches_stalls (s :: es) Hes fuel [] w1) as (w' & evs & -> & Hlog & Hcalls).
  eauto.
Qed.

Lemma handler_stalls_on_zero_witness :
  exists w' evs,
    handler 5 0 seven_world = (Return None, w') /\
    log w' = ([Ev GetParameter true] ++ evs)%list /\
    calls_of evs = repeat (Sleep 2000) 5.
Proof.
  apply (handler_stalls_on_zero seven_world
           (getEnabledScrapers_of fresh_configService seven_world).2
           seven_watchers
           (mkConfigService (Some (mkAppConfig seven_watchers)) None
                            (1700000000000 + CACHE_TTL)) 5);
    [reflexivity | discriminate].
Defined.

(** ** What the scheduler collects *)

Lemma executeScraper_honest (scraperId : string) (w w' : World) (r : ScrapingResult) :
  executeScraper scraperId w = (Return r, w') -> honest r.
Proof.
  intros Hrun. unfold honest.
  destruct (executeScraper_returned _ _ _ _ Hrun) as [(w1 & Htry)|Hfail].
  - destruct (executeScraper_try_returns _ _ _ _ _ Htry) as [Hid Hok].
    destruct (executeScraper_try_sound _ _ _ _ _ Htry)
      as (config & w0 & scraperConfig & _ & Hfind & Hlen & Hnews & Hdrops).
    apply find_some in Hfind. destruct Hfind as [_ Hname].
    apply String.eqb_eq in Hname.
    left. split; [exact Hok|]. split; [exact Hlen|]. split.
    + eapply List.Forall_impl; [|exact Hnews].
      intros l [(Hl & _ & Hprev & Hexp) _]. rewrite Hl, Hname, Hid. auto.
    + eapply List.Forall_impl; [|exact Hdrops].
      intros u (p & Hp & Hne & _). eauto.
  - right. destruct Hfail as [Hid Hrest]. rewrite Hid. split; [exact Hid | exact Hrest].
Qed.

Lemma collect_honest (batch : list ScraperConfig) :
  forall w outs w',
    allSettled (map (fun s => executeScraper (id s)) batch) w = (Return outs, w') ->
    Forall honest (collect batch outs).
Proof.
  induction batch as [|s batch IH]; intros w outs w'; simpl.
  - unfold ret. intros Hrun. injection Hrun as <- _. constructor.
  - unfold bind, settle.
    destruct (executeScraper (id s) w) as [r w1] eqn:Hone.
    destruct (allSettled (map (fun s0 => executeScraper (id s0)) batch) w1)
      as [[rest|e] w2] eqn:Hrest; [|discriminate].
    unfold ret. intros Hrun. injection Hrun as <- _.
    specialize (IH w1 rest w2 Hrest).
    destruct r as [value|reason]; simpl; constructor; try exact IH.
    + exact (executeScraper_honest _ _ _ _ Hone).
    + right. unfold failed_result. simpl. eauto 10.
Qed.

Lemma run_batches_honest (k : nat) (es : list ScraperConfig) :
  forall fuel i results w res w',
    Forall honest results ->
    run_batches fuel k es i results w = (Return (Some res), w') ->
    Forall honest res.
Proof.
  induction fuel as [|fuel IH]; intros i results w res w' Hres; simpl;
    [discriminate|].
  destruct (i <? length es)%nat;
    [|unfold ret; intros Hrun; injection Hrun as <- _; exact Hres].
  unfold bind, emit. cbv beta iota.
  match goal with
  | |- context [allSettled ?ms ?w0] =>
      destruct (allSettled ms w0) as [[outs|e] w1] eqn:Hwave; [|discriminate]
  end.
  cbv beta iota.
  pose proof (collect_honest _ _ _ _ Hwave) as Hnew.
  match goal with
  | |- context [report_failed ?b outs w1] =>
      destruct (report_failed_log b outs w1) as (w2 & evs & -> & _ & _)
  end.
  destruct (i + k <? length es)%nat; unfold sleep, ret; cbv beta iota;
    apply IH; apply Forall_app; split; assumption.
Qed.

Lemma honest_counts (results : list ScrapingResult) :
  Forall honest results ->
  (list_sum (map (fun r => length (newListings r)) results) +
   list_sum (map (fun r => length (priceDrops r)) results)
   <= list_sum (map totalFound results))%nat.
Proof.
  induction 1 as [|r results Hr _ IH]; simpl; [lia|].
  assert (length (newListings r) + length (priceDrops r) <= totalFound r)%nat.
  { destruct Hr as [(_ & Hlen & _)|(_ & _ & _ & -> & -> & ->)];
      [exact Hlen | simpl; lia]. }
  lia.
Qed.

(** X20. What the scheduler collects can be taken at its word.  Every
    result of a finished run is either a success (it reports no more news
    and drops than it found; its new listings bear the id the result
    bears, no previous price and a zero [expiresAt]; its price drops carry
    a previous price other than their price) or a failure in full (no
    listing, nothing found, a message).  So in the summary the new listings
    and the price drops together never exceed the listings found. *)
Theorem handler_results_honest (fuel maxConcurrent : nat) (w w' : World)
    (results : list ScrapingResult) (enabledScrapers : nat) :
  handler fuel maxConcurrent w = (Return (Some results), w') ->
  Forall honest results /\
  (totalNew (summarize enabledScrapers results) +
   totalDrops (summarize enabledScrapers results)
   <= totalFound_sum (summarize enabledScrapers results))%nat.
Proof.
  intros Hrun.
  assert (Hall : Forall honest results).
  { unfold handler, try_catch, bind in Hrun.
    destruct (getEnabledScrapers_of _ w) as [[[es self']|e] w1]; [|discriminate].
    destruct (length es =? 0)%nat.
    - unfold ret in Hrun. injection Hrun as <- _. constructor.
    - destruct (run_batches fuel maxConcurrent es 0 [] w1) as [[o|e] w2] eqn:Hloop;
        [|discriminate].
      injection Hrun as -> _.
      exact (run_batches_honest _ _ _ _ _ _ _ _ (Forall_nil_2 _) Hloop). }
  split; [exact Hall|]. simpl. exact (honest_counts results Hall).
Qed.

Lemma run_parts {A} (m : M A) (w : World) (o : outcome A) :
  (m w).1 = o -> m w = (o, (m w).2).
Proof. destruct (m w) as [o' w']. simpl. intros ->. reflexivity. Qed.

Lemma handler_results_honest_witness :
  exists results,
    (handler 4 2 (three_watchers [])).1 = Return (Some results) /\
    Forall honest results.
Proof.
  eexists. split; [vm_compute; reflexivity|].
  eapply (fun Hrun => proj1 (handler_results_honest 4 2 (three_watchers [])
                               (handler 4 2 (three_watchers [])).2 _ 3 Hrun)).
  apply (run_parts (handler 4 2) (three_watchers [])).
  vm_compute. reflexivity.
Defined.

(** ** A second look at an unchanged page *)

Lemma stored_as_price (e : Z) (old : option Listing) (listing : Listing) :
  price (stored_as e old listing) = price listing.
Proof. destruct old; reflexivity. Qed.

(** After a run over listings with distinct keys, each is on record at the
    price observed. *)
Lemma processListings_from_records (config : ScraperConfig) (ls : list Listing) :
  NoDup (map key_of ls) ->
  forall acc w, calm w ->
  exists r w',
    processListings_from config acc ls w = (Return r, w') /\
    calm w' /\ Forall (on_record w') ls.
Proof.
  induction ls as [|listing rest IH]; intros Hnodup acc w Hcalm.
  - exists acc, w. split; [reflexivity|]. split; [exact Hcalm | constructor].
  - apply NoDup_cons in Hnodup. destruct Hnodup as [Hfresh Hnodup].
    cbn [processListings_from]. unfold bind.
    destruct (processListing_calm config acc listing w Hcalm)
      as (acc' & w1 & e & -> & Hcalm1 & Htable1).
    destruct (processListings_from_calm config rest acc' w1 Hcalm1)
      as (r & w2 & Hrun & _ & _ & Hframe & _).
    destruct (IH Hnodup acc' w1 Hcalm1) as (r' & w2' & Hrun' & Hcalm2 & Hrest).
    rewrite Hrun in Hrun'. injection Hrun' as <- <-.
    rewrite Hrun. exists r, w2. split; [reflexivity|]. split; [exact Hcalm2|].
    constructor; [|exact Hrest].
    exists (stored_as e (table w !! key_of listing) listing).
    split; [|apply stored_as_price].
    rewrite Hframe.
    + rewrite Htable1. apply lookup_insert_eq.
    + intros Hin. apply Hfresh. apply list_elem_of_In. exact Hin.
Qed.

(** A run over listings that are all on record at the price observed
    reports nothing. *)
Lemma processListings_from_quiet (config : ScraperConfig) (ls : list Listing) :
  forall acc w, calm w -> Forall (on_record w) ls ->
  exists w',
    processListings_from config acc ls w = (Return acc, w') /\ calm w'.
Proof.
  induction ls as [|listing rest IH]; intros acc w Hcalm Hrec.
  - exists w. split; [reflexivity | exact Hcalm].
  - inversion Hrec as [|? ? (stored & Hstored & Hprice) Hrest]; subst.
    cbn [processListings_from]. unfold processListing, try_catch, bind.
    destruct (getListing_calm (scraperId listing) (listingId listing) w Hcalm)
      as (w1 & Hget & Htable1 & Hcalm1 & _).
    rewrite Hget. unfold key_of in Hstored. rewrite Hstored.
    assert (Hstored1 : table w1 !! (scraperId listing, listingId listing) = Some stored)
      by (rewrite Htable1; exact Hstored).
    destruct (updateListingPrice_calm (scraperId listing) (listingId listing)
                (price listing) (lastSeen listing) w1 stored Hcalm1 Hstored1)
      as (w2 & n & Hupd & Htable2 & Hcalm2 & _).
    cbv zeta in Hupd, Htable2.
    replace (price listing =? price stored) with true
      by (symmetry; apply Z.eqb_eq; congruence).
    cbv beta iota delta [negb]. rewrite Hupd. cbv beta iota. unfold ret at 1.
    apply IH; [exact Hcalm2|].
    eapply List.Forall_impl; [|exact Hrest].
    intros l (s & Hs & Hp). unfold on_record. rewrite Htable2, Htable1.
    destruct (decide ((scraperId listing, listingId listing) = key_of l)) as [Heq|Hne].
    + rewrite <- Heq, lookup_insert_eq. eexists. split; [reflexivity|].
      simpl. rewrite <- Heq in Hs. unfold key_of in Hstored. congruence.
    + rewrite lookup_insert_ne by exact Hne. eauto.
Qed.

Lemma on_record_seen_again (w : World) (ls ls' : list Listing) :
  Forall2 seen_again ls ls' -> Forall (on_record w) ls -> Forall (on_record w) ls'.
Proof.
  induction 1 as [|l l' ls ls' [Hkey Hprice] _ IH]; intros Hrec; [constructor|].
  inversion Hrec as [|? ? (stored & Hstored & Hp) Hrest]; subst.
  constructor; [|exact (IH Hrest)].
  exists stored. rewrite Hkey, Hprice. auto.
Qed.

(** X21. A second look at an unchanged page reports nothing.  In a world
    where the outside behaves, once [processListings] has run over listings
    with distinct keys, a run over later observations of the same items at
    the same prices (whatever the instants they bear, whatever the
    threshold) returns no new listing and no price drop. *)
Theorem processListings_twice (scrapedListings again : list Listing)
    (config config' : ScraperConfig) (w : World) :
  calm w ->
  NoDup (map key_of scrapedListings) ->
  Forall2 seen_again scrapedListings again ->
  exists r w1 w2,
    processListings scrapedListings config w = (Return r, w1) /\
    processListings again config' w1 = (Return ([], []), w2).
Proof.
  intros Hcalm Hnodup Hagain.
  destruct (processListings_from_records config scrapedListings Hnodup ([], []) w Hcalm)
    as (r & w1 & Hrun & Hcalm1 & Hrec).
  destruct (processListings_from_quiet config' again ([], []) w1 Hcalm1
              (on_record_seen_again w1 _ _ Hagain Hrec)) as (w2 & Hrun2 & _).
  exists r, w1, w2. split; [exact Hrun | exact Hrun2].
Qed.

Lemma processListings_twice_witness :
  exists r w1 w2,
    processListings [observed_bike 4000 1700000000000]
                    (sample_config true facebook) bike_world = (Return r, w1) /\
    processListings [observed_bike 4000 1700003600000]
                    (sample_config true facebook) w1 = (Return ([], []), w2).
Proof.
  apply (processListings_twice [observed_bike 4000 1700000000000]
           [observed_bike 4000 1700003600000] _ _ bike_world calm_bike_world).
  - constructor; [intros Hin; inversion Hin | constructor].
  - constructor; [split; reflexivity | constructor].
Defined.

(** ** A second run on an unchanged page *)

Section Undisturbed.
Context (P : option AppConfig) (G : string -> list Card).
Context (Tp : gmap (string * string) Listing -> Prop).



End Undisturbed.





Section UndisturbedServices.
Context (P : option AppConfig) (G : string -> list Card).
Context (Tp : gmap (string * string) Listing -> Prop).










End UndisturbedServices.





Section SecondRun.
Context (P : option AppConfig) (G : string -> list Card).











End SecondRun.



